(** * Guest registry (Ccv): the fiscal-code core and the Flask application

    The repository is a Flask guest registry ([app.py], [models.py]).  The
    route [/calculate_fiscal_code] calls [calculate_fiscal_code], imported
    from the module [fiscal_code], which is not among the sources; the
    helpers of [utils] and [forms] are absent as well.

    - [Calendar]: the proleptic Gregorian calendar of Python's [datetime].
    - [Core]: the fiscal-code core (encoders, checksum, omocodia resolver,
      validator), modelled from the specification because [fiscal_code.py]
      is absent.
    - [App]: the views of [app.py], translated from the source, with the
      absent collaborators taken as section variables.
    - [CoreFacts], [AppFacts]: the statements of the specification.
    - [AppMore]: further properties of the views. *)

From Stdlib Require Import ZArith Lia Ascii String List Bool SpecFloat Sorted
  DecimalString.
From stdpp Require Import gmap strings list.

Local Open Scope Z_scope.

(* ===================================================================== *)
(** ** Calendar *)
(* ===================================================================== *)

Module Calendar.

(** A calendar date as three integers; nothing forces it to be valid. *)
Record date := Date { year : Z; month : Z; day : Z }.

Definition is_leap (y : Z) : bool :=
  (y mod 4 =? 0) && (negb (y mod 100 =? 0) || (y mod 400 =? 0)).

Definition days_in_month (y m : Z) : Z :=
  if m =? 2 then (if is_leap y then 29 else 28)
  else if (m =? 4) || (m =? 6) || (m =? 9) || (m =? 11) then 30
  else 31.

(** A date of the proleptic Gregorian calendar, from year 1 on. *)
Definition valid_gregorian (d : date) : bool :=
  (1 <=? year d) && (1 <=? month d) && (month d <=? 12)
  && (1 <=? day d) && (day d <=? days_in_month (year d) (month d)).

Definition date_ltb (a b : date) : bool :=
  (year a <? year b)
  || ((year a =? year b)
      && ((month a <? month b)
          || ((month a =? month b) && (day a <? day b)))).

End Calendar.

(* ===================================================================== *)
(** ** The fiscal-code core *)
(* ===================================================================== *)

Module Core.
Import Calendar.

(** Text is a list of 8-bit characters, read as ISO-8859-1 code points. *)
Abbreviation text := (list ascii).

Definition txt (s : string) : text := list_ascii_of_string s.

(** Modelled from the spec: the error kinds of the absent [fiscal_code.py]
    (section 7). *)
Inductive error :=
| EmptyNameError
| UnknownPlaceError
| InvalidDateError
| InvalidFormatError
| ChecksumMismatchError
| CodeSpaceExhaustedError.

Inductive result (A : Type) :=
| Ok (a : A)
| Err (e : error).
Arguments Ok {A} a.
Arguments Err {A} e.

Definition bind {A B} (r : result A) (k : A -> result B) : result B :=
  match r with
  | Ok a => k a
  | Err e => Err e
  end.

Notation "x <- r ;; k" := (bind r (fun x => k))
  (at level 100, r at next level, right associativity).

(** *** Character classes *)

Definition code_of (c : ascii) : nat := nat_of_ascii c.

Definition is_digit (c : ascii) : bool :=
  (48 <=? code_of c)%nat && (code_of c <=? 57)%nat.

Definition is_upper (c : ascii) : bool :=
  (65 <=? code_of c)%nat && (code_of c <=? 90)%nat.

Definition is_lower (c : ascii) : bool :=
  (97 <=? code_of c)%nat && (code_of c <=? 122)%nat.

(** The character set [A-Z0-9] of a fiscal code. *)
Definition is_code_char (c : ascii) : bool := is_upper c || is_digit c.

Definition is_vowel (c : ascii) : bool :=
  match c with
  | "A" | "E" | "I" | "O" | "U" => true
  | _ => false
  end%char.

Definition is_consonant (c : ascii) : bool := is_upper c && negb (is_vowel c).

(** *** 4.1 Name encoder *)

(** Modelled from the spec: the upper-casing step of the name
    normalization in the absent [fiscal_code.py] (section 4.1). *)
Definition to_upper (c : ascii) : ascii :=
  if is_lower c then ascii_of_nat (code_of c - 32) else c.

(** Modelled from the spec: the diacritic-stripping step of the name
    normalization in the absent [fiscal_code.py].  The accented letters
    of ISO-8859-1 (upper case, after [to_upper] of the ASCII range; the
    lower-case ones as well) lose their mark; every other character is
    left as it is. *)
Definition strip_diacritic (c : ascii) : ascii :=
  let n := code_of c in
  let n := if (224 <=? n)%nat && negb (n =? 247)%nat then (n - 32)%nat else n in
  if (192 <=? n)%nat && (n <=? 197)%nat then "A"%char
  else if (n =? 199)%nat then "C"%char
  else if (200 <=? n)%nat && (n <=? 203)%nat then "E"%char
  else if (204 <=? n)%nat && (n <=? 207)%nat then "I"%char
  else if (n =? 209)%nat then "N"%char
  else if (210 <=? n)%nat && (n <=? 214)%nat then "O"%char
  else if (217 <=? n)%nat && (n <=? 220)%nat then "U"%char
  else if (n =? 221)%nat || (code_of c =? 255)%nat then "Y"%char
  else c.

(** Modelled from the spec: the name normalization of the absent
    [fiscal_code.py], "normalize input to uppercase, strip
    whitespace/punctuation/diacritics, keep only letters A-Z". *)
Definition normalize (s : text) : text :=
  filter (fun c => is_upper c = true) (map (fun c => strip_diacritic (to_upper c)) s).

Definition consonants (s : text) : text := filter (fun c => is_consonant c = true) s.
Definition vowels (s : text) : text := filter (fun c => is_vowel c = true) s.

Definition pad_X : text := txt "XXX".

(** The consonant / vowel / pad rule on an already normalized name. *)
Definition three_letters (n : text) : text :=
  take 3 (consonants n ++ vowels n ++ pad_X).

(** Modelled from the spec: [encode_surname] of the absent
    [fiscal_code.py]; an empty normalized name is an [EmptyNameError]. *)
Definition encode_surname (s : text) : result text :=
  match normalize s with
  | [] => Err EmptyNameError
  | n => Ok (three_letters n)
  end.

(** Modelled from the spec: [encode_given_name] of the absent
    [fiscal_code.py]; with four or more consonants the 1st, 3rd and 4th
    are used. *)
Definition encode_given_name (s : text) : result text :=
  match normalize s with
  | [] => Err EmptyNameError
  | n =>
      match consonants n with
      | c1 :: _ :: c3 :: c4 :: _ => Ok [c1; c3; c4]
      | _ => Ok (three_letters n)
      end
  end.

(** *** 4.2 Date/Sex encoder *)

Inductive sex := Male | Female.

Definition digit_char (n : Z) : ascii := ascii_of_nat (48 + Z.to_nat n).

(** Two decimal digits, zero-padded. *)
Definition pad2 (n : Z) : text := [digit_char (n / 10 mod 10); digit_char (n mod 10)].

(** Modelled from the spec: the month table of the absent
    [fiscal_code.py], A B C D E H L M P R S T (section 4.2). *)
Definition month_letters : text := txt "ABCDEHLMPRST".

Definition month_letter (m : Z) : ascii :=
  default "A"%char (month_letters !! Z.to_nat (m - 1)).

Definition is_month_letter (c : ascii) : bool :=
  bool_decide (c ∈ month_letters).

Definition day_field (d : date) (s : sex) : Z :=
  match s with
  | Male => day d
  | Female => day d + 40
  end.

Inductive place_kind := Municipality | ForeignCountry.

Definition place_kind_eqb (a b : place_kind) : bool :=
  match a, b with
  | Municipality, Municipality | ForeignCountry, ForeignCountry => true
  | _, _ => false
  end.

(** Modelled from the spec: a row of the place code table, which is not
    in the repository (section 3). *)
Record PlaceCodeEntry := {
  name : text;
  code : text;
  kind : place_kind
}.

(** The invariant of a row: one letter and three digits. *)
Definition wf_place_code (c : text) : bool :=
  match c with
  | [l; d1; d2; d3] => is_upper l && is_digit d1 && is_digit d2 && is_digit d3
  | _ => false
  end.

(** Modelled from the spec: the input of one computation of the absent
    [fiscal_code.py] (section 3). *)
Record PersonInput := {
  last_name : text;
  first_name : text;
  person_sex : sex;
  birth_date : date;
  birth_place : text;
  is_foreign_birth : bool
}.

(** Case- and diacritic-insensitive key of a place name. *)
Definition place_key (s : text) : text :=
  map (fun c => strip_diacritic (to_upper c)) s.

Definition namespace (is_foreign : bool) : place_kind :=
  if is_foreign then ForeignCountry else Municipality.

Definition entry_matches (n : text) (is_foreign : bool) (e : PlaceCodeEntry) : bool :=
  place_kind_eqb (kind e) (namespace is_foreign)
  && bool_decide (place_key (name e) = place_key n).

Definition letter_of (r : nat) : ascii := ascii_of_nat (65 + r).

(** Modelled from the spec: the omocodia table of the absent
    [fiscal_code.py], 0 L, 1 M, 2 N, 3 P, 4 Q, 5 R, 6 S, 7 T, 8 U, 9 V. *)
Definition omocodia (c : ascii) : ascii :=
  match c with
  | "0" => "L" | "1" => "M" | "2" => "N" | "3" => "P" | "4" => "Q"
  | "5" => "R" | "6" => "S" | "7" => "T" | "8" => "U" | "9" => "V"
  | _ => c
  end%char.

(** Positions 15 down to 1 of the core, as list indices. *)
Definition scan_order : list nat := rev (seq 0 15).

Section WithTables.

(** Modelled from the spec: the date that bounds a birth ("future-dated
    birth" is an [InvalidDateError]); the core reads no clock, so the
    caller's date is a parameter. *)
Variable today : date.

(** Modelled from the spec: the reference table, loaded once; its rows
    are not in the repository. *)
Variable places : list PlaceCodeEntry.

(** Modelled from the spec: the ODD and EVEN tables of the official
    specification; the spec does not list their values. *)
Variable odd_value even_value : ascii -> nat.

(** Modelled from the spec: [encode(birth_date, sex)] of the absent
    [fiscal_code.py], giving the 2-digit year, the month letter and the
    2-digit day. *)
Definition encode_date (d : date) (s : sex) : result (text * ascii * text) :=
  if negb (valid_gregorian d) || date_ltb today d then Err InvalidDateError
  else Ok (pad2 (year d mod 100), month_letter (month d), pad2 (day_field d s)).

(** *** 4.3 Place code table *)

(** Modelled from the spec: [lookup(name, is_foreign)] of the absent
    [fiscal_code.py]; the first row of the namespace whose name matches. *)
Definition lookup_place (n : text) (is_foreign : bool) : result PlaceCodeEntry :=
  match List.find (entry_matches n is_foreign) places with
  | Some e => Ok e
  | None => Err UnknownPlaceError
  end.

(** *** 4.4 Composer *)

(** Modelled from the spec: [compose] of the absent [fiscal_code.py], the
    15-character core; the first failing encoder or lookup decides the
    error. *)
Definition compose (p : PersonInput) : result text :=
  sn <- encode_surname (last_name p) ;;
  gn <- encode_given_name (first_name p) ;;
  ymd <- encode_date (birth_date p) (person_sex p) ;;
  e <- lookup_place (birth_place p) (is_foreign_birth p) ;;
  let '(yy, m, dd) := ymd in
  Ok (sn ++ gn ++ yy ++ [m] ++ dd ++ code e).

(** *** 4.5 Checksum calculator *)

(** Sum of the table values; the first character is at an odd position
    when [odd] is [true]. *)
Fixpoint weighted_sum (odd : bool) (s : text) : nat :=
  match s with
  | [] => 0
  | c :: s' =>
      ((if odd then odd_value c else even_value c) + weighted_sum (negb odd) s')%nat
  end.

(** Modelled from the spec: [checksum] of the absent [fiscal_code.py]
    (section 4.5). *)
Definition checksum (core : text) : ascii :=
  letter_of (weighted_sum true core mod 26).

Definition with_check (core : text) : text := core ++ [checksum core].

(** *** 4.6 Omocodia resolver *)

(** Modelled from the spec: the scan of the resolver in the absent
    [fiscal_code.py].  Over the remaining positions the next digit is
    replaced, the check character recomputed and membership tested again;
    earlier replacements are kept. *)
Fixpoint resolve (is_taken : text -> bool) (positions : list nat) (core : text)
  : result text :=
  match positions with
  | [] => Err CodeSpaceExhaustedError
  | i :: rest =>
      match core !! i with
      | Some c =>
          if is_digit c then
            let core' := <[i := omocodia c]> core in
            if is_taken (with_check core') then resolve is_taken rest core'
            else Ok (with_check core')
          else resolve is_taken rest core
      | None => resolve is_taken rest core
      end
  end.

(** Modelled from the spec: [disambiguate(candidate, is_taken)] of the
    absent [fiscal_code.py] (section 4.6). *)
Definition disambiguate (candidate : text) (is_taken : text -> bool) : result text :=
  if is_taken candidate then resolve is_taken scan_order (take 15 candidate)
  else Ok candidate.

(** *** 4.7 Validator *)

(** Modelled from the spec: the shape test of the validator in the absent
    [fiscal_code.py]: 16 characters of [A-Z0-9], a month letter ninth. *)
Definition shape_ok (c : text) : bool :=
  (length c =? 16)%nat
  && forallb is_code_char c
  && match c !! 8%nat with
     | Some m => is_month_letter m
     | None => false
     end.

(** Modelled from the spec: [validate_fiscal_code] of the absent
    [fiscal_code.py] (sections 4.5 and 4.7). *)
Definition validate_fiscal_code (c : text) : result unit :=
  if negb (shape_ok c) then Err InvalidFormatError
  else if bool_decide (c !! 15%nat = Some (checksum (take 15 c))) then Ok tt
  else Err ChecksumMismatchError.

(** *** Entry point *)

(** Modelled from the spec: [compute_fiscal_code] of the absent
    [fiscal_code.py] (section 6); the resolver runs only when the caller
    supplies the [is_taken] hook. *)
Definition compute_fiscal_code (hook : option (text -> bool)) (p : PersonInput)
  : result text :=
  core <- compose p ;;
  match hook with
  | Some is_taken => disambiguate (with_check core) is_taken
  | None => Ok (with_check core)
  end.

End WithTables.

(** *** Vocabulary of the statements *)

Definition all_upper (s : text) : Prop := Forall (fun c => is_upper c = true) s.
Definition all_digits (s : text) : Prop := Forall (fun c => is_digit c = true) s.
Definition all_code_chars (s : text) : Prop := Forall (fun c => is_code_char c = true) s.

(** Reading decimal digits back. *)
Definition decimal_value (s : text) : Z :=
  fold_left (fun acc c => 10 * acc + (Z.of_nat (code_of c) - 48)) s 0.

(** The positional shape of a 15-character core as [compose] builds it. *)
Definition core_wf (core : text) : Prop :=
  match core with
  | [a1; a2; a3; b1; b2; b3; y1; y2; m; e1; e2; l; d1; d2; d3] =>
      all_upper [a1; a2; a3; b1; b2; b3; l]
      /\ is_month_letter m = true
      /\ all_digits [y1; y2; e1; e2; d1; d2; d3]
  | _ => False
  end.

(** The invariant of the place code table. *)
Definition table_wf (places : list PlaceCodeEntry) : Prop :=
  Forall (fun e => wf_place_code (code e) = true) places.

(** What the validator needs of a core. *)
Definition core_valid (core : text) : Prop :=
  length core = 15%nat /\ all_code_chars core
  /\ exists m, core !! 8%nat = Some m /\ is_month_letter m = true.

(** A character of the resolver's output against the candidate's: kept,
    or a digit replaced through the omocodia table. *)
Definition subst_rel (o c : ascii) : Prop :=
  c = o \/ (is_digit o = true /\ c = omocodia o).





(** All digits of a core replaced. *)
Definition fully_substituted (core : text) : text := map omocodia core.



Definition with_sex (s : sex) (p : PersonInput) : PersonInput :=
  {| last_name := last_name p; first_name := first_name p; person_sex := s;
     birth_date := birth_date p; birth_place := birth_place p;
     is_foreign_birth := is_foreign_birth p |}.

(** The invariant the spec states for a [PersonInput], with a birth place
    the table knows. *)
Definition valid_person_input (places : list PlaceCodeEntry) (p : PersonInput) : Prop :=
  last_name p <> [] /\ first_name p <> [] /\ birth_place p <> []
  /\ valid_gregorian (birth_date p) = true
  /\ exists e, lookup_place places (birth_place p) (is_foreign_birth p) = Ok e.

(** What the round trip promises of a code. *)
Definition round_trips (odd_value even_value : ascii -> nat) (c : text) : Prop :=
  length c = 16%nat /\ all_code_chars c
  /\ validate_fiscal_code odd_value even_value c = Ok tt.

(** *** Reference instances *)

(** The ODD table of the official specification. *)
Definition official_odd (c : ascii) : nat :=
  match c with
  | "0" | "A" => 1 | "1" | "B" => 0 | "2" | "C" => 5 | "3" | "D" => 7
  | "4" | "E" => 9 | "5" | "F" => 13 | "6" | "G" => 15 | "7" | "H" => 17
  | "8" | "I" => 19 | "9" | "J" => 21 | "K" => 2 | "L" => 4 | "M" => 18
  | "N" => 20 | "O" => 11 | "P" => 3 | "Q" => 6 | "R" => 8 | "S" => 12
  | "T" => 14 | "U" => 16 | "V" => 10 | "W" => 22 | "X" => 25 | "Y" => 24
  | "Z" => 23
  | _ => 0
  end%char%nat.

(** The EVEN table of the official specification. *)
Definition official_even (c : ascii) : nat :=
  if is_digit c then (code_of c - 48)%nat
  else if is_upper c then (code_of c - 65)%nat
  else 0%nat.

(** A two-row table for the examples. *)
Definition sample_places : list PlaceCodeEntry :=
  [ {| name := txt "ROMA"; code := txt "H501"; kind := Municipality |};
    {| name := txt "ALBANIA"; code := txt "Z100"; kind := ForeignCountry |} ].

Definition sample_today : date := Date 2025 1 1.

Definition rossi_mario : PersonInput :=
  {| last_name := txt "Rossi"; first_name := txt "Mario"; person_sex := Male;
     birth_date := Date 1980 1 15; birth_place := txt "Roma";
     is_foreign_birth := false |}.

(** A surname with no letter in it. *)
Definition no_letter_surname : PersonInput :=
  {| last_name := txt "1"; first_name := txt "Mario"; person_sex := Male;
     birth_date := Date 1980 1 15; birth_place := txt "Roma";
     is_foreign_birth := false |}.

(** A birth after [sample_today]. *)
Definition born_tomorrow : PersonInput :=
  {| last_name := txt "Rossi"; first_name := txt "Mario"; person_sex := Male;
     birth_date := Date 2025 1 2; birth_place := txt "Roma";
     is_foreign_birth := false |}.

(** A registry in which every code is taken. *)
Definition all_taken (c : text) : bool := true.


End Core.

(* ===================================================================== *)
(** ** The Flask application ([app.py], [models.py]) *)
(* ===================================================================== *)

Module App.
Import Calendar.

Local Open Scope string_scope.
Local Open Scope Z_scope.

#[local] Set Warnings "-register-all".

(** The view [export_data] builds spreadsheets and PDF files with pandas,
    xlsxwriter and weasyprint and is left out.  Of [import_data] the
    control flow is translated; what pandas does with the upload is taken
    as section variables. *)

(** *** Python values *)

(** A Python [str] is a [string] with one [ascii] for each character: the
    texts of this model are those whose characters are code points below
    256.  [String.length] is then [len], the count of characters that
    PostgreSQL measures a [VARCHAR(n)] by, and the decimal digits, which
    [\d] matches, are ["0"] to ["9"] only. *)

(** What [request.get_json()] returns: a Python object parsed from JSON. *)
Inductive json :=
| JNull
| JBool (b : bool)
| JInt (n : Z)
| JFloat (f : spec_float)
| JStr (s : string)
| JList (l : list json)
| JDict (m : gmap string json).

(** Python truth value: [None], [False], zero, and the empty string, list
    and dict are false. *)
Definition truthy (v : json) : bool :=
  match v with
  | JNull => false
  | JBool b => b
  | JInt n => negb (n =? 0)
  | JFloat (S754_zero _) => false
  | JFloat _ => true
  | JStr s => negb (String.eqb s "")
  | JList l => match l with [] => false | _ => true end
  | JDict m => negb (bool_decide (m = ∅))
  end.

(** The built-in [all]. *)
Definition all (vs : list json) : bool := forallb truthy vs.

(** Exceptions, by the place that raises them. *)
Inductive exn :=
| AttributeError (attr : string)        (* [data.get] on a value that is no dict *)
| TypeError (v : json)                  (* [strptime] argument 1 must be str *)
| ValueError_format (s : string)        (* time data does not match format *)
| ValueError_unconverted (rest : string)(* unconverted data remains *)
| ValueError_range (y m d : Z)          (* year or day out of range *)
| OverflowError                         (* date value out of range *)
| BadRequestKeyError (key : string)     (* [request.form[key]], key missing *)
| DataError (column : string)           (* the database rejects a value *)
| NotFound                              (* [get_or_404], no such row *)
| Raised (cls msg : string).            (* raised inside an absent module *)

(** The Python class of an exception. *)
Definition exn_class (e : exn) : string :=
  match e with
  | AttributeError _ => "AttributeError"
  | TypeError _ => "TypeError"
  | ValueError_format _ | ValueError_unconverted _ | ValueError_range _ _ _ => "ValueError"
  | OverflowError => "OverflowError"
  | BadRequestKeyError _ => "BadRequestKeyError"
  | DataError _ => "DataError"
  | NotFound => "NotFound"
  | Raised cls _ => cls
  end.

(** The typed error kinds of the fiscal-code core, as class names. *)
Definition kind_name (k : Core.error) : string :=
  match k with
  | Core.EmptyNameError => "EmptyNameError"
  | Core.UnknownPlaceError => "UnknownPlaceError"
  | Core.InvalidDateError => "InvalidDateError"
  | Core.InvalidFormatError => "InvalidFormatError"
  | Core.ChecksumMismatchError => "ChecksumMismatchError"
  | Core.CodeSpaceExhaustedError => "CodeSpaceExhaustedError"
  end.

Definition typed_kinds : list string :=
  map kind_name
    [Core.EmptyNameError; Core.UnknownPlaceError; Core.InvalidDateError;
     Core.InvalidFormatError; Core.ChecksumMismatchError;
     Core.CodeSpaceExhaustedError].

Definition is_typed_failure (e : exn) : Prop := exn_class e ∈ typed_kinds.

(** *** [datetime] *)

Definition MAXYEAR : Z := 9999.

(** The triples [datetime(y, m, d)] accepts. *)
Definition valid_datetime (d : date) : bool :=
  valid_gregorian d && (year d <=? MAXYEAR).

Definition days_before_year (y : Z) : Z :=
  let y := y - 1 in y * 365 + y / 4 - y / 100 + y / 400.

Definition DAYS_IN_MONTH : list Z :=
  [-1; 31; 28; 31; 30; 31; 30; 31; 31; 30; 31; 30; 31].

Definition DAYS_BEFORE_MONTH : list Z :=
  [-1; 0; 31; 59; 90; 120; 151; 181; 212; 243; 273; 304; 334].

Definition table_at (t : list Z) (m : Z) : Z := nth (Z.to_nat m) t 0.

Definition days_before_month (y m : Z) : Z :=
  table_at DAYS_BEFORE_MONTH m + (if (2 <? m) && is_leap y then 1 else 0).

(** [_ymd2ord]: the ordinal of a date, 0001-01-01 being day 1. *)
Definition ymd2ord (d : date) : Z :=
  days_before_year (year d) + days_before_month (year d) (month d) + day d.

Definition MAXORDINAL : Z := 3652059.

(** [_ord2ymd]. *)
Definition ord2ymd (n : Z) : date :=
  let n := n - 1 in
  let n400 := n / 146097 in
  let n := n mod 146097 in
  let y := n400 * 400 + 1 in
  let n100 := n / 36524 in
  let n := n mod 36524 in
  let n4 := n / 1461 in
  let n := n mod 1461 in
  let n1 := n / 365 in
  let n := n mod 365 in
  let y := y + n100 * 100 + n4 * 4 + n1 in
  if (n1 =? 4) || (n100 =? 4) then Date (y - 1) 12 31
  else
    let leapyear := (n1 =? 3) && (negb (n4 =? 24) || (n100 =? 3)) in
    let m := Z.shiftr (n + 50) 5 in
    let preceding :=
      table_at DAYS_BEFORE_MONTH m + (if (2 <? m) && leapyear then 1 else 0) in
    if n <? preceding then
      let m := m - 1 in
      let preceding :=
        preceding - (table_at DAYS_IN_MONTH m + (if (m =? 2) && leapyear then 1 else 0)) in
      Date y m (n - preceding + 1)
    else Date y m (n - preceding + 1).

(** [d + timedelta(days=k)]. *)
Definition add_days (d : date) (k : Z) : exn + date :=
  let o := ymd2ord d + k in
  if (1 <=? o) && (o <=? MAXORDINAL) then inr (ord2ymd o) else inl OverflowError.

(** The pattern of [%m]: [1[0-2]|0[1-9]|[1-9]], alternatives in order;
    each gives the value and the rest of the input. *)
Definition in_range (lo hi : nat) (c : ascii) : bool :=
  (lo <=? nat_of_ascii c)%nat && (nat_of_ascii c <=? hi)%nat.

Definition digit_value (c : ascii) : Z := Z.of_nat (nat_of_ascii c) - 48.

Definition match_month (s : list ascii) : list (Z * list ascii) :=
  match s with
  | c1 :: c2 :: r =>
      (if Ascii.eqb c1 "1" && in_range 48 50 c2 then [(10 + digit_value c2, r)] else [])
      ++ (if Ascii.eqb c1 "0" && in_range 49 57 c2 then [(digit_value c2, r)] else [])
      ++ (if in_range 49 57 c1 then [(digit_value c1, c2 :: r)] else [])
  | [c1] => if in_range 49 57 c1 then [(digit_value c1, [])] else []
  | [] => []
  end.

(** The pattern of [%d]: [3[0-1]|[1-2]\d|0[1-9]|[1-9]| [1-9]]. *)
Definition match_day (s : list ascii) : list (Z * list ascii) :=
  match s with
  | c1 :: c2 :: r =>
      (if Ascii.eqb c1 "3" && in_range 48 49 c2 then [(30 + digit_value c2, r)] else [])
      ++ (if in_range 49 50 c1 && in_range 48 57 c2
          then [(10 * digit_value c1 + digit_value c2, r)] else [])
      ++ (if Ascii.eqb c1 "0" && in_range 49 57 c2 then [(digit_value c2, r)] else [])
      ++ (if in_range 49 57 c1 then [(digit_value c1, c2 :: r)] else [])
      ++ (if Ascii.eqb c1 " " && in_range 49 57 c2 then [(digit_value c2, r)] else [])
  | [c1] => if in_range 49 57 c1 then [(digit_value c1, [])] else []
  | [] => []
  end.

(** The first way to match ["-" %d] after a month alternative. *)
Definition month_then_day (alt : Z * list ascii) : option (Z * Z * list ascii) :=
  match alt with
  | (m, c :: r) =>
      if Ascii.eqb c "-" then
        match match_day r with
        | (d, rest) :: _ => Some (m, d, rest)
        | [] => None
        end
      else None
  | (_, []) => None
  end.

(** The match of the whole pattern [\d\d\d\d-%m-%d] at the start of the
    input: year, month, day and what follows the match. *)
Definition match_ymd (s : list ascii) : option (Z * Z * Z * list ascii) :=
  match s with
  | y1 :: y2 :: y3 :: y4 :: dash :: r =>
      if forallb (in_range 48 57) [y1; y2; y3; y4] && Ascii.eqb dash "-" then
        match omap month_then_day (match_month r) with
        | (m, d, rest) :: _ =>
            Some (1000 * digit_value y1 + 100 * digit_value y2
                  + 10 * digit_value y3 + digit_value y4, m, d, rest)
        | [] => None
        end
      else None
  | _ => None
  end.

(** [datetime.strptime(s, '%Y-%m-%d')] on a string; the time of day of
    the result is midnight and is left out.  Among the characters of the
    model (code points below 256) the digits of [\d] are ["0"] to ["9"]. *)
Definition strptime_str (s : string) : exn + date :=
  match match_ymd (list_ascii_of_string s) with
  | None => inl (ValueError_format s)
  | Some (y, m, d, rest) =>
      match rest with
      | _ :: _ => inl (ValueError_unconverted (string_of_list_ascii rest))
      | [] =>
          if valid_datetime (Date y m d) then inr (Date y m d)
          else inl (ValueError_range y m d)
      end
  end.

(** [datetime.strptime(v, '%Y-%m-%d')] on any Python value. *)
Definition strptime (v : json) : exn + date :=
  match v with
  | JStr s => strptime_str s
  | _ => inl (TypeError v)
  end.

(** *** [models.py] *)

(** A row of [guests]; nullable columns are options. *)
Record Guest := {
  id : Z;
  last_name : string;
  first_name : string;
  gender : string;
  birth_place : string;
  province : option string;
  birth_date : date;
  fiscal_code : option string;
  country_code : option string;
  permit_number : option string;
  permit_date : option date;
  permit_expiry : option date;
  health_card : option string;
  health_card_expiry : option date;
  entry_date : option date;
  exit_date : option date;
  check_in_date : option date;
  check_out_date : option date;
  room_number : option string;
  floor : option string;
  family_relations : option string
}.

(** A row of [custom_fields]. *)
Record CustomField := {
  cf_id : Z;
  guest_id : Z;
  field_name : string;
  field_value : option string
}.

(** A row of [settings]. *)
Record Setting := {
  setting_id : Z;
  key : string;
  value : option string
}.

(** *** The world a view runs in *)

(** The database behind [SQLALCHEMY_DATABASE_URI]: PostgreSQL when
    [DATABASE_URL] is set, the SQLite file otherwise. *)
Inductive backend := PostgreSQL | SQLite.

Record database := {
  guests : list Guest;
  custom_fields : list CustomField;
  settings : list Setting
}.

(** The fields the five-argument call of [calculate_fiscal_code] passes. *)
Definition core_call : Type := json * json * json * date * json.

Record world := {
  engine : backend;
  committed : database;            (* what the last commit left *)
  txn : database;                  (* what the SQLAlchemy session sees *)
  guest_seq : Z;                   (* last value of the guests id sequence *)
  field_seq : Z;                   (* last value of the custom_fields id sequence *)
  session : gmap string json;      (* the Flask session *)
  flashes : list (string * string);(* flashed messages with their category *)
  now : date;                      (* the day [datetime.now()] falls on *)
  core_calls : list core_call      (* invocations of [calculate_fiscal_code] *)
}.

Definition set_txn (d : database) (w : world) : world :=
  {| engine := engine w; committed := committed w; txn := d;
     guest_seq := guest_seq w; field_seq := field_seq w; session := session w;
     flashes := flashes w; now := now w; core_calls := core_calls w |}.

Definition set_committed (d : database) (w : world) : world :=
  {| engine := engine w; committed := d; txn := txn w;
     guest_seq := guest_seq w; field_seq := field_seq w; session := session w;
     flashes := flashes w; now := now w; core_calls := core_calls w |}.

Definition set_seqs (g f : Z) (w : world) : world :=
  {| engine := engine w; committed := committed w; txn := txn w;
     guest_seq := g; field_seq := f; session := session w;
     flashes := flashes w; now := now w; core_calls := core_calls w |}.

Definition set_session (s : gmap string json) (w : world) : world :=
  {| engine := engine w; committed := committed w; txn := txn w;
     guest_seq := guest_seq w; field_seq := field_seq w; session := s;
     flashes := flashes w; now := now w; core_calls := core_calls w |}.

Definition set_flashes (f : list (string * string)) (w : world) : world :=
  {| engine := engine w; committed := committed w; txn := txn w;
     guest_seq := guest_seq w; field_seq := field_seq w; session := session w;
     flashes := f; now := now w; core_calls := core_calls w |}.

Definition set_core_calls (c : list core_call) (w : world) : world :=
  {| engine := engine w; committed := committed w; txn := txn w;
     guest_seq := guest_seq w; field_seq := field_seq w; session := session w;
     flashes := flashes w; now := now w; core_calls := c |}.

(** *** A state and exception monad for view code *)

Definition M (A : Type) : Type := world -> world * (exn + A).

Definition ret {A} (a : A) : M A := fun w => (w, inr a).

Definition raise {A} (e : exn) : M A := fun w => (w, inl e).

Definition bind {A B} (m : M A) (k : A -> M B) : M B :=
  fun w =>
    match m w with
    | (w', inr a) => k a w'
    | (w', inl e) => (w', inl e)
    end.

(** [try: body except Exception as e: handler e]. *)
Definition try_except {A} (body : M A) (handler : exn -> M A) : M A :=
  fun w =>
    match body w with
    | (w', inl e) => handler e w'
    | r => r
    end.

Definition lift {A} (r : exn + A) : M A := fun w => (w, r).

Definition gets {A} (f : world -> A) : M A := fun w => (w, inr (f w)).

Definition modify (f : world -> world) : M unit := fun w => (f w, inr tt).

Declare Scope view_scope.
Delimit Scope view_scope with view.
Notation "x <- m ;; k" := (bind m (fun x => k))
  (at level 100, m at next level, right associativity) : view_scope.
Notation "m ;;; k" := (bind m (fun _ => k))
  (at level 100, right associativity) : view_scope.

Local Open Scope view_scope.

(** *** Flask: requests, responses, flashing *)

Inductive http_method := GET | POST.

Record request := {
  method : http_method;
  form : list (string * string);   (* [request.form], in submission order *)
  get_json : json                  (* [request.get_json()] *)
}.

(** Values handed to a template. *)
Inductive ctx_val :=
| CInt (n : Z)
| CBool (b : bool)
| CForm (cls : string)
| CGuest (g : Guest)
| CGuests (l : list Guest)
| CFields (l : list CustomField).

Inductive response :=
| Render (template : string) (ctx : list (string * ctx_val))
| Redirect (endpoint : string) (values : list (string * Z))
| Json (body : gmap string json).

Definition flash (msg category : string) : M unit :=
  modify (fun w => set_flashes (flashes w ++ [(msg, category)]) w).

(** [request.form.get(k)]: the first value sent under [k]. *)
Fixpoint form_get (f : list (string * string)) (k : string) : option string :=
  match f with
  | [] => None
  | (k', v) :: f' => if String.eqb k' k then Some v else form_get f' k
  end.

(** [request.form[k]]. *)
Definition form_item (req : request) (k : string) : M string :=
  match form_get (form req) k with
  | Some v => ret v
  | None => raise (BadRequestKeyError k)
  end.

(** [request.form.items()]: each key once, with its first value. *)
Fixpoint items_from (seen : list string) (f : list (string * string))
  : list (string * string) :=
  match f with
  | [] => []
  | (k, v) :: f' =>
      if bool_decide (k ∈ seen) then items_from seen f'
      else (k, v) :: items_from (k :: seen) f'
  end.

Definition form_items (req : request) : list (string * string) :=
  items_from [] (form req).

Definition nonempty (s : string) : bool := negb (String.eqb s "").

(** [key.split("_")[-1]]. *)
Fixpoint last_segment_from (acc s : list ascii) : list ascii :=
  match s with
  | [] => acc
  | c :: r =>
      if Ascii.eqb c "_" then last_segment_from [] r
      else last_segment_from (acc ++ [c]) r
  end.

Definition last_segment (k : string) : string :=
  string_of_list_ascii (last_segment_from [] (list_ascii_of_string k)).

(** *** SQLAlchemy: the session over the database *)

(** A NUL character: the texts of PostgreSQL cannot hold one, and the
    driver refuses a parameter that has one before the statement is sent
    (the exception is written here as psycopg2 raises it); SQLite stores
    it. *)
Definition NUL : ascii := "000"%char.

Definition has_nul (s : string) : bool :=
  existsb (Ascii.eqb NUL) (list_ascii_of_string s).

Definition NulRefused : exn :=
  Raised "ValueError" "A string literal cannot contain NUL (0x00) characters.".

(** The violation of a primary key. *)
Definition IntegrityError (constraint : string) : exn :=
  Raised "IntegrityError" constraint.

Definition driver_refuses (b : backend) (texts : list string) : bool :=
  match b with
  | PostgreSQL => existsb has_nul texts
  | SQLite => false
  end.

Definition only_spaces (s : string) : bool :=
  forallb (Ascii.eqb " "%char) (list_ascii_of_string s).

(** A value goes into a [VARCHAR(n)] column of PostgreSQL when it has at
    most [n] characters, or when what follows the first [n] is spaces only:
    these are cut off silently. *)
Definition fits (n : nat) (s : string) : bool :=
  (String.length s <=? n)%nat
  || only_spaces (substring n (String.length s - n) s).

Definition too_long (n : nat) (s : option string) : bool :=
  match s with
  | Some s => negb (fits n s)
  | None => false
  end.

(** What a [String(n)] column keeps of a value it takes: PostgreSQL its
    first [n] characters, SQLite all of it. *)
Definition kept (b : backend) (n : nat) (v : string) : string :=
  match b with
  | PostgreSQL => substring 0 n v
  | SQLite => v
  end.

(** The column, if any, whose [String(n)] limit a guest row exceeds. *)
Definition guest_overflow (g : Guest) : option string :=
  if too_long 100 (Some (last_name g)) then Some "last_name"
  else if too_long 100 (Some (first_name g)) then Some "first_name"
  else if too_long 1 (Some (gender g)) then Some "gender"
  else if too_long 100 (Some (birth_place g)) then Some "birth_place"
  else if too_long 2 (province g) then Some "province"
  else if too_long 16 (fiscal_code g) then Some "fiscal_code"
  else if too_long 4 (country_code g) then Some "country_code"
  else if too_long 50 (permit_number g) then Some "permit_number"
  else if too_long 50 (health_card g) then Some "health_card"
  else if too_long 10 (room_number g) then Some "room_number"
  else if too_long 10 (floor g) then Some "floor"
  else None.

(** What the server raises at the flush of a guest row: PostgreSQL
    enforces the length of [VARCHAR(n)], SQLite does not. *)
Definition flush_guest_check (b : backend) (g : Guest) : option exn :=
  match b with
  | PostgreSQL => DataError <$> guest_overflow g
  | SQLite => None
  end.

Definition flush_field_check (b : backend) (c : CustomField) : option exn :=
  match b with
  | PostgreSQL =>
      if too_long 100 (Some (field_name c)) then Some (DataError "field_name") else None
  | SQLite => None
  end.

(** The text values of a guest row, as parameters of a statement. *)
Definition guest_texts (g : Guest) : list string :=
  [last_name g; first_name g; gender g; birth_place g]
  ++ omap (fun o : option string => o)
       [province g; fiscal_code g; country_code g; permit_number g; health_card g;
        room_number g; floor g; family_relations g].

(** The row as the engine stores it. *)
Definition stored_guest (b : backend) (g : Guest) : Guest :=
  {| id := id g; last_name := kept b 100 (last_name g);
     first_name := kept b 100 (first_name g);
     gender := kept b 1 (gender g); birth_place := kept b 100 (birth_place g);
     province := kept b 2 <$> province g;
     birth_date := birth_date g; fiscal_code := kept b 16 <$> fiscal_code g;
     country_code := kept b 4 <$> country_code g;
     permit_number := kept b 50 <$> permit_number g;
     permit_date := permit_date g; permit_expiry := permit_expiry g;
     health_card := kept b 50 <$> health_card g;
     health_card_expiry := health_card_expiry g;
     entry_date := entry_date g; exit_date := exit_date g;
     check_in_date := check_in_date g; check_out_date := check_out_date g;
     room_number := kept b 10 <$> room_number g; floor := kept b 10 <$> floor g;
     family_relations := family_relations g |}.

Definition with_id (i : Z) (g : Guest) : Guest :=
  {| id := i; last_name := last_name g; first_name := first_name g;
     gender := gender g; birth_place := birth_place g; province := province g;
     birth_date := birth_date g; fiscal_code := fiscal_code g;
     country_code := country_code g; permit_number := permit_number g;
     permit_date := permit_date g; permit_expiry := permit_expiry g;
     health_card := health_card g; health_card_expiry := health_card_expiry g;
     entry_date := entry_date g; exit_date := exit_date g;
     check_in_date := check_in_date g; check_out_date := check_out_date g;
     room_number := room_number g; floor := floor g;
     family_relations := family_relations g |}.

Definition max_id (ids : list Z) : Z := fold_right Z.max 0 ids.

(** The primary key of the next guest row: the sequence on PostgreSQL, one
    more than the largest rowid on SQLite. *)
Definition next_guest_id (w : world) : Z :=
  match engine w with
  | PostgreSQL => guest_seq w + 1
  | SQLite => max_id (map id (guests (txn w))) + 1
  end.

Definition next_field_id (w : world) : Z :=
  match engine w with
  | PostgreSQL => field_seq w + 1
  | SQLite => max_id (map cf_id (custom_fields (txn w))) + 1
  end.

(** [db.session.add(g)] and the flush that inserts the row; the result is
    the primary key the row received.  A value of the sequence that the
    server has drawn is not given back when the insert fails. *)
Definition db_add_guest (g : Guest) : M Z :=
  fun w =>
    if driver_refuses (engine w) (guest_texts g) then (w, inl NulRefused)
    else
      let i := next_guest_id w in
      let d := txn w in
      let w1 :=
        set_seqs (match engine w with PostgreSQL => i | SQLite => guest_seq w end)
          (field_seq w) w in
      match flush_guest_check (engine w) g with
      | Some e => (w1, inl e)
      | None =>
          if bool_decide (i ∈ map id (guests d)) then
            (w1, inl (IntegrityError "guests_pkey"))
          else
            (set_txn {| guests := guests d ++ [with_id i (stored_guest (engine w) g)];
                        custom_fields := custom_fields d;
                        settings := settings d |} w1,
             inr i)
      end.

(** [db.session.add(CustomField(...))] and the flush that inserts the
    row.  The rows are flushed together at the commit; a row that is
    refused leaves none of them stored, as the rollback of the views does
    here. *)
Definition db_add_field (gid : Z) (fname fvalue : string) : M unit :=
  fun w =>
    if driver_refuses (engine w) [fname; fvalue] then (w, inl NulRefused)
    else
      let i := next_field_id w in
      let c := {| cf_id := i; guest_id := gid;
                  field_name := kept (engine w) 100 fname;
                  field_value := Some fvalue |} in
      let d := txn w in
      let w1 :=
        set_seqs (guest_seq w)
          (match engine w with PostgreSQL => i | SQLite => field_seq w end) w in
      match flush_field_check (engine w)
              {| cf_id := i; guest_id := gid; field_name := fname;
                 field_value := Some fvalue |} with
      | Some e => (w1, inl e)
      | None =>
          if bool_decide (i ∈ map cf_id (custom_fields d)) then
            (w1, inl (IntegrityError "custom_fields_pkey"))
          else
            (set_txn {| guests := guests d;
                        custom_fields := custom_fields d ++ [c];
                        settings := settings d |} w1,
             inr tt)
      end.

(** [db.session.commit()].  The flush that comes first is part of the
    operation that left the row pending ([db_add_guest], [db_add_field],
    [db_update_guest], [db_set_password]): it is there that the engine
    refuses a row. *)
Definition db_commit : M unit := modify (fun w => set_committed (txn w) w).

(** [db.session.rollback()]. *)
Definition db_rollback : M unit := modify (fun w => set_txn (committed w) w).

Definition query_guests : M (list Guest) := gets (fun w => guests (txn w)).

(** [CustomField.query.filter_by(guest_id=gid).all()]. *)
Definition fields_of (gid : Z) : M (list CustomField) :=
  gets (fun w => filter (fun c => guest_id c = gid) (custom_fields (txn w))).

(** [Guest.query.get_or_404(gid)]. *)
Definition get_or_404 (gid : Z) : M Guest :=
  gs <- query_guests ;;
  match List.find (fun g => id g =? gid) gs with
  | Some g => ret g
  | None => raise NotFound
  end.

(** [CustomField.query.filter_by(guest_id=gid).delete()]. *)
Definition delete_fields_of (gid : Z) : M unit :=
  modify (fun w =>
    let d := txn w in
    set_txn {| guests := guests d;
               custom_fields := filter (fun c => guest_id c ≠ gid) (custom_fields d);
               settings := settings d |} w).

(** [db.session.delete(guest)]; the relationship cascades to the fields. *)
Definition db_delete_guest (g : Guest) : M unit :=
  modify (fun w =>
    let d := txn w in
    set_txn {| guests := filter (fun g' => id g' ≠ id g) (guests d);
               custom_fields := filter (fun c => guest_id c ≠ id g) (custom_fields d);
               settings := settings d |} w).

(** The flush of a modified guest row.  The [UPDATE] carries the columns
    whose value changed; a value that did not change is one the engine
    holds already, so the check is made on all of them. *)
Definition db_update_guest (g : Guest) : M unit :=
  fun w =>
    if driver_refuses (engine w) (guest_texts g) then (w, inl NulRefused)
    else
      match flush_guest_check (engine w) g with
      | Some e => (w, inl e)
      | None =>
          let d := txn w in
          (set_txn {| guests :=
                        map (fun g' => if id g' =? id g then stored_guest (engine w) g
                                       else g') (guests d);
                      custom_fields := custom_fields d;
                      settings := settings d |} w,
           inr tt)
      end.

(** The loop over [request.form.items()] that stores the custom fields. *)
Fixpoint add_custom_fields (req : request) (gid : Z) (items : list (string * string))
  : M unit :=
  match items with
  | [] => ret tt
  | (k, v) :: rest =>
      (if String.prefix "custom_field_" k then
         match form_get (form req) ("custom_field_name_" ++ last_segment k) with
         | Some fname =>
             if nonempty fname && nonempty v then db_add_field gid fname v
             else ret tt
         | None => ret tt
         end
       else ret tt) ;;;
      add_custom_fields req gid rest
  end.

(** [strptime(request.form[k], '%Y-%m-%d') if request.form[k] else None]. *)
Definition form_date_or_none (req : request) (k : string) : M (option date) :=
  c <- form_item req k ;;
  if nonempty c then
    v <- form_item req k ;; d <- lift (strptime_str v) ;; ret (Some d)
  else ret None.

(** The same with [request.form.get(k)] as the condition. *)
Definition form_date_if_sent (req : request) (k : string) : M (option date) :=
  match form_get (form req) k with
  | Some c =>
      if nonempty c then
        v <- form_item req k ;; d <- lift (strptime_str v) ;; ret (Some d)
      else ret None
  | None => ret None
  end.

Definition PERMIT_DAYS : Z := 180.

(** The keyword arguments of [Guest(...)] in [new_guest], evaluated in the
    order they are written. *)
Definition guest_of_form (req : request) : M Guest :=
  ln <- form_item req "last_name" ;;
  fn <- form_item req "first_name" ;;
  ge <- form_item req "gender" ;;
  bp <- form_item req "birth_place" ;;
  pr <- form_item req "province" ;;
  bds <- form_item req "birth_date" ;;
  bd <- lift (strptime_str bds) ;;
  pn <- form_item req "permit_number" ;;
  pd <- form_date_or_none req "permit_date" ;;
  pe <- (c <- form_item req "permit_date" ;;
         if nonempty c then
           v <- form_item req "permit_date" ;;
           d <- lift (strptime_str v) ;;
           e <- lift (add_days d PERMIT_DAYS) ;;
           ret (Some e)
         else ret None) ;;
  hc <- form_item req "health_card" ;;
  he <- form_date_or_none req "health_card_expiry" ;;
  en <- (c <- form_item req "entry_date" ;;
         if nonempty c then
           v <- form_item req "entry_date" ;; d <- lift (strptime_str v) ;; ret d
         else gets now) ;;
  ci <- form_date_if_sent req "check_in_date" ;;
  co <- form_date_if_sent req "check_out_date" ;;
  rn <- form_item req "room_number" ;;
  fl <- form_item req "floor" ;;
  fr <- form_item req "family_relations" ;;
  fc <- form_item req "fiscal_code" ;;
  cc <- form_item req "country_code" ;;
  ret {| id := 0; last_name := ln; first_name := fn; gender := ge;
         birth_place := bp; province := Some pr; birth_date := bd;
         fiscal_code := Some fc; country_code := Some cc;
         permit_number := Some pn; permit_date := pd; permit_expiry := pe;
         health_card := Some hc; health_card_expiry := he;
         entry_date := Some en; exit_date := None;
         check_in_date := ci; check_out_date := co;
         room_number := Some rn; floor := Some fl;
         family_relations := Some fr |}.

(** The assignments of [edit_guest], in order; a field whose form value is
    empty keeps what the row had. *)
Definition guest_edited (req : request) (g : Guest) : M Guest :=
  ln <- form_item req "last_name" ;;
  fn <- form_item req "first_name" ;;
  ge <- form_item req "gender" ;;
  bp <- form_item req "birth_place" ;;
  pr <- form_item req "province" ;;
  bds <- form_item req "birth_date" ;;
  bd <- lift (strptime_str bds) ;;
  pn <- form_item req "permit_number" ;;
  pdc <- form_item req "permit_date" ;;
  pde <- (if nonempty pdc then
            v <- form_item req "permit_date" ;;
            d <- lift (strptime_str v) ;;
            e <- lift (add_days d PERMIT_DAYS) ;;
            ret (Some d, Some e)
          else ret (permit_date g, permit_expiry g)) ;;
  hc <- form_item req "health_card" ;;
  he <- (o <- form_date_or_none req "health_card_expiry" ;;
         ret (match o with Some d => Some d | None => health_card_expiry g end)) ;;
  en <- (o <- form_date_or_none req "entry_date" ;;
         ret (match o with Some d => Some d | None => entry_date g end)) ;;
  ci <- (o <- form_date_if_sent req "check_in_date" ;;
         ret (match o with Some d => Some d | None => check_in_date g end)) ;;
  co <- (o <- form_date_if_sent req "check_out_date" ;;
         ret (match o with Some d => Some d | None => check_out_date g end)) ;;
  rn <- form_item req "room_number" ;;
  fl <- form_item req "floor" ;;
  fr <- form_item req "family_relations" ;;
  fc <- form_item req "fiscal_code" ;;
  cc <- form_item req "country_code" ;;
  ret {| id := id g; last_name := ln; first_name := fn; gender := ge;
         birth_place := bp; province := Some pr; birth_date := bd;
         fiscal_code := Some fc; country_code := Some cc;
         permit_number := Some pn; permit_date := fst pde; permit_expiry := snd pde;
         health_card := Some hc; health_card_expiry := he;
         entry_date := en; exit_date := exit_date g;
         check_in_date := ci; check_out_date := co;
         room_number := Some rn; floor := Some fl;
         family_relations := Some fr |}.

(** [order_by(Guest.entry_date.desc())]: a missing date sorts first on
    PostgreSQL and last on SQLite.  The order among rows with equal dates
    is the engine's choice; here they keep the order of the table, and no
    statement is about it. *)
Definition entered_before (b : backend) (x y : Guest) : bool :=
  match entry_date x, entry_date y with
  | Some dx, Some dy => date_ltb dx dy
  | None, Some _ => match b with PostgreSQL => false | SQLite => true end
  | Some _, None => match b with PostgreSQL => true | SQLite => false end
  | None, None => false
  end.

Fixpoint insert_desc (b : backend) (g : Guest) (l : list Guest) : list Guest :=
  match l with
  | [] => [g]
  | h :: t => if entered_before b g h then h :: insert_desc b g t else g :: l
  end.

Definition order_by_entry_desc (b : backend) (l : list Guest) : list Guest :=
  fold_right (insert_desc b) [] l.

Section Views.

(** [fiscal_code.calculate_fiscal_code], absent from the sources: called
    with five arguments, it returns a value or raises. *)
Variable calculate_fiscal_code : json -> json -> json -> date -> json -> exn + json.

(** [utils.check_expiring_permits], absent from the sources. *)
Variable check_expiring_permits : database -> date -> list Guest.

(** The built-in [str] on an exception: its message. *)
Variable str : exn -> string.

(** The decorator [login_required]. *)
Definition login_required {A} (f : A -> M response) : A -> M response :=
  fun args =>
    s <- gets session ;;
    if bool_decide ("logged_in" ∉ dom s) then
      flash "Accesso richiesto" "danger" ;;;
      ret (Redirect "login" [])
    else f args.

Definition login (req : request) : M response :=
  r <- (match method req with
   | POST =>
       let password := form_get (form req) "password" in
       d <- gets txn ;;
       let stored_password :=
         match List.find (fun st => String.eqb (key st) "password") (settings d) with
         | Some st => value st
         | None => Some "ancoracas25"
         end in
       if bool_decide (password = stored_password) then
         modify (fun w => set_session (<["logged_in" := JBool true]> (session w)) w) ;;;
         flash "Accesso effettuato con successo" "success" ;;;
         ret (Some (Redirect "dashboard" []))
       else
         flash "Password non corretta" "danger" ;;; ret None
   | GET => ret None
   end) ;;
  match r with
  | Some resp => ret resp
  | None => ret (Render "login.html" [])
  end.

Definition logout (req : request) : M response :=
  modify (fun w => set_session (delete "logged_in" (session w)) w) ;;;
  flash "Disconnessione effettuata" "success" ;;;
  ret (Redirect "login" []).

Definition index (req : request) : M response :=
  s <- gets session ;;
  if bool_decide ("logged_in" ∈ dom s) then ret (Redirect "dashboard" [])
  else ret (Redirect "login" []).

Definition dashboard_view (req : request) : M response :=
  gs <- query_guests ;;
  let total_guests := Z.of_nat (length gs) in
  expiring_permits <- gets (fun w => check_expiring_permits (txn w) (now w)) ;;
  b <- gets engine ;;
  let latest_guests := take 5 (order_by_entry_desc b gs) in
  ret (Render "dashboard.html"
         [("total_guests", CInt total_guests);
          ("expiring_permits", CInt (Z.of_nat (length expiring_permits)));
          ("latest_guests", CGuests latest_guests);
          ("expiring_list", CGuests expiring_permits)]).

Definition dashboard := login_required dashboard_view.

Definition new_guest_view (req : request) : M response :=
  let form := CForm "GuestForm" in
  all_guests <- query_guests ;;
  r <- (match method req with
   | POST =>
       try_except
         (g <- guest_of_form req ;;
          gid <- db_add_guest g ;;
          db_commit ;;;
          add_custom_fields req gid (form_items req) ;;;
          db_commit ;;;
          flash "Ospite aggiunto con successo" "success" ;;;
          ret (Some (Redirect "archive" [])))
         (fun e =>
            db_rollback ;;;
            flash ("Errore durante il salvataggio: " ++ str e) "danger" ;;;
            ret None)
   | GET => ret None
   end) ;;
  match r with
  | Some resp => ret resp
  | None =>
      ret (Render "new_guest.html" [("form", form); ("all_guests", CGuests all_guests)])
  end.

Definition new_guest := login_required new_guest_view.

Definition archive_view (req : request) : M response :=
  gs <- query_guests ;;
  ret (Render "archive.html" [("guests", CGuests gs)]).

Definition archive := login_required archive_view.

Definition guest_detail_view (a : request * Z) : M response :=
  let '(req, gid) := a in
  guest <- get_or_404 gid ;;
  custom_fields <- fields_of gid ;;
  ret (Render "guest_detail.html"
         [("guest", CGuest guest); ("custom_fields", CFields custom_fields)]).

Definition guest_detail := login_required guest_detail_view.

Definition edit_guest_view (a : request * Z) : M response :=
  let '(req, gid) := a in
  guest <- get_or_404 gid ;;
  custom_fields <- fields_of gid ;;
  all_guests <- query_guests ;;
  r <- (match method req with
   | POST =>
       try_except
         (g <- guest_edited req guest ;;
          db_update_guest g ;;;
          delete_fields_of gid ;;;
          add_custom_fields req (id g) (form_items req) ;;;
          db_commit ;;;
          flash "Ospite aggiornato con successo" "success" ;;;
          ret (Some (Redirect "guest_detail" [("guest_id", gid)])))
         (fun e =>
            db_rollback ;;;
            flash ("Errore durante l'aggiornamento: " ++ str e) "danger" ;;;
            ret None)
   | GET => ret None
   end) ;;
  match r with
  | Some resp => ret resp
  | None =>
      ret (Render "new_guest.html"
             [("guest", CGuest guest); ("custom_fields", CFields custom_fields);
              ("edit_mode", CBool true); ("all_guests", CGuests all_guests)])
  end.

Definition edit_guest := login_required edit_guest_view.

Definition delete_guest_view (a : request * Z) : M response :=
  let '(req, gid) := a in
  guest <- get_or_404 gid ;;
  try_except
    (delete_fields_of gid ;;;
     db_delete_guest guest ;;;
     db_commit ;;;
     flash "Ospite eliminato con successo" "success")
    (fun e =>
       db_rollback ;;;
       flash ("Errore durante l'eliminazione: " ++ str e) "danger") ;;;
  ret (Redirect "archive" []).

Definition delete_guest := login_required delete_guest_view.

(** [data.get(k, '')]; [data] need not be a dict. *)
Definition dict_get (data : json) (k : string) : M json :=
  match data with
  | JDict m => ret (default (JStr "") (m !! k))
  | _ => raise (AttributeError "get")
  end.

(** The call of the absent [calculate_fiscal_code], recorded in the world. *)
Definition call_core (ln fn ge : json) (bd : date) (bp : json) : M json :=
  modify (fun w => set_core_calls (core_calls w ++ [(ln, fn, ge, bd, bp)]) w) ;;;
  lift (calculate_fiscal_code ln fn ge bd bp).

Definition missing_data : string := "Dati mancanti per il calcolo del codice fiscale".

(** The body of the [try] of [calc_fiscal_code]. *)
Definition calc_try (last_name first_name gender birth_date birth_place : json)
  : M response :=
  birth_date <- lift (strptime birth_date) ;;
  fiscal_code <- call_core last_name first_name gender birth_date birth_place ;;
  ret (Json {[ "fiscal_code" := fiscal_code ]}).

(** The view of [/calculate_fiscal_code]; no decorator but the route. *)
Definition calc_fiscal_code (req : request) : M response :=
  let data := get_json req in
  last_name <- dict_get data "last_name" ;;
  first_name <- dict_get data "first_name" ;;
  gender <- dict_get data "gender" ;;
  birth_date <- dict_get data "birth_date" ;;
  birth_place <- dict_get data "birth_place" ;;
  if negb (all [last_name; first_name; gender; birth_date; birth_place]) then
    ret (Json {[ "error" := JStr missing_data ]})
  else
    try_except
      (calc_try last_name first_name gender birth_date birth_place)
      (fun e => ret (Json {[ "error" := JStr (str e) ]})).

End Views.

(** *** Vocabulary of the statements *)

(** The five fields [calc_fiscal_code] reads. *)
Definition required_fields : list string :=
  ["last_name"; "first_name"; "gender"; "birth_date"; "birth_place"].

(** A field of a JSON object that is absent, or present with a false
    truth value (the empty string, [null], zero, an empty list or dict). *)
Definition absent_or_empty (m : gmap string json) (k : string) : Prop :=
  m !! k = None \/ exists v, m !! k = Some v /\ truthy v = false.

Definition field (m : gmap string json) (k : string) : json :=
  default (JStr "") (m !! k).

(** A JSON body in which one of the five fields is absent or empty: an
    object that lacks one, or a value that is no object and so has none. *)
Definition incomplete (data : json) : Prop :=
  match data with
  | JDict m => exists k, k ∈ required_fields /\ absent_or_empty m k
  | _ => True
  end.

Definition json_request (data : json) : request :=
  {| method := POST; form := []; get_json := data |}.

Definition record_call (c : core_call) (w : world) : world :=
  set_core_calls (core_calls w ++ [c]) w.

(** What [login_required] answers to a client that is not logged in. *)
Definition denied (w : world) : world * (exn + response) :=
  (set_flashes (flashes w ++ [("Accesso richiesto", "danger")]) w,
   inr (Redirect "login" [])).

(** The fiscal code kept in a row, checked by the validator of the core. *)
Definition stored_code_valid (odd_value even_value : ascii -> nat) (g : Guest) : Prop :=
  exists fc, fiscal_code g = Some fc
    /\ Core.validate_fiscal_code odd_value even_value (Core.txt fc) = Core.Ok tt.

(** A computation that leaves the world as it found it. *)
Definition reads_only {A} (m : M A) : Prop := forall w, fst (m w) = w.

(** *** Sample data *)

Definition empty_db : database :=
  {| guests := []; custom_fields := []; settings := [] |}.

Definition fresh_world (b : backend) : world :=
  {| engine := b; committed := empty_db; txn := empty_db;
     guest_seq := 0; field_seq := 0; session := ∅; flashes := [];
     now := Date 2025 1 1; core_calls := [] |}.

Definition logged_in_world (b : backend) : world :=
  set_session {[ "logged_in" := JBool true ]} (fresh_world b).

(** A stand-in for the absent core: it answers with one fixed code. *)
Definition sample_core (ln fn ge : json) (bd : date) (bp : json) : exn + json :=
  inr (JStr "RSSMRA80A15H501I").

Definition sample_str (e : exn) : string := exn_class e.

Definition complete_fields : gmap string json :=
  <["last_name" := JStr "Rossi"]> (<["first_name" := JStr "Mario"]>
  (<["gender" := JStr "M"]> (<["birth_date" := JStr "1980-01-15"]>
  (<["birth_place" := JStr "Roma"]> ∅)))).

(** The same request with the date written day first. *)
Definition day_first_fields : gmap string json :=
  <["birth_date" := JStr "15/01/1980"]> complete_fields.

(** The form of a new guest whose fiscal code field holds ["abc"]. *)
Definition sample_form : list (string * string) :=
  [("last_name", "Rossi"); ("first_name", "Mario"); ("gender", "M");
   ("birth_place", "Roma"); ("province", "RM"); ("birth_date", "1980-01-15");
   ("permit_number", "P1"); ("permit_date", "2024-12-31"); ("health_card", "");
   ("health_card_expiry", ""); ("entry_date", ""); ("room_number", "1");
   ("floor", "2"); ("family_relations", ""); ("fiscal_code", "abc");
   ("country_code", "")].

Definition sample_post : request :=
  {| method := POST; form := sample_form; get_json := JNull |}.

(** The row [new_guest] stores for [sample_post] in an empty table. *)
Definition sample_guest : Guest :=
  {| id := 1; last_name := "Rossi"; first_name := "Mario"; gender := "M";
     birth_place := "Roma"; province := Some "RM"; birth_date := Date 1980 1 15;
     fiscal_code := Some "abc"; country_code := Some "";
     permit_number := Some "P1"; permit_date := Some (Date 2024 12 31);
     permit_expiry := Some (Date 2025 6 29); health_card := Some "";
     health_card_expiry := None; entry_date := Some (Date 2025 1 1);
     exit_date := None; check_in_date := None; check_out_date := None;
     room_number := Some "1"; floor := Some "2"; family_relations := Some "" |}.

(** *** The remaining views and helpers of [app.py] *)

(** The first row of [settings] under the key ['password'], as
    [Setting.query.filter_by(key='password').first()] finds it. *)
Definition password_row (d : database) : option Setting :=
  List.find (fun st => String.eqb (key st) "password") (settings d).

Definition DEFAULT_PASSWORD : string := "ancoracas25".

(** The password [login] compares with. *)
Definition stored_password (d : database) : option string :=
  match password_row d with
  | Some st => value st
  | None => Some DEFAULT_PASSWORD
  end.

Definition with_settings (l : list Setting) (d : database) : database :=
  {| guests := guests d; custom_fields := custom_fields d; settings := l |}.

(** [db.session.add(Setting(key='password', value='ancoracas25'))].  The
    key the row receives is the engine's choice, here one more than the
    largest in the table; no statement is about it.  The row is written
    with the value [db_set_password] gives it, at the flush there. *)
Definition db_add_default_password : M unit :=
  modify (fun w =>
    let d := txn w in
    let row := {| setting_id := max_id (map setting_id (settings d)) + 1;
                  key := "password"; value := Some DEFAULT_PASSWORD |} in
    set_txn (with_settings (settings d ++ [row]) d) w).

(** [password_setting.value = v] on the row [first()] returned, and the
    flush that writes it. *)
Fixpoint set_first_password (v : string) (l : list Setting) : list Setting :=
  match l with
  | [] => []
  | st :: l' =>
      if String.eqb (key st) "password"
      then {| setting_id := setting_id st; key := key st; value := Some v |} :: l'
      else st :: set_first_password v l'
  end.

Definition db_set_password (v : string) : M unit :=
  fun w =>
    if driver_refuses (engine w) [v] then (w, inl NulRefused)
    else
      (set_txn (with_settings (set_first_password v (settings (txn w))) (txn w)) w,
       inr tt).

(** The block run when the module is loaded (and once more at its end):
    the default password row is created when there is none. *)
Definition create_default_password : M unit :=
  d <- gets txn ;;
  match password_row d with
  | Some _ => ret tt
  | None => db_add_default_password ;;; db_commit
  end.

(** The truth value of [request.form.get(k)]. *)
Definition sent (v : option string) : bool :=
  match v with
  | Some s => nonempty s
  | None => false
  end.

Section Settings.

Variable str : exn -> string.

Definition settings_view (req : request) : M response :=
  let form := CForm "SettingsForm" in
  r <- (match method req with
        | POST =>
            try_except
              (let new_password := form_get (App.form req) "new_password" in
               let confirm_password := form_get (App.form req) "confirm_password" in
               match new_password with
               | Some np =>
                   if sent new_password then
                     if bool_decide (new_password <> confirm_password) then
                       flash "Le password non corrispondono" "danger" ;;;
                       ret (Some (Redirect "settings" []))
                     else
                       d <- gets txn ;;
                       (match password_row d with
                        | Some _ => ret tt
                        | None => db_add_default_password
                        end) ;;;
                       db_set_password np ;;;
                       db_commit ;;;
                       flash "Password aggiornata con successo" "success" ;;;
                       ret (Some (Redirect "settings" []))
                   else ret (Some (Redirect "settings" []))
               | None => ret (Some (Redirect "settings" []))
               end)
              (fun e =>
                 db_rollback ;;;
                 flash ("Errore durante il salvataggio delle impostazioni: " ++ str e)
                   "danger" ;;;
                 ret None)
        | GET => ret None
        end) ;;
  match r with
  | Some resp => ret resp
  | None => ret (Render "settings.html" [("form", form)])
  end.

(** The view [settings]; the name is taken by the table of the database. *)
Definition settings_route := login_required settings_view.

End Settings.

(** [calculate_age] of the context processor: the comparison of the
    [(month, day)] pairs is lexicographic and counts as 1 when true. *)
Definition month_day_lt (a b : date) : bool :=
  (month a <? month b) || ((month a =? month b) && (day a <? day b)).

Definition calculate_age (birth_date : option date) : M (option Z) :=
  match birth_date with
  | Some b =>
      today <- gets now ;;
      ret (Some (year today - year b - (if month_day_lt today b then 1 else 0)))
  | None => ret None
  end.

(** *** Vocabulary of the further statements *)

Definition logged_in (w : world) : Prop := "logged_in" ∈ dom (session w).

(** What a guarded view does for the client of [w]: its own body. *)
Definition admits (w : world) : Prop :=
  forall (A : Type) (f : A -> M response) (a : A), login_required f a w = f a w.

(** What a guarded view does for the client of [w]: the redirect to
    [login]. *)
Definition refuses (w : world) : Prop :=
  forall (A : Type) (f : A -> M response) (a : A), login_required f a w = denied w.

Definition login_request (password : option string) : request :=
  {| method := POST;
     form := match password with Some p => [("password", p)] | None => [] end;
     get_json := JNull |}.

Definition get_request : request :=
  {| method := GET; form := []; get_json := JNull |}.

Definition password_form (new_password confirm_password : string) : request :=
  {| method := POST;
     form := [("new_password", new_password); ("confirm_password", confirm_password)];
     get_json := JNull |}.

(** The keys [new_guest] and [edit_guest] read with [request.form[...]]. *)
Definition required_form_keys : list string :=
  ["last_name"; "first_name"; "gender"; "birth_place"; "province"; "birth_date";
   "permit_number"; "permit_date"; "health_card"; "health_card_expiry";
   "entry_date"; "room_number"; "floor"; "family_relations"; "fiscal_code";
   "country_code"].

(** A date column against the form value it came from: empty gives no
    date, anything else is parsed. *)
Definition parsed_or_none (c : string) (o : option date) : Prop :=
  if nonempty c then exists d, strptime_str c = inr d /\ o = Some d else o = None.

(** The permit expires [PERMIT_DAYS] days after its date, or the row has
    neither. *)
Definition permit_dates_agree (g : Guest) : Prop :=
  match permit_date g, permit_expiry g with
  | Some d, Some e => add_days d PERMIT_DAYS = inr e
  | None, None => True
  | _, _ => False
  end.

(** The text columns of a row hold the form's values as sent. *)
Definition text_as_sent (req : request) (g : Guest) : Prop :=
  form_get (form req) "last_name" = Some (last_name g)
  /\ form_get (form req) "first_name" = Some (first_name g)
  /\ form_get (form req) "gender" = Some (gender g)
  /\ form_get (form req) "birth_place" = Some (birth_place g)
  /\ form_get (form req) "province" = province g
  /\ form_get (form req) "permit_number" = permit_number g
  /\ form_get (form req) "health_card" = health_card g
  /\ form_get (form req) "room_number" = room_number g
  /\ form_get (form req) "floor" = floor g
  /\ form_get (form req) "family_relations" = family_relations g
  /\ form_get (form req) "fiscal_code" = fiscal_code g
  /\ form_get (form req) "country_code" = country_code g.

(** The text columns of a row hold the form's values as the engine [b]
    keeps them: each [String(n)] column by [kept b n], the [Text] column
    [family_relations] as sent. *)
Definition text_as_kept (b : backend) (req : request) (g : Guest) : Prop :=
  kept b 100 <$> form_get (form req) "last_name" = Some (last_name g)
  /\ kept b 100 <$> form_get (form req) "first_name" = Some (first_name g)
  /\ kept b 1 <$> form_get (form req) "gender" = Some (gender g)
  /\ kept b 100 <$> form_get (form req) "birth_place" = Some (birth_place g)
  /\ kept b 2 <$> form_get (form req) "province" = province g
  /\ kept b 50 <$> form_get (form req) "permit_number" = permit_number g
  /\ kept b 50 <$> form_get (form req) "health_card" = health_card g
  /\ kept b 10 <$> form_get (form req) "room_number" = room_number g
  /\ kept b 10 <$> form_get (form req) "floor" = floor g
  /\ form_get (form req) "family_relations" = family_relations g
  /\ kept b 16 <$> form_get (form req) "fiscal_code" = fiscal_code g
  /\ kept b 4 <$> form_get (form req) "country_code" = country_code g.

(** The page [new_guest] shows again after a failure. *)
Definition new_guest_page (all_guests : list Guest) : response :=
  Render "new_guest.html"
    [("form", CForm "GuestForm"); ("all_guests", CGuests all_guests)].

(** The world after [new_guest] caught [e]: rolled back, with the error
    flashed. *)
Definition save_failed (str : exn -> string) (e : exn) (w : world) : world :=
  set_flashes (flashes w ++ [("Errore durante il salvataggio: " ++ str e, "danger")])
    (set_txn (committed w) w).

Definition save_succeeded (w : world) : world :=
  set_flashes (flashes w ++ [("Ospite aggiunto con successo", "success")])
    (set_committed (txn w) w).

(** The name and value of the custom field a form entry gives rise to, if
    any, as the loop of [new_guest] and [edit_guest] decides it. *)
Definition custom_entry (req : request) (kv : string * string)
  : option (string * string) :=
  let '(k, v) := kv in
  if String.prefix "custom_field_" k then
    match form_get (form req) ("custom_field_name_" ++ last_segment k) with
    | Some fname => if nonempty fname && nonempty v then Some (fname, v) else None
    | None => None
    end
  else None.

Definition custom_entries (req : request) : list (string * string) :=
  omap (custom_entry req) (form_items req).

(** A custom field without its primary key. *)
Definition field_content (c : CustomField) : Z * string * option string :=
  (guest_id c, field_name c, field_value c).

Definition owned_entry (gid : Z) (e : string * string) : Z * string * option string :=
  (gid, fst e, Some (snd e)).

(** The same with the name as the engine [b] keeps it in the [String(100)]
    column [field_name]; the value goes into a [Text] column. *)
Definition kept_entry (b : backend) (gid : Z) (e : string * string)
  : Z * string * option string :=
  (gid, kept b 100 (fst e), Some (snd e)).

Definition underscore_free (s : string) : Prop :=
  "_"%char ∉ list_ascii_of_string s.

(** The worlds and the page of [edit_guest]. *)
Definition edit_failed (str : exn -> string) (e : exn) (w : world) : world :=
  set_flashes (flashes w ++ [("Errore durante l'aggiornamento: " ++ str e, "danger")])
    (set_txn (committed w) w).

Definition edit_succeeded (w : world) : world :=
  set_flashes (flashes w ++ [("Ospite aggiornato con successo", "success")])
    (set_committed (txn w) w).

Definition edit_page (guest : Guest) (fields : list CustomField) (all_guests : list Guest)
  : response :=
  Render "new_guest.html"
    [("guest", CGuest guest); ("custom_fields", CFields fields);
     ("edit_mode", CBool true); ("all_guests", CGuests all_guests)].

(** The row [Guest.query.get(gid)] finds. *)
Definition guest_by_id (gid : Z) (d : database) : option Guest :=
  List.find (fun g => id g =? gid) (guests d).

Definition fields_by_guest (gid : Z) (d : database) : list CustomField :=
  filter (fun c => guest_id c = gid) (custom_fields d).

Definition fields_of_others (gid : Z) (d : database) : list CustomField :=
  filter (fun c => guest_id c <> gid) (custom_fields d).

(** A date column after [edit_guest]: an empty form value keeps the date
    the row had. *)
Definition parsed_or_kept (c : string) (old new : option date) : Prop :=
  if nonempty c then exists d, strptime_str c = inr d /\ new = Some d else new = old.

(** The page of [guest_detail]. *)
Definition detail_page (guest : Guest) (fields : list CustomField) : response :=
  Render "guest_detail.html"
    [("guest", CGuest guest); ("custom_fields", CFields fields)].

(** The primary keys of [guests] are distinct and, on PostgreSQL, none is
    ahead of the sequence that hands them out. *)
Definition keys_unique (w : world) (d : database) : Prop :=
  NoDup (map id (guests d))
  /\ (engine w = PostgreSQL -> Forall (fun g => id g <= guest_seq w) (guests d)).

(** The foreign key of [custom_fields]: every field belongs to a row of
    [guests]. *)
Definition fields_owned (d : database) : Prop :=
  Forall (fun c => guest_id c ∈ map id (guests d)) (custom_fields d).

(** Both constraints, on what the SQLAlchemy session sees and on what is
    committed. *)
Definition consistent (w : world) : Prop :=
  keys_unique w (txn w) /\ fields_owned (txn w)
  /\ keys_unique w (committed w) /\ fields_owned (committed w).

(** [x] does not come after [y] in [order_by(Guest.entry_date.desc())]. *)
Definition not_after (b : backend) (x y : Guest) : Prop :=
  entered_before b x y = false.

(** The date of the birthday that falls in year [y]; of the calendar only
    when it is not 29 February of a common year. *)
Definition birthday (b : date) (y : Z) : date := Date y (month b) (day b).

(** [a] is [b] or an earlier day. *)
Definition date_le (a b : date) : Prop := date_ltb b a = false.

(** *** The calendar of [datetime], checked *)

(** The end of [_ord2ymd]: month and day of the [n]-th day of a year,
    counted from 0. *)
Definition month_day (n : Z) (leapyear : bool) : Z * Z :=
  let m := Z.shiftr (n + 50) 5 in
  let preceding :=
    table_at DAYS_BEFORE_MONTH m + (if (2 <? m) && leapyear then 1 else 0) in
  if n <? preceding then
    let m := m - 1 in
    let preceding :=
      preceding - (table_at DAYS_IN_MONTH m + (if (m =? 2) && leapyear then 1 else 0)) in
    (m, n - preceding + 1)
  else (m, n - preceding + 1).

(** [month_day] gives a day of a month of the year, the [n]-th. *)
Definition month_day_ok (leapyear : bool) (n : Z) : bool :=
  let '(m, dd) := month_day n leapyear in
  (1 <=? m) && (m <=? 12) && (1 <=? dd)
  && (dd <=? table_at DAYS_IN_MONTH m + (if (m =? 2) && leapyear then 1 else 0))
  && (table_at DAYS_BEFORE_MONTH m + (if (2 <? m) && leapyear then 1 else 0) + dd
      =? n + 1).

(** [f] holds of the [n] integers from [o] on. *)
Fixpoint all_from (f : Z -> bool) (n : nat) (o : Z) : bool :=
  match n with
  | O => true
  | S n' => f o && all_from f n' (o + 1)
  end.

(** A nullable date column holds a date of the calendar, if any. *)
Definition date_or_null (o : option date) : Prop :=
  match o with
  | Some d => valid_datetime d = true
  | None => True
  end.

(** Every date of a row is a date of the calendar. *)
Definition dates_valid (g : Guest) : Prop :=
  valid_datetime (birth_date g) = true
  /\ date_or_null (permit_date g) /\ date_or_null (permit_expiry g)
  /\ date_or_null (health_card_expiry g) /\ date_or_null (entry_date g)
  /\ date_or_null (exit_date g) /\ date_or_null (check_in_date g)
  /\ date_or_null (check_out_date g).

(** *** When a form can be saved *)

(** A form value for a date: empty, or one that [strptime] takes. *)
Definition date_or_empty (c : string) : Prop :=
  nonempty c = true -> exists d, strptime_str c = inr d.

(** The form has the sixteen keys, a birth date that parses, a permit
    date that is empty or parses and leaves room for 180 days, and other
    dates that are empty (or, for check-in and check-out, absent) or
    parse. *)
Definition form_complete (req : request) : Prop :=
  (forall k, k ∈ required_form_keys -> is_Some (form_get (form req) k))
  /\ (forall s, form_get (form req) "birth_date" = Some s ->
        exists d, strptime_str s = inr d)
  /\ (forall c, form_get (form req) "permit_date" = Some c -> nonempty c = true ->
        exists d e, strptime_str c = inr d /\ add_days d PERMIT_DAYS = inr e)
  /\ (forall k c,
        k ∈ ["health_card_expiry"; "entry_date"; "check_in_date"; "check_out_date"] ->
        form_get (form req) k = Some c -> date_or_empty c).

(** The [String(n)] columns of [guests] that the form fills. *)
Definition column_limits : list (string * nat) :=
  [("last_name", 100); ("first_name", 100); ("gender", 1); ("birth_place", 100);
   ("province", 2); ("fiscal_code", 16); ("country_code", 4); ("permit_number", 50);
   ("health_card", 50); ("room_number", 10); ("floor", 10)]%nat.

(** The engine [b] takes the value [v] for a [String(n)] column: SQLite
    every text, PostgreSQL one without a NUL character that has at most
    [n] characters or spaces alone after the [n]-th.  [None] is for a
    [Text] column, which has no limit. *)
Definition takes (b : backend) (limit : option nat) (v : string) : Prop :=
  match b with
  | SQLite => True
  | PostgreSQL =>
      has_nul v = false
      /\ match limit with Some n => fits n v = true | None => True end
  end.

(** The engine takes the names and values of the custom fields. *)
Definition names_fit (b : backend) (entries : list (string * string)) : Prop :=
  Forall (fun e => takes b (Some 100%nat) (fst e) /\ takes b None (snd e)) entries.

(** The engine takes the values of the form. *)
Definition storable (b : backend) (req : request) : Prop :=
  (forall k n v, (k, n) ∈ column_limits -> form_get (form req) k = Some v ->
                 takes b (Some n) v)
  /\ (forall v, form_get (form req) "family_relations" = Some v -> takes b None v)
  /\ names_fit b (custom_entries req).

(** On PostgreSQL no primary key of [guests] or [custom_fields] is ahead
    of the sequence that hands them out, so the next value is free. *)
Definition keys_behind (w : world) : Prop :=
  engine w = PostgreSQL ->
  Forall (fun g => id g <= guest_seq w) (guests (txn w))
  /\ Forall (fun c => cf_id c <= field_seq w) (custom_fields (txn w)).

(** *** [import_data] *)

(** The endpoints of the application, one per view function under its
    name and Flask's own [static], each with the variables of its rule. *)
Definition endpoints : list (string * list string) :=
  [("static", ["filename"]); ("login", []); ("logout", []); ("index", []);
   ("dashboard", []); ("new_guest", []); ("archive", []);
   ("guest_detail", ["guest_id"]); ("edit_guest", ["guest_id"]);
   ("delete_guest", ["guest_id"]); ("import_data", []); ("export_data", []);
   ("settings", []); ("calc_fiscal_code", [])].

(** The variables of the rule of an endpoint, if there is such a rule. *)
Fixpoint rule_of (rules : list (string * list string)) (endpoint : string)
  : option (list string) :=
  match rules with
  | [] => None
  | (e, vars) :: rules' => if String.eqb e endpoint then Some vars else rule_of rules' endpoint
  end.

(** werkzeug's [BuildError] for an endpoint that cannot be built. *)
Definition BuildError (endpoint : string) : exn := Raised "BuildError" endpoint.

(** [url_for(endpoint, **values)]: the endpoint must have a rule and every
    variable of the rule a value. *)
Definition url_for (endpoint : string) (values : list (string * Z)) : M string :=
  match rule_of endpoints endpoint with
  | Some vars =>
      if forallb (fun v => bool_decide (v ∈ map fst values)) vars then ret endpoint
      else raise (BuildError endpoint)
  | None => raise (BuildError endpoint)
  end.

(** [redirect(url_for(endpoint, **values))]. *)
Definition redirect_for (endpoint : string) (values : list (string * Z)) : M response :=
  target <- url_for endpoint values ;;
  ret (Redirect target values).

(** An uploaded file of [request.files]. *)
Record FileStorage := {
  filename : string;
  stream : string
}.

(** [request.files.get(k)]: the first file sent under [k]. *)
Fixpoint files_get (fs : list (string * FileStorage)) (k : string)
  : option FileStorage :=
  match fs with
  | [] => None
  | (k', f) :: fs' => if String.eqb k' k then Some f else files_get fs' k
  end.

(** [s.endswith(suffix)]. *)
Definition endswith (s suffix : string) : bool :=
  let n := String.length s in
  let m := String.length suffix in
  (m <=? n)%nat && String.eqb (substring (n - m) m s) suffix.

Definition required_columns : list string :=
  ["last_name"; "first_name"; "gender"; "birth_date"].

(** An [int] inside an f-string. *)
Definition format_int (n : Z) : string := NilZero.string_of_int (Z.to_int n).

(** ['È necessario confermare l\'importazione'], the capital E with grave
    being the code point 200. *)
Definition CONFIRM_NEEDED : string :=
  String "200"%char " necessario confermare l'importazione".

Section ImportData.

(** pandas: a [DataFrame], the two readers (which may raise) and the
    column names.  The loop of [import_data] over [df.iterrows()], which
    builds the rows with pandas, adds them and commits every hundredth, is
    taken as any computation that yields [guests_imported]; the flush of
    the rows it left pending, with which the last commit begins and which
    the engine may refuse, as any computation too. *)
Variable DataFrame : Type.
Variable read_excel : FileStorage -> exn + DataFrame.
Variable read_csv : FileStorage -> exn + DataFrame.
Variable columns : DataFrame -> list string.
Variable import_rows : DataFrame -> M Z.
Variable flush_imported : DataFrame -> M unit.
Variable str : exn -> string.

(** The [try] of [import_data]; [Some] is a [return] inside it.  Calls of
    [app.logger] are not part of the world and are left out. *)
Definition import_try (file : FileStorage) : M (option response) :=
  df <- (if endswith (filename file) ".xlsx" then
           df <- lift (read_excel file) ;; ret (Some df)
         else if endswith (filename file) ".csv" then
           df <- lift (read_csv file) ;; ret (Some df)
         else ret None) ;;
  match df with
  | None =>
      flash "Formato file non supportato. Usa Excel (.xlsx) o CSV (.csv)" "danger" ;;;
      resp <- redirect_for "export" [] ;;
      ret (Some resp)
  | Some df =>
      let missing_columns :=
        List.filter (fun col => negb (bool_decide (col ∈ columns df))) required_columns in
      match missing_columns with
      | _ :: _ =>
          flash ("File non valido. Mancano le colonne: "
                 ++ String.concat ", " missing_columns) "danger" ;;;
          resp <- redirect_for "export" [] ;;
          ret (Some resp)
      | [] =>
          guests_imported <- import_rows df ;;
          flush_imported df ;;;
          db_commit ;;;
          flash ("Importazione completata con successo! "
                 ++ format_int guests_imported ++ " ospiti importati.") "success" ;;;
          ret None
      end
  end.

Definition import_data_view (a : list (string * FileStorage) * request) : M response :=
  let '(files, req) := a in
  match files_get files "import_file" with
  | None =>
      flash "Nessun file selezionato" "danger" ;;;
      redirect_for "export" []
  | Some file =>
      if String.eqb (filename file) "" then
        flash "Nessun file selezionato" "danger" ;;;
        redirect_for "export" []
      else
        match form_get (form req) "confirm_import" with
        | None =>
            flash CONFIRM_NEEDED "danger" ;;;
            redirect_for "export" []
        | Some _ =>
            r <- try_except
                   (import_try file)
                   (fun e =>
                      db_rollback ;;;
                      flash ("Errore durante l'importazione: " ++ str e) "danger" ;;;
                      ret None) ;;
            match r with
            | Some resp => ret resp
            | None => redirect_for "export" []
            end
        end
  end.

Definition import_data := login_required import_data_view.

(** What reading the upload gives, by its extension; [None] when the
    extension is neither. *)
Definition read_upload (file : FileStorage) : option (exn + DataFrame) :=
  if endswith (filename file) ".xlsx" then Some (read_excel file)
  else if endswith (filename file) ".csv" then Some (read_csv file)
  else None.

End ImportData.

(** An upload that [import_data] turns away before it reads the file. *)
Definition turned_away (files : list (string * FileStorage)) (req : request) : Prop :=
  match files_get files "import_file" with
  | None => True
  | Some file => filename file = "" \/ form_get (form req) "confirm_import" = None
  end.

(** The world after a completed import of [n] rows. *)
Definition import_succeeded (n : Z) (w : world) : world :=
  set_flashes
    (flashes w ++ [("Importazione completata con successo! " ++ format_int n
                    ++ " ospiti importati.", "success")])
    (set_committed (txn w) w).

(** *** Further sample data *)

(** A CSV upload and stand-ins for pandas: a table is its list of column
    names, and the loop imports nothing. *)
Definition sample_upload : FileStorage :=
  {| filename := "ospiti.csv"; stream := "last_name,first_name,gender,birth_date" |}.

Definition sample_reader (f : FileStorage) : exn + list string :=
  inr ["last_name"; "first_name"; "gender"; "birth_date"].

Definition sample_columns (df : list string) : list string := df.

Definition sample_rows (df : list string) : M Z := ret 0.

Definition sample_flush (df : list string) : M unit := ret tt.


Definition empty_post : request :=
  {| method := POST; form := []; get_json := JNull |}.

(** The form of [sample_post] with one custom field, sent as the pair of
    a name and a value under the same number. *)
Definition custom_form : list (string * string) :=
  sample_form ++ [("custom_field_name_1", "Allergie"); ("custom_field_1", "Noci")].

Definition custom_post : request :=
  {| method := POST; form := custom_form; get_json := JNull |}.

(** The form of [sample_post] with three spaces after the province, which
    PostgreSQL cuts off. *)
Definition spaced_post : request :=
  {| method := POST;
     form := map (fun kv : string * string =>
                    if String.eqb (fst kv) "province" then ("province", "RM   ") else kv)
               sample_form;
     get_json := JNull |}.

(** The same with a field name of 101 characters, one more than the
    column takes. *)
Definition long_name : string := string_of_list_ascii (repeat "x"%char 101).

Definition long_name_post : request :=
  {| method := POST;
     form := sample_form ++ [("custom_field_name_1", long_name); ("custom_field_1", "Noci")];
     get_json := JNull |}.

Definition sample_field : CustomField :=
  {| cf_id := 1; guest_id := 1; field_name := "Allergie"; field_value := Some "Noci" |}.

Definition sample_db : database :=
  {| guests := [sample_guest]; custom_fields := [sample_field]; settings := [] |}.

(** A logged-in client over a database that holds [sample_guest]. *)
Definition guest_world (b : backend) : world :=
  {| engine := b; committed := sample_db; txn := sample_db;
     guest_seq := 1; field_seq := 1; session := {[ "logged_in" := JBool true ]};
     flashes := []; now := Date 2025 1 1; core_calls := [] |}.

End App.

(* ===================================================================== *)
(** ** Properties of the fiscal-code core *)
(* ===================================================================== *)

Module CoreFacts.
Import Calendar Core.

(** *** Characters *)

Ltac all_chars c :=
  destruct c as [[] [] [] [] [] [] [] []]; vm_compute; try reflexivity; try discriminate.

Lemma omocodia_upper c : is_digit c = true -> is_upper (omocodia c) = true.
Proof. all_chars c. Qed.

Lemma omocodia_not_digit c : is_digit c = true -> is_digit (omocodia c) = false.
Proof. all_chars c. Qed.


Lemma upper_not_digit c : is_upper c = true -> is_digit c = false.
Proof. all_chars c. Qed.

Lemma vowel_upper c : is_vowel c = true -> is_upper c = true.
Proof. all_chars c. Qed.

Lemma consonant_upper c : is_consonant c = true -> is_upper c = true.
Proof. unfold is_consonant. intros H. apply andb_true_iff in H. tauto. Qed.

Lemma upper_code_char c : is_upper c = true -> is_code_char c = true.
Proof. unfold is_code_char. intros ->. reflexivity. Qed.

Lemma digit_code_char c : is_digit c = true -> is_code_char c = true.
Proof. unfold is_code_char. intros ->. apply orb_true_r. Qed.

Lemma month_letter_upper c : is_month_letter c = true -> is_upper c = true.
Proof. all_chars c. Qed.

Lemma letter_of_upper r : (r < 26)%nat -> is_upper (letter_of r) = true.
Proof.
  intros H. do 26 (destruct r as [|r]; [reflexivity|]). lia.
Qed.

Lemma digit_char_digit n : 0 <= n < 10 -> is_digit (digit_char n) = true.
Proof.
  intros H. unfold digit_char.
  assert (Hk : (Z.to_nat n < 10)%nat) by lia.
  destruct (Z.to_nat n) as [|k]; [reflexivity|].
  do 9 (destruct k as [|k]; [reflexivity|]). lia.
Qed.

Lemma pad2_digits n : 0 <= n -> Forall (fun c => is_digit c = true) (pad2 n).
Proof.
  intros H. unfold pad2. repeat constructor; apply digit_char_digit.
  - apply Z.mod_pos_bound. lia.
  - apply Z.mod_pos_bound. lia.
Qed.

Lemma month_letter_ok m : 1 <= m <= 12 -> is_month_letter (month_letter m) = true.
Proof.
  intros H. unfold month_letter.
  assert (Hk : (Z.to_nat (m - 1) < 12)%nat) by lia.
  destruct (Z.to_nat (m - 1)) as [|k]; [reflexivity|].
  do 11 (destruct k as [|k]; [reflexivity|]). lia.
Qed.

(** *** Name encoder *)

Lemma normalize_upper s : all_upper (normalize s).
Proof.
  unfold all_upper, normalize. apply Forall_forall. intros c Hc.
  apply list_elem_of_filter in Hc. tauto.
Qed.

Lemma consonants_upper s : all_upper (consonants s).
Proof.
  apply Forall_forall. intros c Hc. apply list_elem_of_filter in Hc.
  apply consonant_upper. tauto.
Qed.

Lemma vowels_upper s : all_upper (vowels s).
Proof.
  apply Forall_forall. intros c Hc. apply list_elem_of_filter in Hc.
  apply vowel_upper. tauto.
Qed.

Lemma three_letters_length n : length (three_letters n) = 3%nat.
Proof.
  unfold three_letters. rewrite length_take, !length_app.
  change (length pad_X) with 3%nat. lia.
Qed.

Lemma three_letters_upper n : all_upper (three_letters n).
Proof.
  unfold three_letters. apply Forall_take. repeat apply Forall_app_2.
  - apply consonants_upper.
  - apply vowels_upper.
  - repeat constructor.
Qed.

Lemma encode_surname_ok s :
  normalize s <> [] -> encode_surname s = Ok (three_letters (normalize s)).
Proof. unfold encode_surname. destruct (normalize s); congruence. Qed.

Lemma encode_surname_shape s sn :
  encode_surname s = Ok sn -> length sn = 3%nat /\ all_upper sn.
Proof.
  unfold encode_surname. destruct (normalize s) eqn:E; [discriminate|].
  intros [= <-]. split; [apply three_letters_length | apply three_letters_upper].
Qed.

Lemma encode_given_name_shape s gn :
  encode_given_name s = Ok gn -> length gn = 3%nat /\ all_upper gn.
Proof.
  unfold encode_given_name. destruct (normalize s) as [|a n] eqn:E; [discriminate|].
  pose proof (consonants_upper (a :: n)) as Hc.
  destruct (consonants (a :: n)) as [|c1 [|c2 [|c3 [|c4 r]]]]; intros [= <-];
    try (split; [apply three_letters_length | apply three_letters_upper]).
  split; [reflexivity|].
  inversion Hc as [|? ? H1 Hc1]; subst. inversion Hc1 as [|? ? H2 Hc2]; subst.
  inversion Hc2 as [|? ? H3 Hc3]; subst. inversion Hc3 as [|? ? H4 Hc4]; subst.
  repeat constructor; assumption.
Qed.

Lemma encode_given_name_ok s :
  normalize s <> [] -> exists gn, encode_given_name s = Ok gn.
Proof.
  unfold encode_given_name. destruct (normalize s) as [|a n]; [congruence|].
  intros _. destruct (consonants (a :: n)) as [|c1 [|c2 [|c3 [|c4 r]]]]; eauto.
Qed.

(** *** Date/Sex encoder *)

Lemma valid_gregorian_bounds d :
  valid_gregorian d = true ->
  1 <= year d /\ 1 <= month d <= 12 /\ 1 <= day d <= 31.
Proof.
  unfold valid_gregorian, days_in_month. intros H.
  repeat (apply andb_true_iff in H; destruct H as [H ?]).
  repeat match goal with
         | H : context [if ?b then _ else _] |- _ => destruct b
         end; lia.
Qed.

Lemma day_field_bounds d s : 1 <= day d <= 31 -> 0 <= day_field d s < 100.
Proof. destruct s; simpl; lia. Qed.

Lemma encode_date_ok today d s :
  valid_gregorian d = true -> date_ltb today d = false ->
  encode_date today d s
  = Ok (pad2 (year d mod 100), month_letter (month d), pad2 (day_field d s)).
Proof. unfold encode_date. intros -> ->. reflexivity. Qed.

Lemma encode_date_inv today d s r :
  encode_date today d s = Ok r ->
  valid_gregorian d = true /\ date_ltb today d = false
  /\ r = (pad2 (year d mod 100), month_letter (month d), pad2 (day_field d s)).
Proof.
  unfold encode_date. destruct (valid_gregorian d), (date_ltb today d);
    simpl; intros [= <-]; auto.
Qed.

Lemma digit_char_value n : 0 <= n < 10 -> Z.of_nat (code_of (digit_char n)) - 48 = n.
Proof.
  intros H. rewrite <- (Z2Nat.id n) at 2 by lia. unfold digit_char.
  assert (Hk : (Z.to_nat n < 10)%nat) by lia.
  destruct (Z.to_nat n) as [|k]; [reflexivity|].
  do 9 (destruct k as [|k]; [reflexivity|]). lia.
Qed.

Lemma decimal_value_pad2 n : 0 <= n < 100 -> decimal_value (pad2 n) = n.
Proof.
  intros H. unfold decimal_value, pad2. cbn [fold_left].
  rewrite !digit_char_value.
  - rewrite (Z.mod_small (n / 10) 10) by (split; [apply Z.div_pos; lia | apply Z.div_lt_upper_bound; lia]).
    pose proof (Z.div_mod n 10). lia.
  - apply Z.mod_pos_bound. lia.
  - apply Z.mod_pos_bound. lia.
Qed.

(** *** Composer, checksum and validator *)

Lemma core_wf_valid core : core_wf core -> core_valid core.
Proof.
  unfold core_wf, core_valid.
  do 15 (destruct core as [|? core]; [tauto|]). destruct core; [|tauto].
  intros (Hu & Hm & Hd). split; [reflexivity|]. split; [|eauto].
  unfold all_upper, all_digits in *.
  repeat match goal with
         | H : Forall _ (_ :: _) |- _ => apply Forall_cons in H; destruct H
         end.
  repeat constructor;
    first [ apply upper_code_char; assumption
          | apply digit_code_char; assumption
          | apply upper_code_char, month_letter_upper; assumption ].
Qed.

Section WithTables.

Variable today : date.
Variable places : list PlaceCodeEntry.
Variable odd_value even_value : ascii -> nat.

Local Abbreviation encode_date := (encode_date today).
Local Abbreviation lookup_place := (lookup_place places).
Local Abbreviation compose := (compose today places).
Local Abbreviation checksum := (checksum odd_value even_value).
Local Abbreviation with_check := (with_check odd_value even_value).
Local Abbreviation resolve := (resolve odd_value even_value).
Local Abbreviation disambiguate := (disambiguate odd_value even_value).
Local Abbreviation validate_fiscal_code := (validate_fiscal_code odd_value even_value).
Local Abbreviation compute_fiscal_code := (compute_fiscal_code today places odd_value even_value).

Lemma lookup_place_elem n f e : lookup_place n f = Ok e -> e ∈ places.
Proof.
  unfold Core.lookup_place. destruct (find _ places) as [e'|] eqn:E; [|discriminate].
  intros [= <-]. apply find_some in E. apply list_elem_of_In. tauto.
Qed.

Lemma lookup_place_code n f e :
  table_wf places -> lookup_place n f = Ok e ->
  exists l d1 d2 d3, code e = [l; d1; d2; d3]
    /\ is_upper l = true /\ all_digits [d1; d2; d3].
Proof.
  intros Hwf He. apply lookup_place_elem in He.
  unfold table_wf in Hwf. rewrite Forall_forall in Hwf. specialize (Hwf e He).
  unfold wf_place_code in Hwf.
  destruct (code e) as [|l [|d1 [|d2 [|d3 [|? ?]]]]]; try discriminate.
  do 3 (apply andb_true_iff in Hwf; destruct Hwf as [Hwf ?]).
  exists l, d1, d2, d3. split; [reflexivity|]. split; [assumption|].
  repeat constructor; assumption.
Qed.

Lemma compose_inv p core :
  compose p = Ok core ->
  exists sn gn e,
    encode_surname (last_name p) = Ok sn
    /\ encode_given_name (first_name p) = Ok gn
    /\ valid_gregorian (birth_date p) = true
    /\ date_ltb today (birth_date p) = false
    /\ lookup_place (birth_place p) (is_foreign_birth p) = Ok e
    /\ core = sn ++ gn ++ pad2 (year (birth_date p) mod 100)
              ++ [month_letter (month (birth_date p))]
              ++ pad2 (day_field (birth_date p) (person_sex p)) ++ code e.
Proof.
  unfold Core.compose, bind.
  destruct (encode_surname _) as [sn|] eqn:E1; [|discriminate].
  destruct (encode_given_name _) as [gn|] eqn:E2; [|discriminate].
  destruct (Core.encode_date _ _ _) as [[[yy m] dd]|] eqn:E3; [|discriminate].
  destruct (Core.lookup_place _ _ _) as [e|] eqn:E4; [|discriminate].
  intros [= <-]. apply encode_date_inv in E3 as (Hv & Hf & [= -> -> ->]).
  exists sn, gn, e. auto 10.
Qed.

Lemma compose_wf p core : table_wf places -> compose p = Ok core -> core_wf core.
Proof.
  intros Hwf H. apply compose_inv in H as (sn & gn & e & H1 & H2 & Hv & _ & H4 & ->).
  apply encode_surname_shape in H1 as [L1 U1].
  apply encode_given_name_shape in H2 as [L2 U2].
  destruct (lookup_place_code _ _ _ Hwf H4) as (l & d1 & d2 & d3 & -> & Hl & Hd).
  apply valid_gregorian_bounds in Hv as (Hy & Hm & Hday).
  pose proof (pad2_digits (year (birth_date p) mod 100)) as Dy.
  pose proof (pad2_digits (day_field (birth_date p) (person_sex p))) as Dd.
  pose proof (day_field_bounds (birth_date p) (person_sex p) Hday).
  pose proof (Z.mod_pos_bound (year (birth_date p)) 100).
  pose proof (month_letter_ok _ Hm) as Hml.
  destruct sn as [|a1 [|a2 [|a3 [|? ?]]]]; try discriminate.
  destruct gn as [|b1 [|b2 [|b3 [|? ?]]]]; try discriminate.
  unfold pad2 in *. unfold all_upper, all_digits in *. simpl.
  repeat match goal with
         | H : Forall _ (_ :: _) |- _ => apply Forall_cons in H; destruct H
         end.
  specialize (Dy ltac:(lia)). specialize (Dd ltac:(lia)).
  repeat match goal with
         | H : Forall _ (_ :: _) |- _ => apply Forall_cons in H; destruct H
         end.
  split; [|split]; [| assumption |]; repeat constructor; assumption.
Qed.

Lemma checksum_upper core : is_upper (checksum core) = true.
Proof.
  unfold Core.checksum. apply letter_of_upper. apply Nat.mod_upper_bound. lia.
Qed.

Lemma with_check_take core : length core = 15%nat -> take 15 (with_check core) = core.
Proof.
  intros H. unfold Core.with_check. rewrite take_app_le by lia.
  apply take_ge. lia.
Qed.

Lemma with_check_last core :
  length core = 15%nat -> with_check core !! 15%nat = Some (checksum core).
Proof.
  intros H. unfold Core.with_check. rewrite lookup_app_r by lia.
  rewrite H. reflexivity.
Qed.

Lemma with_check_code_chars core :
  all_code_chars core -> all_code_chars (with_check core).
Proof.
  intros H. apply Forall_app_2; [assumption|].
  repeat constructor. apply upper_code_char, checksum_upper.
Qed.

Lemma forallb_code_chars c : all_code_chars c -> forallb is_code_char c = true.
Proof.
  intros H. apply forallb_forall. intros x Hx.
  unfold all_code_chars in H. rewrite Forall_forall in H.
  apply H, list_elem_of_In, Hx.
Qed.

Lemma validate_with_check core :
  core_valid core -> validate_fiscal_code (with_check core) = Ok tt.
Proof.
  intros (Hlen & Hc & m & Hm & Hml). unfold Core.validate_fiscal_code, shape_ok.
  assert (E1 : (length (with_check core) =? 16)%nat = true).
  { unfold Core.with_check. rewrite length_app, Hlen. reflexivity. }
  assert (E2 : with_check core !! 8%nat = Some m).
  { unfold Core.with_check. rewrite lookup_app_l by lia. exact Hm. }
  rewrite E1, E2, Hml, (forallb_code_chars _ (with_check_code_chars _ Hc)). simpl.
  rewrite with_check_take, with_check_last by assumption.
  rewrite bool_decide_eq_true_2; reflexivity.
Qed.

(** *** Omocodia resolver *)

Lemma subst_rel_refl c : subst_rel c c.
Proof. left. reflexivity. Qed.

Lemma subst_rel_trans a b c : subst_rel a b -> subst_rel b c -> subst_rel a c.
Proof.
  intros [-> | [Ha ->]] [-> | [Hb ->]]; unfold subst_rel; auto.
  rewrite omocodia_not_digit in Hb by assumption. discriminate.
Qed.

Lemma subst_rel_step (core : text) (i : nat) c :
  core !! i = Some c -> is_digit c = true ->
  Forall2 subst_rel core (<[i := omocodia c]> core).
Proof.
  intros Hi Hd. rewrite <- (list_insert_id core i c Hi) at 1.
  apply Forall2_insert.
  - apply Forall_Forall2_diag, Forall_forall. intros; apply subst_rel_refl.
  - right. auto.
Qed.

Lemma resolve_ok is_taken ps core code :
  resolve is_taken ps core = Ok code ->
  exists core', code = with_check core' /\ is_taken code = false
                /\ Forall2 subst_rel core core'.
Proof.
  revert core. induction ps as [|i ps IH]; intros core; simpl; [discriminate|].
  destruct (core !! i) as [c|] eqn:Hi; [|apply IH].
  destruct (is_digit c) eqn:Hd; [|apply IH].
  destruct (is_taken (with_check (<[i:=omocodia c]> core))) eqn:Ht.
  - intros H. apply IH in H as (core' & -> & Hfree & HR).
    exists core'. split; [reflexivity|]. split; [assumption|].
    eapply Forall2_trans; [| apply subst_rel_step; eassumption | exact HR].
    intros x y z; apply subst_rel_trans.
  - intros [= <-]. eexists. split; [reflexivity|]. split; [assumption|].
    apply subst_rel_step; assumption.
Qed.

Lemma resolve_err_kind is_taken ps core e :
  resolve is_taken ps core = Err e -> e = CodeSpaceExhaustedError.
Proof.
  revert core. induction ps as [|i ps IH]; intros core; simpl; [congruence|].
  destruct (core !! i) as [c|]; [|apply IH].
  destruct (is_digit c); [|apply IH].
  destruct (is_taken _); [apply IH | discriminate].
Qed.
















Lemma core_valid_subst core core' :
  core_valid core -> Forall2 subst_rel core core' -> core_valid core'.
Proof.
  intros (Hlen & Hc & m & Hm & Hml) HR. split; [|split].
  - rewrite <- (Forall2_length _ _ _ HR). exact Hlen.
  - unfold all_code_chars in *. eapply Forall2_Forall_r; [exact HR|].
    eapply Forall_impl; [exact Hc|]. intros o Ho c' [-> | [Hd ->]]; [assumption|].
    apply upper_code_char, omocodia_upper, Hd.
  - destruct (Forall2_lookup_l _ _ _ _ _ HR Hm) as (m' & Hm' & [-> | [Hd ->]]).
    + eauto.
    + apply month_letter_upper, upper_not_digit in Hml. congruence.
Qed.

Lemma compute_fiscal_code_error_kinds hook p e :
  compute_fiscal_code hook p = Err e ->
  e ∈ [EmptyNameError; InvalidDateError; UnknownPlaceError; CodeSpaceExhaustedError].
Proof.
  unfold Core.compute_fiscal_code, Core.compose, bind, encode_surname,
    encode_given_name, Core.encode_date, Core.lookup_place.
  destruct (normalize (last_name p)); [intros [= <-]; set_solver|].
  destruct (normalize (first_name p)) as [|b n]; [intros [= <-]; set_solver|].
  assert (Hg : exists gn, match consonants (b :: n) with
                          | c1 :: _ :: c3 :: c4 :: _ => Ok [c1; c3; c4]
                          | _ => Ok (three_letters (b :: n))
                          end = Ok gn).
  { destruct (consonants (b :: n)) as [|c1 [|c2 [|c3 [|c4 r]]]]; eauto. }
  destruct Hg as [gn ->].
  destruct (negb (valid_gregorian (birth_date p)) || date_ltb today (birth_date p));
    [intros [= <-]; set_solver|].
  destruct (find _ places); [|intros [= <-]; set_solver].
  destruct hook as [is_taken|]; [|discriminate].
  unfold Core.disambiguate. destruct (is_taken _); [|discriminate].
  intros H. apply resolve_err_kind in H as ->. set_solver.
Qed.

Lemma is_vowel_set (c : ascii) : is_vowel c = bool_decide (c ∈ txt "AEIOU").
Proof. destruct c as [[] [] [] [] [] [] [] []]; reflexivity. Qed.

Lemma is_upper_set (c : ascii) :
  is_upper c = bool_decide (c ∈ txt "ABCDEFGHIJKLMNOPQRSTUVWXYZ").
Proof. destruct c as [[] [] [] [] [] [] [] []]; reflexivity. Qed.

Lemma upper_unchanged (c : ascii) :
  is_upper c = true -> strip_diacritic (to_upper c) = c.
Proof. destruct c as [[] [] [] [] [] [] [] []]; (reflexivity || discriminate). Qed.

Lemma normalize_letters (s : text) :
  Forall (fun c => c ∈ txt "ABCDEFGHIJKLMNOPQRSTUVWXYZ") (normalize s).
Proof.
  apply Forall_forall. intros c Hc. unfold normalize in Hc.
  apply list_elem_of_filter in Hc as [Hc _]. rewrite is_upper_set in Hc.
  exact (bool_decide_eq_true_1 _ Hc).
Qed.

Lemma normalize_of_letters (s : text) :
  Forall (fun c => c ∈ txt "ABCDEFGHIJKLMNOPQRSTUVWXYZ") s -> normalize s = s.
Proof.
  unfold normalize. induction 1 as [|c s Hc _ IH]; [reflexivity|].
  assert (Hu : is_upper c = true).
  { rewrite is_upper_set. apply bool_decide_eq_true_2, Hc. }
  simpl. rewrite (upper_unchanged c Hu), filter_cons_True by exact Hu.
  rewrite IH. reflexivity.
Qed.

Lemma vowels_set (n : text) : vowels n = filter (fun c => c ∈ txt "AEIOU") n.
Proof.
  unfold vowels. apply list_filter_iff. intros c. rewrite is_vowel_set.
  split; [apply bool_decide_eq_true_1 | apply bool_decide_eq_true_2].
Qed.

Lemma consonants_set (n : text) :
  Forall (fun c => c ∈ txt "ABCDEFGHIJKLMNOPQRSTUVWXYZ") n ->
  consonants n = filter (fun c => c ∉ txt "AEIOU") n.
Proof.
  unfold consonants. induction 1 as [|c n Hc _ IH]; [reflexivity|].
  assert (Hu : is_upper c = true).
  { rewrite is_upper_set. apply bool_decide_eq_true_2, Hc. }
  destruct (decide (c ∈ txt "AEIOU")) as [Hv|Hv].
  - rewrite filter_cons_False, (filter_cons_False (fun c => c ∉ txt "AEIOU")).
    + exact IH.
    + intros Hn. exact (Hn Hv).
    + unfold is_consonant. rewrite Hu, is_vowel_set, (bool_decide_eq_true_2 _ Hv).
      discriminate.
  - rewrite filter_cons_True, (filter_cons_True (fun c => c ∉ txt "AEIOU")).
    + rewrite IH. reflexivity.
    + exact Hv.
    + unfold is_consonant. rewrite Hu, is_vowel_set, (bool_decide_eq_false_2 _ Hv).
      reflexivity.
Qed.

(** *** The claims about the core *)

(** C5.  The normalized form [n] of a name holds letters A-Z only, and
    is the name itself when that is made of such letters.  With [cs] the
    letters of [n] other than A, E, I, O, U and [vs] those among them, both
    in the order of the name: a given name with four or more consonants
    is encoded by the 1st, 3rd and 4th of [cs]; with fewer, as a surname
    is, by the first three characters of [cs], then [vs], then [XXX],
    which are three; a name with no letter is an [EmptyNameError]. *)
Theorem encode_given_name_rule (s : text) :
  let n := normalize s in
  let cs := filter (fun c => c ∉ txt "AEIOU") n in
  let vs := filter (fun c => c ∈ txt "AEIOU") n in
  Forall (fun c => c ∈ txt "ABCDEFGHIJKLMNOPQRSTUVWXYZ") n
  /\ (Forall (fun c => c ∈ txt "ABCDEFGHIJKLMNOPQRSTUVWXYZ") s -> n = s)
  /\ (forall c1 c2 c3 c4 r,
        cs = c1 :: c2 :: c3 :: c4 :: r -> encode_given_name s = Ok [c1; c3; c4])
  /\ (n <> [] -> (length cs < 4)%nat ->
        encode_given_name s = Ok (take 3 (cs ++ vs ++ txt "XXX")))
  /\ (n <> [] ->
        encode_surname s = Ok (take 3 (cs ++ vs ++ txt "XXX"))
        /\ length (take 3 (cs ++ vs ++ txt "XXX")) = 3%nat)
  /\ (n = [] ->
        encode_given_name s = Err EmptyNameError
        /\ encode_surname s = Err EmptyNameError).
Proof.
  intros n cs vs.
  split; [apply normalize_letters|]. split; [apply normalize_of_letters|].
  assert (Hcs : consonants n = cs) by apply consonants_set, normalize_letters.
  assert (Hvs : vowels n = vs) by apply vowels_set.
  unfold encode_given_name, encode_surname. fold n.
  clearbody cs vs. clearbody n.
  split; [|split; [|split]].
  - intros c1 c2 c3 c4 r E. destruct n as [|a n'].
    + rewrite <- Hcs in E. discriminate E.
    + rewrite Hcs, E. reflexivity.
  - intros Hn Hl. destruct n as [|a n']; [congruence|].
    unfold three_letters, pad_X. rewrite Hcs, Hvs.
    destruct cs as [|c1 [|c2 [|c3 [|c4 r]]]]; simpl in Hl; try lia; reflexivity.
  - intros Hn. destruct n as [|a n']; [congruence|].
    unfold three_letters, pad_X. rewrite Hcs, Hvs. split; [reflexivity|].
    rewrite length_take, !length_app. change (length (txt "XXX")) with 3%nat. lia.
  - intros ->. split; reflexivity.
Qed.

(** C6.  For a valid birth date, not after today, the day field is the
    day of the month in two digits for a male and the day plus 40 for a
    female; so when the code of a male exists, the code of the same person
    as a female exists too, agrees with it on characters 1-9 and 12-15,
    and its characters 10-11 read as a number are 40 more. *)
Theorem day_field_by_sex (p : PersonInput) :
  table_wf places ->
  valid_gregorian (birth_date p) = true ->
  date_ltb today (birth_date p) = false ->
  encode_date (birth_date p) Male
    = Ok (pad2 (year (birth_date p) mod 100), month_letter (month (birth_date p)),
          pad2 (day (birth_date p)))
  /\ encode_date (birth_date p) Female
    = Ok (pad2 (year (birth_date p) mod 100), month_letter (month (birth_date p)),
          pad2 (day (birth_date p) + 40))
  /\ decimal_value (pad2 (day (birth_date p))) = day (birth_date p)
  /\ decimal_value (pad2 (day (birth_date p) + 40)) = day (birth_date p) + 40
  /\ forall cm,
       compute_fiscal_code None (with_sex Male p) = Ok cm ->
       exists cf,
         compute_fiscal_code None (with_sex Female p) = Ok cf
         /\ take 9 cm = take 9 cf
         /\ take 4 (drop 11 cm) = take 4 (drop 11 cf)
         /\ take 2 (drop 9 cm) = pad2 (day (birth_date p))
         /\ take 2 (drop 9 cf) = pad2 (day (birth_date p) + 40)
         /\ decimal_value (take 2 (drop 9 cf))
            = decimal_value (take 2 (drop 9 cm)) + 40.
Proof.
  intros Hwf Hv Hf.
  destruct (valid_gregorian_bounds _ Hv) as (_ & _ & Hd).
  rewrite !encode_date_ok by assumption.
  split; [reflexivity|]. split; [reflexivity|].
  split; [apply decimal_value_pad2; lia|]. split; [apply decimal_value_pad2; lia|].
  intros cm H. unfold Core.compute_fiscal_code in *.
  destruct (compose (with_sex Male p)) as [core|] eqn:Hc; [|discriminate].
  simpl in H. injection H as <-.
  apply compose_inv in Hc as (sn & gn & e & H1 & H2 & _ & _ & H4 & ->).
  simpl in H1, H2, H4.
  unfold Core.compose. simpl. rewrite H1, H2, H4. simpl.
  rewrite encode_date_ok by assumption. simpl.
  eexists. split; [reflexivity|].
  apply encode_surname_shape in H1 as [L1 _].
  apply encode_given_name_shape in H2 as [L2 _].
  destruct (lookup_place_code _ _ _ Hwf H4) as (l & d1 & d2 & d3 & -> & _).
  destruct sn as [|a1 [|a2 [|a3 [|? ?]]]]; try discriminate.
  destruct gn as [|b1 [|b2 [|b3 [|? ?]]]]; try discriminate.
  unfold Core.with_check. simpl.
  do 4 (split; [reflexivity|]).
  change [digit_char (day (birth_date p) / 10 mod 10);
          digit_char (day (birth_date p) mod 10)]
    with (pad2 (day (birth_date p))).
  change [digit_char ((day (birth_date p) + 40) / 10 mod 10);
          digit_char ((day (birth_date p) + 40) mod 10)]
    with (pad2 (day (birth_date p) + 40)).
  rewrite !decimal_value_pad2 by lia. reflexivity.
Qed.


(** C8.  A string whose length is not 16, or with a character outside
    [A-Z0-9], is an [InvalidFormatError]; [ChecksumMismatchError] is the
    result exactly for a shape-valid code whose 16th character is not the
    recomputed check character. *)
Theorem validate_fiscal_code_errors (c : text) :
  ((length c <> 16%nat \/ exists ch, ch ∈ c /\ is_code_char ch = false) ->
     validate_fiscal_code c = Err InvalidFormatError)
  /\ (validate_fiscal_code c = Err ChecksumMismatchError <->
        shape_ok c = true /\ c !! 15%nat <> Some (checksum (take 15 c))).
Proof.
  unfold Core.validate_fiscal_code. split.
  - intros H. assert (Hs : shape_ok c = false); [|rewrite Hs; reflexivity].
    unfold shape_ok. destruct H as [Hlen | (ch & Hin & Hch)].
    + apply Nat.eqb_neq in Hlen. rewrite Hlen. reflexivity.
    + assert (Hf : forallb is_code_char c = false).
      { apply not_true_is_false. intros Hall. rewrite forallb_forall in Hall.
        apply list_elem_of_In in Hin. rewrite (Hall ch Hin) in Hch. discriminate. }
      rewrite Hf, andb_false_r. reflexivity.
  - destruct (shape_ok c); simpl.
    + destruct (bool_decide (c !! 15%nat = Some (checksum (take 15 c)))) eqn:Hb.
      * apply bool_decide_eq_true in Hb. split; [discriminate|]. intros [_ Hn]. contradiction.
      * apply bool_decide_eq_false in Hb. split; auto.
    + split; [discriminate|]. intros [Hs _]. discriminate.
Qed.

(** C1, as amended.  For a person whose surname and given name each keep
    a letter after normalization, born on a Gregorian date not after
    today, in a place the table knows, [compute_fiscal_code] without the
    [is_taken] hook returns 16 characters of [A-Z0-9] that
    [validate_fiscal_code] accepts; with the hook it returns such a code,
    not taken, or [CodeSpaceExhaustedError]. *)
Theorem compute_fiscal_code_round_trip (hook : option (text -> bool)) (p : PersonInput) :
  table_wf places ->
  normalize (last_name p) <> [] ->
  normalize (first_name p) <> [] ->
  valid_gregorian (birth_date p) = true ->
  date_ltb today (birth_date p) = false ->
  (exists e, lookup_place (birth_place p) (is_foreign_birth p) = Ok e) ->
  match hook with
  | None =>
      exists code, compute_fiscal_code None p = Ok code
                   /\ round_trips odd_value even_value code
  | Some is_taken =>
      (exists code, compute_fiscal_code (Some is_taken) p = Ok code
                    /\ round_trips odd_value even_value code
                    /\ is_taken code = false)
      \/ compute_fiscal_code (Some is_taken) p = Err CodeSpaceExhaustedError
  end.
Proof.
  intros Hwf Hl Hg Hv Hf [e He].
  assert (Hc : exists core, compose p = Ok core).
  { unfold Core.compose. rewrite (encode_surname_ok _ Hl).
    destruct (encode_given_name_ok _ Hg) as [gn ->]. simpl.
    rewrite (encode_date_ok _ _ _ Hv Hf), He. simpl. eauto. }
  destruct Hc as [core Hc]. pose proof (core_wf_valid _ (compose_wf _ _ Hwf Hc)) as Hcv.
  assert (Hgood : forall core', core_valid core' ->
                    round_trips odd_value even_value (with_check core')).
  { intros core' Hv'. split; [|split].
    - destruct Hv' as [Hlen _]. unfold Core.with_check. rewrite length_app, Hlen. reflexivity.
    - apply with_check_code_chars, Hv'.
    - apply validate_with_check, Hv'. }
  unfold Core.compute_fiscal_code. rewrite Hc. simpl.
  destruct hook as [is_taken|]; [|eauto].
  unfold Core.disambiguate. destruct (is_taken (with_check core)) eqn:Ht; [|left; eauto].
  rewrite with_check_take by apply Hcv.
  destruct (resolve is_taken scan_order core) as [code|e'] eqn:Hr.
  - left. apply resolve_ok in Hr as (core' & -> & Hfree & HR).
    exists (with_check core'). split; [reflexivity|]. split; [|assumption].
    apply Hgood. eapply core_valid_subst; eassumption.
  - right. rewrite (resolve_err_kind _ _ _ _ Hr). reflexivity.
Qed.

End WithTables.

(** *** The claims at concrete inputs *)

Lemma sample_places_wf : table_wf sample_places.
Proof. repeat constructor. Qed.

Lemma encode_given_name_rule_witness :
  encode_given_name (txt "Gianfranco") = Ok (txt "GFR").
Proof.
  apply (proj1 (proj2 (proj2 (encode_given_name_rule (txt "Gianfranco"))))
           "G"%char "N"%char "F"%char "R"%char (txt "NC")).
  vm_compute. reflexivity.
Defined.

Lemma day_field_by_sex_witness :
  exists cf,
    compute_fiscal_code sample_today sample_places official_odd official_even None
      (with_sex Female rossi_mario) = Ok cf
    /\ take 2 (drop 9 cf) = txt "55".
Proof.
  destruct (day_field_by_sex sample_today sample_places official_odd official_even
              rossi_mario sample_places_wf eq_refl eq_refl)
    as (_ & _ & _ & _ & H).
  destruct (H (txt "RSSMRA80A15H501I") eq_refl) as (cf & Hcf & _ & _ & _ & Hf & _).
  exists cf. split; [exact Hcf | exact Hf].
Defined.


(** With every code taken the seven digits of the sample code are
    replaced and the resolver gives up. *)
Example every_code_taken :
  disambiguate official_odd official_even (txt "RSSMRA80A01H501U") all_taken
  = Err CodeSpaceExhaustedError
  /\ fully_substituted (take 15 (txt "RSSMRA80A01H501U")) = txt "RSSMRAULALMHRLM".
Proof. split; reflexivity. Qed.

Lemma validate_fiscal_code_errors_witness :
  validate_fiscal_code official_odd official_even (txt "rssmra80a01h501u")
  = Err InvalidFormatError.
Proof.
  apply (proj1 (validate_fiscal_code_errors official_odd official_even
                  (txt "rssmra80a01h501u"))).
  right. exists "r"%char. split; [left | reflexivity].
Defined.

Lemma compute_fiscal_code_round_trip_witness :
  exists code,
    compute_fiscal_code sample_today sample_places official_odd official_even None
      rossi_mario = Ok code
    /\ round_trips official_odd official_even code.
Proof.
  apply (compute_fiscal_code_round_trip sample_today sample_places official_odd
           official_even None rossi_mario sample_places_wf).
  - vm_compute. discriminate.
  - vm_compute. discriminate.
  - reflexivity.
  - reflexivity.
  - eexists. vm_compute. reflexivity.
Defined.

(** C1, as stated, fails: a surname that is not empty but holds no
    letter is valid input, and the name encoder answers
    [EmptyNameError]. *)
Lemma valid_input_without_code :
  ~ (forall today places odd_value even_value p,
       table_wf places -> valid_person_input places p ->
       exists code,
         compute_fiscal_code today places odd_value even_value None p = Ok code
         /\ round_trips odd_value even_value code).
Proof.
  intros H.
  destruct (H sample_today sample_places official_odd official_even
              no_letter_surname sample_places_wf) as (code & Hc & _).
  - repeat split; try (vm_compute; discriminate).
    eexists. vm_compute. reflexivity.
  - vm_compute in Hc. discriminate Hc.
Qed.

(** The other way a valid input is refused: a birth after today. *)
Lemma future_birth_rejected :
  valid_person_input sample_places born_tomorrow
  /\ compute_fiscal_code sample_today sample_places official_odd official_even None
       born_tomorrow = Err InvalidDateError.
Proof.
  split; [|reflexivity].
  repeat split; try (vm_compute; discriminate).
  eexists. vm_compute. reflexivity.
Qed.

End CoreFacts.

(* ===================================================================== *)
(** ** Properties of the application *)
(* ===================================================================== *)

Module AppFacts.
Import Calendar App.

Local Open Scope string_scope.
Local Open Scope Z_scope.

(** *** Reasoning about view code *)

Lemma bind_inr {A B} (m : M A) (k : A -> M B) w w' b :
  bind m k w = (w', inr b) ->
  exists w1 a, m w = (w1, inr a) /\ k a w1 = (w', inr b).
Proof.
  unfold bind. destruct (m w) as [w1 [e|a]]; [discriminate|]. eauto.
Qed.

Lemma try_except_inr {A} (body : M A) (h : exn -> M A) w w' a :
  try_except body h w = (w', inr a) ->
  body w = (w', inr a) \/ exists w1 e, body w = (w1, inl e) /\ h e w1 = (w', inr a).
Proof.
  unfold try_except. destruct (body w) as [w1 [e|a']]; eauto.
Qed.

Ltac inv_bind H :=
  let w := fresh "w" in
  let a := fresh "a" in
  let E := fresh "E" in
  apply bind_inr in H as (w & a & E & H); cbv beta in H.

Tactic Notation "step_bind" hyp(H) "as" ident(w) ident(a) ident(E) :=
  apply bind_inr in H as (w & a & E & H); cbv beta in H.

Lemma reads_only_ret {A} (a : A) : reads_only (ret a).
Proof. intros w. reflexivity. Qed.

Lemma reads_only_lift {A} (r : exn + A) : reads_only (lift r).
Proof. intros w. reflexivity. Qed.

Lemma reads_only_gets {A} (f : world -> A) : reads_only (gets f).
Proof. intros w. reflexivity. Qed.

Lemma reads_only_bind {A B} (m : M A) (k : A -> M B) :
  reads_only m -> (forall a, reads_only (k a)) -> reads_only (bind m k).
Proof.
  intros Hm Hk w. unfold bind. specialize (Hm w).
  destruct (m w) as [w1 [e|a]]; simpl in *; subst; [reflexivity | apply Hk].
Qed.

Lemma reads_only_form_item req k : reads_only (form_item req k).
Proof. intros w. unfold form_item. destruct (form_get _ _); reflexivity. Qed.

Create HintDb reads.

#[local] Hint Resolve reads_only_ret reads_only_lift reads_only_gets
  reads_only_form_item : reads.

Ltac reads_only_tac :=
  repeat first
    [ progress eauto with reads
    | apply reads_only_bind; [|intros ?]
    | match goal with
      | |- reads_only (if ?b then _ else _) => destruct b
      | |- reads_only (match ?x with _ => _ end) => destruct x
      end ].

Lemma reads_only_form_date_or_none req k : reads_only (form_date_or_none req k).
Proof. unfold form_date_or_none. reads_only_tac. Qed.

Lemma reads_only_form_date_if_sent req k : reads_only (form_date_if_sent req k).
Proof. unfold form_date_if_sent. reads_only_tac. Qed.

#[local] Hint Resolve reads_only_form_date_or_none reads_only_form_date_if_sent : reads.

Lemma reads_only_guest_of_form req : reads_only (guest_of_form req).
Proof. unfold guest_of_form. reads_only_tac. Qed.

Lemma reads_only_guest_edited req g : reads_only (guest_edited req g).
Proof. unfold guest_edited. reads_only_tac. Qed.

Lemma form_item_inr req k w w' v :
  form_item req k w = (w', inr v) -> form_get (form req) k = Some v.
Proof.
  unfold form_item. destruct (form_get _ _); [|discriminate].
  intros [= _ ->]. reflexivity.
Qed.

Lemma guest_of_form_fiscal_code req w w' g :
  guest_of_form req w = (w', inr g) ->
  fiscal_code g = form_get (form req) "fiscal_code".
Proof.
  unfold guest_of_form. intros H. repeat inv_bind H.
  injection H as _ <-. simpl.
  match goal with
  | E : form_item req "fiscal_code" _ = _ |- _ => apply form_item_inr in E; rewrite E
  end.
  reflexivity.
Qed.

Lemma guest_edited_fiscal_code req g0 w w' g :
  guest_edited req g0 w = (w', inr g) ->
  fiscal_code g = form_get (form req) "fiscal_code" /\ id g = id g0.
Proof.
  unfold guest_edited. intros H. repeat inv_bind H.
  injection H as _ <-. simpl.
  match goal with
  | E : form_item req "fiscal_code" _ = _ |- _ => apply form_item_inr in E; rewrite E
  end.
  split; reflexivity.
Qed.

(** *** What a column keeps *)

Lemma substring_all (n : nat) (v : string) :
  (String.length v <= n)%nat -> substring 0 n v = v.
Proof.
  revert n. induction v as [|c v IH]; intros [|n] H; simpl in *;
    try reflexivity; try lia.
  rewrite IH by lia. reflexivity.
Qed.

Lemma length_substring_0 (n : nat) (v : string) :
  String.length (substring 0 n v) = Nat.min n (String.length v).
Proof.
  revert n. induction v as [|c v IH]; intros [|n]; simpl; try reflexivity.
  rewrite IH. reflexivity.
Qed.

Lemma prefix_substring_0 (n : nat) (v : string) :
  String.prefix (substring 0 n v) v = true.
Proof.
  revert n. induction v as [|c v IH]; intros [|n]; simpl; try reflexivity.
  destruct (ascii_dec c c) as [_|Hne]; [apply IH | contradiction].
Qed.

Lemma kept_as_sent (b : backend) (n : nat) (v : string) :
  b = SQLite \/ (String.length v <= n)%nat -> kept b n v = v.
Proof.
  intros [-> | H]; [reflexivity|]. destruct b; [apply substring_all, H | reflexivity].
Qed.

Lemma db_add_guest_inr g w w' i :
  db_add_guest g w = (w', inr i) ->
  guests (txn w') = (guests (txn w) ++ [with_id i (stored_guest (engine w) g)])%list.
Proof.
  unfold db_add_guest. destruct (driver_refuses _ _); [discriminate|].
  destruct (flush_guest_check _ _); [discriminate|].
  cbv zeta. destruct (bool_decide _); [discriminate|].
  intros [= <- <-]. reflexivity.
Qed.

Lemma guest_overflow_fiscal_code g :
  guest_overflow g = None -> too_long 16 (fiscal_code g) = false.
Proof.
  unfold guest_overflow. intros H.
  repeat match type of H with
         | context [if ?b then _ else _] => destruct b eqn:?; [discriminate H|]
         end.
  reflexivity.
Qed.

Lemma flush_guest_check_fiscal_code b g :
  flush_guest_check b g = None -> b = PostgreSQL ->
  too_long 16 (fiscal_code g) = false.
Proof.
  intros H ->. apply guest_overflow_fiscal_code. simpl in H.
  destruct (guest_overflow g); [discriminate H | reflexivity].
Qed.

Lemma db_add_guest_checked g w w' i :
  db_add_guest g w = (w', inr i) -> flush_guest_check (engine w) g = None.
Proof.
  unfold db_add_guest. destruct (driver_refuses _ _); [discriminate|].
  destruct (flush_guest_check _ _); [discriminate | reflexivity].
Qed.

Lemma db_add_guest_driver g w w' i :
  db_add_guest g w = (w', inr i) -> driver_refuses (engine w) (guest_texts g) = false.
Proof.
  unfold db_add_guest. destruct (driver_refuses _ _); [discriminate | reflexivity].
Qed.

Lemma db_update_guest_driver g w w' u :
  db_update_guest g w = (w', inr u) -> driver_refuses (engine w) (guest_texts g) = false.
Proof.
  unfold db_update_guest. destruct (driver_refuses _ _); [discriminate | reflexivity].
Qed.

Lemma db_update_guest_checked g w w' u :
  db_update_guest g w = (w', inr u) -> flush_guest_check (engine w) g = None.
Proof.
  unfold db_update_guest. destruct (driver_refuses _ _); [discriminate|].
  destruct (flush_guest_check _ _); [discriminate | reflexivity].
Qed.

Lemma db_update_guest_inr g w w' u :
  db_update_guest g w = (w', inr u) ->
  guests (txn w')
  = map (fun g' => if id g' =? id g then stored_guest (engine w) g else g')
      (guests (txn w)).
Proof.
  unfold db_update_guest. destruct (driver_refuses _ _); [discriminate|].
  destruct (flush_guest_check _ _); [discriminate|].
  intros [= <- _]. reflexivity.
Qed.

Lemma db_add_field_guests gid fname fvalue w :
  guests (txn (fst (db_add_field gid fname fvalue w))) = guests (txn w).
Proof.
  unfold db_add_field. destruct (driver_refuses _ _); [reflexivity|].
  destruct (flush_field_check _ _); [reflexivity|].
  cbv zeta. destruct (bool_decide _); reflexivity.
Qed.

Lemma add_custom_fields_guests req gid items w :
  guests (txn (fst (add_custom_fields req gid items w))) = guests (txn w).
Proof.
  revert w. induction items as [|[k v] items IH]; intros w; [reflexivity|].
  simpl. unfold bind at 1.
  set (step := if String.prefix "custom_field_" k then _ else _).
  assert (Hs : guests (txn (fst (step w))) = guests (txn w)).
  { subst step. destruct (String.prefix _ _); [|reflexivity].
    destruct (form_get _ _); [|reflexivity].
    destruct (_ && _); [apply db_add_field_guests | reflexivity]. }
  destruct (step w) as [w1 [e|[]]]; simpl in *; [exact Hs|].
  rewrite IH. exact Hs.
Qed.

Section Views.

Variable calculate_fiscal_code : json -> json -> json -> date -> json -> exn + json.
Variable check_expiring_permits : database -> date -> list Guest.
Variable str : exn -> string.

Local Abbreviation calc_fiscal_code := (calc_fiscal_code calculate_fiscal_code str).
Local Abbreviation new_guest_view := (new_guest_view str).
Local Abbreviation edit_guest_view := (edit_guest_view str).

(** *** The view of [/calculate_fiscal_code], case by case *)

Lemma calc_fiscal_code_dict (req : request) (m : gmap string json) (w : world) :
  get_json req = JDict m ->
  calc_fiscal_code req w =
    if negb (all (map (field m) required_fields)) then
      (w, inr (Json {[ "error" := JStr missing_data ]}))
    else
      match strptime (field m "birth_date") with
      | inl e => (w, inr (Json {[ "error" := JStr (str e) ]}))
      | inr d =>
          let w' := record_call (field m "last_name", field m "first_name",
                                 field m "gender", d, field m "birth_place") w in
          match calculate_fiscal_code (field m "last_name") (field m "first_name")
                  (field m "gender") d (field m "birth_place") with
          | inl e => (w', inr (Json {[ "error" := JStr (str e) ]}))
          | inr v => (w', inr (Json {[ "fiscal_code" := v ]}))
          end
      end.
Proof.
  intros H. unfold App.calc_fiscal_code. rewrite H.
  unfold dict_get, bind, ret. fold (field m "last_name") (field m "first_name")
    (field m "gender") (field m "birth_date") (field m "birth_place").
  change (map (field m) required_fields)
    with [field m "last_name"; field m "first_name"; field m "gender";
          field m "birth_date"; field m "birth_place"].
  destruct (negb (all _)); [reflexivity|].
  unfold try_except, calc_try, bind, lift, call_core, bind, modify, lift, ret.
  destruct (strptime (field m "birth_date")) as [e|d]; [reflexivity|].
  destruct (calculate_fiscal_code _ _ _ d _); reflexivity.
Qed.

Lemma calc_fiscal_code_not_dict (req : request) (w : world) :
  (forall m, get_json req <> JDict m) ->
  calc_fiscal_code req w = (w, inl (AttributeError "get")).
Proof.
  intros H. unfold App.calc_fiscal_code.
  destruct (get_json req) eqn:E; try reflexivity. exfalso. eapply H. reflexivity.
Qed.

Lemma absent_or_empty_falsy m k : absent_or_empty m k -> truthy (field m k) = false.
Proof.
  unfold field. intros [-> | (v & -> & Hv)]; [reflexivity | exact Hv].
Qed.

Lemma all_false_at (vs : list json) v : v ∈ vs -> truthy v = false -> all vs = false.
Proof.
  intros Hin Hv. apply not_true_is_false. intros Hall. unfold all in Hall.
  rewrite forallb_forall in Hall. apply list_elem_of_In in Hin.
  rewrite (Hall v Hin) in Hv. discriminate.
Qed.

Lemma login_required_denied {A} (f : A -> M response) (a : A) (w : world) :
  "logged_in" ∉ dom (session w) -> login_required f a w = denied w.
Proof.
  intros H. unfold login_required, bind, gets.
  rewrite bool_decide_eq_true_2 by assumption. reflexivity.
Qed.

(** C9, as amended.  When the JSON body of a request is an object in
    which one of the five fields is absent or empty, the view answers with
    a JSON object that has an ['error'] key; when the body is no object
    ([null], a list, a string, a number) the view raises [AttributeError]
    and gives no answer.  Either way the world is left as it was, so
    [calculate_fiscal_code] has not been invoked. *)
Theorem incomplete_request_rejected (req : request) (w : world) :
  incomplete (get_json req) ->
  match get_json req with
  | JDict m =>
      calc_fiscal_code req w = (w, inr (Json {[ "error" := JStr missing_data ]}))
      /\ is_Some (({[ "error" := JStr missing_data ]} : gmap string json) !! "error")
  | _ => calc_fiscal_code req w = (w, inl (AttributeError "get"))
  end
  /\ core_calls (fst (calc_fiscal_code req w)) = core_calls w.
Proof.
  intros Hi.
  destruct (get_json req) as [| | | | | |m] eqn:Hd;
    try (rewrite calc_fiscal_code_not_dict by (intros ?; rewrite Hd; discriminate);
         split; reflexivity).
  destruct Hi as (k & Hk & Ha).
  assert (E : calc_fiscal_code req w
              = (w, inr (Json {[ "error" := JStr missing_data ]}))).
  { rewrite (calc_fiscal_code_dict _ _ _ Hd).
    rewrite (all_false_at _ (field m k)); [reflexivity | | ].
    - apply list_elem_of_fmap. exists k. auto.
    - apply absent_or_empty_falsy, Ha. }
  split; [|rewrite E; reflexivity]. split; [exact E|].
  rewrite lookup_singleton_eq. eauto.
Qed.

(** C10.  Without ['logged_in'] in the session each of [dashboard],
    [new_guest], [archive], [guest_detail], [edit_guest] and
    [delete_guest] flashes 'Accesso richiesto' and redirects to [login],
    whatever the request; [calc_fiscal_code] has no such decorator: it
    never answers with that redirect and its outcome is the same under
    every session. *)
Theorem guest_routes_require_login (req : request) (gid : Z) (w : world) :
  "logged_in" ∉ dom (session w) ->
  dashboard check_expiring_permits req w = denied w
  /\ new_guest str req w = denied w
  /\ archive req w = denied w
  /\ guest_detail (req, gid) w = denied w
  /\ edit_guest str (req, gid) w = denied w
  /\ delete_guest str (req, gid) w = denied w
  /\ snd (calc_fiscal_code req w) <> inr (Redirect "login" [])
  /\ forall s,
       calc_fiscal_code req (set_session s w)
       = (set_session s (fst (calc_fiscal_code req w)), snd (calc_fiscal_code req w)).
Proof.
  intros H.
  do 6 (split; [apply login_required_denied, H|]).
  destruct (get_json req) as [| | | | | |m] eqn:E;
    try (split; [| intros sess];
         rewrite !calc_fiscal_code_not_dict by (intros ?; rewrite E; discriminate);
         [discriminate | reflexivity]).
  split.
  - rewrite (calc_fiscal_code_dict _ _ _ E).
    repeat match goal with
           | |- context [match ?x with _ => _ end] => destruct x
           end; discriminate.
  - intros sess. rewrite !(calc_fiscal_code_dict _ _ _ E).
    repeat match goal with
           | |- context [match ?x with _ => _ end] => destruct x
           end; reflexivity.
Qed.

Lemma calc_fiscal_code_reads_five (req req' : request) (m m' : gmap string json)
    (w : world) :
  get_json req = JDict m -> get_json req' = JDict m' ->
  (forall k, k ∈ required_fields -> m !! k = m' !! k) ->
  calc_fiscal_code req w = calc_fiscal_code req' w.
Proof.
  intros H H' Hk. rewrite (calc_fiscal_code_dict _ _ _ H), (calc_fiscal_code_dict _ _ _ H').
  assert (F : forall k, k ∈ required_fields -> field m k = field m' k).
  { intros k Hin. unfold field. rewrite (Hk k Hin). reflexivity. }
  unfold required_fields in *. simpl map.
  rewrite !(F "last_name"), !(F "first_name"), !(F "gender"), !(F "birth_date"),
    !(F "birth_place") by set_solver.
  reflexivity.
Qed.

Lemma strptime_failure_class v e :
  strptime v = inl e -> exn_class e = "TypeError" \/ exn_class e = "ValueError".
Proof.
  unfold strptime, strptime_str. destruct v; try (intros [= <-]; auto).
  destruct (match_ymd _) as [[[[y mo] d] rest]|]; [|intros [= <-]; auto].
  destruct rest; [|intros [= <-]; auto].
  destruct (valid_datetime _); [discriminate | intros [= <-]; auto].
Qed.

Lemma not_typed_failure e :
  exn_class e = "TypeError" \/ exn_class e = "ValueError" -> ~ is_typed_failure e.
Proof.
  unfold is_typed_failure. intros [-> | ->]; apply (bool_decide_eq_false_1 _); reflexivity.
Qed.

(** C4, as amended.  The view reads five fields of the JSON object,
    [last_name], [first_name], [gender], [birth_date] and [birth_place]:
    two objects that agree on them get the same outcome, and the outcome
    is a JSON object with a ['fiscal_code'] or an ['error'] key. *)
Theorem calc_fiscal_code_five_inputs (req req' : request) (m m' : gmap string json)
    (w : world) :
  get_json req = JDict m -> get_json req' = JDict m' ->
  (forall k, k ∈ required_fields -> m !! k = m' !! k) ->
  calc_fiscal_code req w = calc_fiscal_code req' w
  /\ exists w' body,
       calc_fiscal_code req w = (w', inr (Json body))
       /\ (is_Some (body !! "fiscal_code") \/ is_Some (body !! "error")).
Proof.
  intros H H' Hk. split; [eapply calc_fiscal_code_reads_five; eassumption|].
  rewrite (calc_fiscal_code_dict _ _ _ H).
  repeat match goal with
         | |- context [match ?x with _ => _ end] => destruct x
         end;
    eexists _, _; (split; [reflexivity|]); rewrite lookup_singleton_eq; eauto.
Qed.

(** C3, as amended.  With the five fields present, a [birth_date] that
    [strptime] refuses is answered by [{'error': str(e)}] for an exception
    [e] of class [TypeError] or [ValueError], none of the typed kinds, and
    the core is not invoked; otherwise the core is invoked once and what
    it raises is answered the same way, what it returns under
    ['fiscal_code'].  The core as specified fails with [EmptyNameError],
    [InvalidDateError], [UnknownPlaceError] or [CodeSpaceExhaustedError]
    only. *)
Theorem calc_failures_reported (req : request) (m : gmap string json) (w : world) :
  get_json req = JDict m ->
  all (map (field m) required_fields) = true ->
  match strptime (field m "birth_date") with
  | inl e =>
      calc_fiscal_code req w = (w, inr (Json {[ "error" := JStr (str e) ]}))
      /\ ~ is_typed_failure e
  | inr d =>
      let w' := record_call (field m "last_name", field m "first_name",
                             field m "gender", d, field m "birth_place") w in
      match calculate_fiscal_code (field m "last_name") (field m "first_name")
              (field m "gender") d (field m "birth_place") with
      | inl e => calc_fiscal_code req w = (w', inr (Json {[ "error" := JStr (str e) ]}))
      | inr v => calc_fiscal_code req w = (w', inr (Json {[ "fiscal_code" := v ]}))
      end
  end
  /\ forall today places odd_value even_value hook p e,
       Core.compute_fiscal_code today places odd_value even_value hook p = Core.Err e ->
       e ∈ [Core.EmptyNameError; Core.InvalidDateError; Core.UnknownPlaceError;
            Core.CodeSpaceExhaustedError].
Proof.
  intros H Hall. split; [|apply CoreFacts.compute_fiscal_code_error_kinds].
  rewrite (calc_fiscal_code_dict _ _ _ H), Hall. simpl negb. cbv iota.
  destruct (strptime (field m "birth_date")) as [e|d] eqn:Hs.
  - split; [reflexivity|]. apply not_typed_failure, (strptime_failure_class _ _ Hs).
  - cbv zeta. destruct (calculate_fiscal_code _ _ _ d _); reflexivity.
Qed.

Lemma new_guest_view_saved (req : request) (w w' : world) :
  new_guest_view req w = (w', inr (Redirect "archive" [])) ->
  (exists g, guests (committed w') = (guests (txn w) ++ [g])%list
             /\ fiscal_code g = kept (engine w) 16 <$> form_get (form req) "fiscal_code")
  /\ (engine w = PostgreSQL -> too_long 16 (form_get (form req) "fiscal_code") = false).
Proof.
  unfold App.new_guest_view. intros H.
  step_bind H as w0 all_guests Eq. injection Eq as <- <-.
  step_bind H as w1 r Etry.
  destruct r as [resp|]; [|discriminate H].
  destruct (method req); [discriminate Etry|].
  apply try_except_inr in Etry as [E | (w2 & e & _ & E)].
  - injection H as <- _.
    step_bind E as wa g Eg. step_bind E as wb i Eadd. step_bind E as wc u1 Ec1.
    step_bind E as wd u2 Ecf. step_bind E as we u3 Ec2. step_bind E as wf u4 Efl.
    injection E as <- _.
    pose proof (reads_only_guest_of_form req w) as R. rewrite Eg in R. simpl in R. subst wa.
    apply guest_of_form_fiscal_code in Eg.
    pose proof (db_add_guest_checked _ _ _ _ Eadd) as Hchk.
    apply db_add_guest_inr in Eadd.
    injection Ec1 as <- _. injection Ec2 as <- _. injection Efl as <- _.
    pose proof (add_custom_fields_guests req i (form_items req)
                  (set_committed (txn wb) wb)) as G.
    rewrite Ecf in G. simpl in G.
    split.
    + exists (with_id i (stored_guest (engine w) g)).
      split; [|simpl; rewrite Eg; reflexivity].
      simpl. rewrite G. exact Eadd.
    + intros Hpg. rewrite <- Eg. exact (flush_guest_check_fiscal_code _ _ Hchk Hpg).
  - unfold bind, db_rollback, flash, modify, ret in E. discriminate E.
Qed.

Lemma get_or_404_inr gid w w' g :
  get_or_404 gid w = (w', inr g) -> w' = w /\ g ∈ guests (txn w) /\ id g = gid.
Proof.
  unfold get_or_404, bind, query_guests, gets.
  destruct (find _ _) as [g'|] eqn:F; [|discriminate].
  intros [= <- <-]. apply find_some in F as [Hin Hid].
  split; [reflexivity|]. split; [apply list_elem_of_In, Hin | lia].
Qed.

Lemma edit_guest_view_saved (req : request) (gid : Z) (w w' : world) :
  edit_guest_view (req, gid) w
    = (w', inr (Redirect "guest_detail" [("guest_id", gid)])) ->
  (exists g, g ∈ guests (committed w') /\ id g = gid)
  /\ (forall g, g ∈ guests (committed w') -> id g = gid ->
        fiscal_code g = kept (engine w) 16 <$> form_get (form req) "fiscal_code")
  /\ (engine w = PostgreSQL -> too_long 16 (form_get (form req) "fiscal_code") = false).
Proof.
  unfold App.edit_guest_view. intros H.
  step_bind H as w0 guest Eg0. apply get_or_404_inr in Eg0 as (-> & Hin & Hid).
  step_bind H as w1 cfs Ecfs. injection Ecfs as <- <-.
  step_bind H as w2 all_guests Eq. injection Eq as <- <-.
  step_bind H as w3 r Etry.
  destruct r as [resp|]; [|discriminate H].
  destruct (method req); [discriminate Etry|].
  apply try_except_inr in Etry as [E | (w4 & e & _ & E)].
  - injection H as <- _.
    step_bind E as wa g Eg. step_bind E as wb u1 Eup. step_bind E as wc u2 Edel.
    step_bind E as wd u3 Ecf. step_bind E as we u4 Ec. step_bind E as wf u5 Efl.
    injection E as <- _.
    pose proof (reads_only_guest_edited req guest w) as R. rewrite Eg in R.
    simpl in R. subst wa.
    apply guest_edited_fiscal_code in Eg as [Hfc Hsame].
    pose proof (db_update_guest_checked _ _ _ _ Eup) as Hchk.
    apply db_update_guest_inr in Eup.
    injection Edel as <- _. injection Ec as <- _. injection Efl as <- _.
    pose proof (add_custom_fields_guests req (id g) (form_items req)
                  (set_txn
                     {| guests := guests (txn wb);
                        custom_fields :=
                          filter (fun c => guest_id c <> gid) (custom_fields (txn wb));
                        settings := settings (txn wb) |} wb)) as G.
    rewrite Ecf in G. simpl in G. simpl. rewrite G, Eup. split; [|split].
    3: { intros Hpg. rewrite <- Hfc. exact (flush_guest_check_fiscal_code _ _ Hchk Hpg). }
    + exists (stored_guest (engine w) g). split; [|simpl; congruence].
      apply list_elem_of_fmap. exists guest. split; [|exact Hin].
      rewrite Hsame, Z.eqb_refl. reflexivity.
    + intros g1 Hg Hgid. apply list_elem_of_fmap in Hg as (g0 & -> & Hg0).
      destruct (id g0 =? id g) eqn:Hq; [simpl; rewrite Hfc; reflexivity|].
      apply Z.eqb_neq in Hq. congruence.
  - unfold bind, db_rollback, flash, modify, ret in E. discriminate E.
Qed.

(** C2, as amended.  The views do not check the fiscal code a user
    enters: the guest that [new_guest] saves, and the guest that
    [edit_guest] updates, hold the ['fiscal_code'] field of the form as
    the engine keeps a value of a [String(16)] column, whatever the
    validator would answer.  SQLite keeps the value as sent; PostgreSQL
    keeps it as sent when it has at most 16 characters and its first 16
    otherwise, and the views save there only values that fit: of at most
    16 characters, or with spaces alone after the 16th. *)
Theorem fiscal_code_stored_unchecked (req : request) (gid : Z) (w w' : world) :
  (new_guest_view req w = (w', inr (Redirect "archive" [])) ->
   (exists g, guests (committed w') = (guests (txn w) ++ [g])%list
              /\ fiscal_code g = kept (engine w) 16 <$> form_get (form req) "fiscal_code")
   /\ (engine w = PostgreSQL -> too_long 16 (form_get (form req) "fiscal_code") = false))
  /\ (edit_guest_view (req, gid) w
        = (w', inr (Redirect "guest_detail" [("guest_id", gid)])) ->
      (exists g, g ∈ guests (committed w') /\ id g = gid)
      /\ (forall g, g ∈ guests (committed w') -> id g = gid ->
            fiscal_code g = kept (engine w) 16 <$> form_get (form req) "fiscal_code")
      /\ (engine w = PostgreSQL ->
            too_long 16 (form_get (form req) "fiscal_code") = false))
  /\ (forall v, kept SQLite 16 v = v)
  /\ (forall v, (String.length v <= 16)%nat -> kept PostgreSQL 16 v = v)
  /\ (forall v, String.length (kept PostgreSQL 16 v) = Nat.min 16 (String.length v)
                /\ String.prefix (kept PostgreSQL 16 v) v = true).
Proof.
  split; [apply new_guest_view_saved|]. split; [apply edit_guest_view_saved|].
  split; [reflexivity|]. split; [intros v Hv; apply substring_all, Hv|].
  intros v. split; [apply length_substring_0 | apply prefix_substring_0].
Qed.

End Views.

(** C2, as stated, fails: [new_guest] stores the fiscal code ["abc"] of
    the form, which the validator refuses. *)
Lemma invalid_fiscal_code_stored :
  ~ (forall str odd_value even_value req w w' r g,
       new_guest str req w = (w', r) ->
       g ∈ guests (committed w') -> g ∉ guests (committed w) ->
       stored_code_valid odd_value even_value g).
Proof.
  intros H.
  destruct (H sample_str Core.official_odd Core.official_even sample_post
              (logged_in_world PostgreSQL)
              (fst (new_guest sample_str sample_post (logged_in_world PostgreSQL)))
              (snd (new_guest sample_str sample_post (logged_in_world PostgreSQL)))
              sample_guest) as (fc & Hfc & Hv).
  - destruct (new_guest _ _ _); reflexivity.
  - vm_compute. left.
  - vm_compute. apply not_elem_of_nil.
  - injection Hfc as <-. vm_compute in Hv. discriminate Hv.
Qed.

Lemma fiscal_code_stored_unchecked_witness :
  exists g,
    guests (committed (fst (new_guest_view sample_str sample_post
                              (logged_in_world PostgreSQL))))
    = [g]
    /\ fiscal_code g = Some "abc".
Proof.
  apply (proj1 (fiscal_code_stored_unchecked sample_str sample_post 0
                  (logged_in_world PostgreSQL)
                  (fst (new_guest_view sample_str sample_post
                          (logged_in_world PostgreSQL))))).
  vm_compute. reflexivity.
Defined.

(** C4, as stated, fails: no collaborator, request, value or world makes
    an [is_foreign_birth] entry of the request change the outcome; the
    view has five inputs. *)
Lemma is_foreign_birth_not_an_input :
  ~ (exists calc str m v w,
       calc_fiscal_code calc str
         (json_request (JDict (<["is_foreign_birth" := v]> m))) w
       <> calc_fiscal_code calc str (json_request (JDict m)) w).
Proof.
  intros (calc & str & m & v & w & Hne). apply Hne.
  eapply calc_fiscal_code_reads_five; [reflexivity | reflexivity |].
  intros k Hk. apply lookup_insert_ne. intros <-.
  revert Hk. apply (bool_decide_eq_false_1 _). reflexivity.
Qed.

Lemma calc_fiscal_code_five_inputs_witness :
  calc_fiscal_code sample_core sample_str
    (json_request (JDict (<["is_foreign_birth" := JBool true]> complete_fields)))
    (fresh_world SQLite)
  = calc_fiscal_code sample_core sample_str (json_request (JDict complete_fields))
      (fresh_world SQLite).
Proof.
  apply (calc_fiscal_code_five_inputs sample_core sample_str
           (json_request (JDict (<["is_foreign_birth" := JBool true]> complete_fields)))
           (json_request (JDict complete_fields)) _ _ (fresh_world SQLite)
           eq_refl eq_refl).
  intros k Hk. apply lookup_insert_ne. intros <-.
  revert Hk. apply (bool_decide_eq_false_1 _). reflexivity.
Defined.

(** C3, as stated, fails: even with a core that raises typed failures
    only, the computation of the entry point fails with a [ValueError] on
    a date written day first. *)
Lemma malformed_date_raises_value_error :
  ~ (forall calc ln fn ge bd bp w w' e,
       (forall a b c d x e', calc a b c d x = inl e' -> is_typed_failure e') ->
       calc_try calc ln fn ge bd bp w = (w', inl e) ->
       is_typed_failure e).
Proof.
  intros H.
  specialize (H sample_core (JStr "Rossi") (JStr "Mario") (JStr "M")
                (JStr "15/01/1980") (JStr "Roma") (fresh_world SQLite)
                (fresh_world SQLite) (ValueError_format "15/01/1980")).
  apply (not_typed_failure (ValueError_format "15/01/1980")).
  - right. reflexivity.
  - apply H; [discriminate | reflexivity].
Qed.

Lemma calc_failures_reported_witness :
  calc_fiscal_code sample_core sample_str (json_request (JDict day_first_fields))
    (fresh_world SQLite)
  = (fresh_world SQLite, inr (Json {[ "error" := JStr "ValueError" ]})).
Proof.
  apply (calc_failures_reported sample_core sample_str
           (json_request (JDict day_first_fields)) day_first_fields
           (fresh_world SQLite) eq_refl eq_refl).
Defined.

(** C9, as stated, fails: the body [null] has none of the five fields,
    and the view raises instead of answering with an ['error'] object. *)
Lemma non_object_body_raises :
  ~ (forall calc str req w,
       incomplete (get_json req) ->
       exists w' body,
         calc_fiscal_code calc str req w = (w', inr (Json body))
         /\ is_Some (body !! "error")).
Proof.
  intros H.
  destruct (H sample_core sample_str (json_request JNull) (fresh_world SQLite) I)
    as (w' & body & E & _).
  discriminate E.
Qed.

Lemma incomplete_request_rejected_witness :
  calc_fiscal_code sample_core sample_str
    (json_request (JDict (delete "gender" complete_fields))) (fresh_world SQLite)
  = (fresh_world SQLite, inr (Json {[ "error" := JStr missing_data ]})).
Proof.
  apply (incomplete_request_rejected sample_core sample_str
           (json_request (JDict (delete "gender" complete_fields)))
           (fresh_world SQLite)).
  exists "gender". split.
  - apply (bool_decide_unpack _). reflexivity.
  - left. apply lookup_delete_eq.
Defined.

Lemma guest_routes_require_login_witness :
  new_guest sample_str sample_post (fresh_world SQLite) = denied (fresh_world SQLite).
Proof.
  apply (guest_routes_require_login sample_core (fun _ _ => []) sample_str
           sample_post 0 (fresh_world SQLite)).
  apply (bool_decide_unpack _). reflexivity.
Defined.

End AppFacts.

(* ===================================================================== *)
(** ** Further properties of the application *)
(* ===================================================================== *)

Module AppMore.
Import Calendar App AppFacts.

Local Open Scope string_scope.
Local Open Scope Z_scope.

(** *** Logging in and out *)

Lemma login_required_allowed {A} (f : A -> M response) (a : A) (w : world) :
  logged_in w -> login_required f a w = f a w.
Proof.
  unfold logged_in. intros H. unfold login_required, bind, gets.
  rewrite bool_decide_eq_false_2; [reflexivity|]. intros Hn. contradiction.
Qed.

Lemma refuses_iff (w : world) : refuses w <-> ~ logged_in w.
Proof.
  split.
  - intros Hr Hl. specialize (Hr unit (fun _ => ret (Render "" [])) tt).
    rewrite login_required_allowed in Hr by exact Hl. discriminate Hr.
  - intros Hn A f a. apply login_required_denied. exact Hn.
Qed.

Lemma admits_iff (w : world) : admits w <-> logged_in w.
Proof.
  split.
  - intros Ha. destruct (decide ("logged_in" ∈ dom (session w))) as [H|H]; [exact H|].
    specialize (Ha unit (fun _ => ret (Render "" [])) tt).
    rewrite login_required_denied in Ha by exact H. discriminate Ha.
  - intros Hl A f a. apply login_required_allowed. exact Hl.
Qed.

Lemma login_post (req : request) (w : world) :
  method req = POST ->
  login req w =
    if bool_decide (form_get (form req) "password" = stored_password (txn w)) then
      (set_flashes (flashes w ++ [("Accesso effettuato con successo", "success")])
         (set_session (<["logged_in" := JBool true]> (session w)) w),
       inr (Redirect "dashboard" []))
    else
      (set_flashes (flashes w ++ [("Password non corretta", "danger")]) w,
       inr (Render "login.html" [])).
Proof.
  intros Hm. unfold login. rewrite Hm. unfold bind, gets. simpl.
  change (match find (fun st => (key st =? "password")%string) (settings (txn w)) with
          | Some st => value st
          | None => Some "ancoracas25"
          end) with (stored_password (txn w)).
  destruct (bool_decide _); reflexivity.
Qed.

Lemma login_get (req : request) (w : world) :
  method req = GET -> login req w = (w, inr (Render "login.html" [])).
Proof. intros Hm. unfold login. rewrite Hm. reflexivity. Qed.

(** X1.  A POST to [login] with the stored password (the first
    ['password'] row, or 'ancoracas25' when there is none) redirects to
    the dashboard and marks the session; from then on every guarded view
    runs its body and [index] leads to the dashboard.  The database is not
    touched. *)
Theorem login_admits (req : request) (w : world) :
  method req = POST ->
  form_get (form req) "password" = stored_password (txn w) ->
  exists w',
    login req w = (w', inr (Redirect "dashboard" []))
    /\ session w' = <["logged_in" := JBool true]> (session w)
    /\ committed w' = committed w /\ txn w' = txn w
    /\ admits w'
    /\ forall req', index req' w' = (w', inr (Redirect "dashboard" [])).
Proof.
  intros Hm Hp. rewrite (login_post _ _ Hm), bool_decide_eq_true_2 by exact Hp.
  eexists. split; [reflexivity|]. simpl.
  assert (L : "logged_in" ∈ dom (<["logged_in" := JBool true]> (session w))).
  { apply elem_of_dom. rewrite lookup_insert_eq. eauto. }
  repeat split.
  - intros A f a. apply login_required_allowed. exact L.
  - intros req'. unfold index, bind, gets. simpl.
    rewrite bool_decide_eq_true_2 by exact L. reflexivity.
Qed.

(** X2.  [login] redirects to the dashboard only for a POST whose password
    is the stored one; in every other case it renders the login page and
    leaves the session and the database as they were, so a client the
    guarded views refused is still refused. *)
Theorem login_refuses (req : request) (w : world) :
  (snd (login req w) = inr (Redirect "dashboard" []) <->
     method req = POST /\ form_get (form req) "password" = stored_password (txn w))
  /\ (snd (login req w) <> inr (Redirect "dashboard" []) ->
      snd (login req w) = inr (Render "login.html" [])
      /\ session (fst (login req w)) = session w
      /\ committed (fst (login req w)) = committed w
      /\ txn (fst (login req w)) = txn w
      /\ (refuses w -> refuses (fst (login req w)))).
Proof.
  destruct (method req) eqn:Hm.
  - rewrite (login_get _ _ Hm). simpl. split.
    + split; [discriminate | intros [? _]; discriminate].
    + intros _. repeat split. auto.
  - rewrite (login_post _ _ Hm).
    destruct (bool_decide _) eqn:Hb; simpl.
    + apply bool_decide_eq_true in Hb. split; [tauto|]. intros Hn. contradiction.
    + apply bool_decide_eq_false in Hb. split.
      * split; [discriminate | intros [_ ?]; contradiction].
      * intros _. repeat split. rewrite !refuses_iff. auto.
Qed.

(** X3.  [logout] redirects to [login] and removes ['logged_in'] from the
    session, keeping its other entries and the database: afterwards every
    guarded view refuses the client and [index] leads to [login]. *)
Theorem logout_refuses (req : request) (w : world) :
  exists w',
    logout req w = (w', inr (Redirect "login" []))
    /\ session w' = delete "logged_in" (session w)
    /\ committed w' = committed w /\ txn w' = txn w
    /\ refuses w'
    /\ forall req', index req' w' = (w', inr (Redirect "login" [])).
Proof.
  eexists. split; [reflexivity|]. simpl.
  assert (L : "logged_in" ∉ dom (delete "logged_in" (session w))).
  { rewrite elem_of_dom, lookup_delete_eq. intros [? ?]. discriminate. }
  repeat split.
  - apply refuses_iff. exact L.
  - intros req'. unfold index, bind, gets. simpl.
    rewrite bool_decide_eq_false_2 by exact L. reflexivity.
Qed.

(** X4.  Logging in and out again gives back the session the client had
    before, when it was not logged in. *)
Theorem login_logout_session (req req' : request) (w w1 : world) :
  ~ logged_in w ->
  login req w = (w1, inr (Redirect "dashboard" [])) ->
  session (fst (logout req' w1)) = session w
  /\ committed (fst (logout req' w1)) = committed w.
Proof.
  intros Hn Hl. destruct (method req) eqn:Hm.
  - rewrite (login_get _ _ Hm) in Hl. discriminate Hl.
  - rewrite (login_post _ _ Hm) in Hl. destruct (bool_decide _); [|discriminate Hl].
    injection Hl as <-. simpl. split; [|reflexivity].
    rewrite delete_insert_eq. apply delete_id.
    apply not_elem_of_dom. exact Hn.
Qed.

(** *** The password row *)

Lemma password_row_set (v : string) (d : database) :
  password_row (with_settings (set_first_password v (settings d)) d)
  = (fun st => {| setting_id := setting_id st; key := key st; value := Some v |})
      <$> password_row d.
Proof.
  unfold password_row. simpl. induction (settings d) as [|st l IH]; [reflexivity|].
  simpl. destruct (String.eqb (key st) "password") eqn:E; simpl; rewrite E; [reflexivity|].
  exact IH.
Qed.

Lemma password_row_added (d : database) (row : Setting) :
  password_row d = None -> key row = "password" ->
  password_row (with_settings (settings d ++ [row]) d) = Some row.
Proof.
  unfold password_row. simpl. intros Hn Hk.
  induction (settings d) as [|st l IH]; simpl in *.
  - rewrite Hk. reflexivity.
  - destruct (String.eqb (key st) "password"); [discriminate|]. apply IH, Hn.
Qed.

Lemma stored_password_set (v : string) (d : database) :
  is_Some (password_row d) ->
  stored_password (with_settings (set_first_password v (settings d)) d) = Some v.
Proof.
  intros [st Hst]. unfold stored_password. rewrite password_row_set, Hst. reflexivity.
Qed.

Lemma login_succeeds_iff (req : request) (w : world) :
  method req = POST ->
  snd (login req w) = inr (Redirect "dashboard" [])
  <-> form_get (form req) "password" = stored_password (txn w).
Proof.
  intros Hm. rewrite (login_post _ _ Hm). destruct (bool_decide _) eqn:Hb; simpl.
  - apply bool_decide_eq_true in Hb. tauto.
  - apply bool_decide_eq_false in Hb. split; [discriminate | contradiction].
Qed.

Section Settings.

Variable str : exn -> string.

Local Abbreviation settings_view := (settings_view str).

(** X5.  A POST to [settings] whose new password is not empty and equals
    its confirmation commits it as the stored password, creating the row
    when there is none, provided the engine takes the value (SQLite takes
    every text, PostgreSQL those without a NUL character): afterwards
    [login] accepts exactly that password, and guests, custom fields and
    the session are as before.  A password that the engine refuses is
    caught: the session is rolled back, the error flashed and the settings
    page rendered, with nothing committed. *)
Theorem password_change_takes_effect (req : request) (w : world) (np : string) :
  method req = POST ->
  form_get (form req) "new_password" = Some np ->
  np <> "" ->
  form_get (form req) "confirm_password" = Some np ->
  (driver_refuses (engine w) [np] = false ->
   exists w',
     settings_view req w = (w', inr (Redirect "settings" []))
     /\ stored_password (committed w') = Some np
     /\ txn w' = committed w'
     /\ guests (committed w') = guests (txn w)
     /\ custom_fields (committed w') = custom_fields (txn w)
     /\ session w' = session w
     /\ forall req', method req' = POST ->
          (snd (login req' w') = inr (Redirect "dashboard" [])
           <-> form_get (form req') "password" = Some np))
  /\ (driver_refuses (engine w) [np] = true ->
      exists e,
        settings_view req w
        = (set_flashes
             (flashes w ++ [("Errore durante il salvataggio delle impostazioni: "
                             ++ str e, "danger")])
             (set_txn (committed w) w),
           inr (Render "settings.html" [("form", CForm "SettingsForm")]))).
Proof.
  intros Hm Hn Hne Hc. unfold App.settings_view. rewrite Hm, Hn, Hc.
  assert (Hs : sent (Some np) = true).
  { simpl. unfold nonempty. apply negb_true_iff, String.eqb_neq, Hne. }
  rewrite Hs. rewrite bool_decide_eq_false_2 by (intros H; apply H; reflexivity).
  unfold bind, try_except, gets, db_set_password, db_commit, db_rollback, flash,
    modify, ret.
  destruct (password_row (txn w)) as [st|] eqn:Hrow.
  - destruct (driver_refuses (engine w) [np]) eqn:Hd;
      (split; intros Hx; [try discriminate Hx | try discriminate Hx]);
      [eexists; reflexivity|].
    eexists. split; [reflexivity|]. simpl.
    assert (E : stored_password (with_settings (set_first_password np (settings (txn w)))
                                   (txn w)) = Some np).
    { apply stored_password_set. rewrite Hrow. eauto. }
    split; [exact E|]. do 4 (split; [reflexivity|]).
    intros req' Hm'. rewrite (login_succeeds_iff _ _ Hm').
    match goal with
    | |- _ = ?x <-> _ => assert (Ex : x = Some np) by exact E; rewrite Ex
    end.
    reflexivity.
  - unfold db_add_default_password, modify. cbv beta iota zeta.
    change (engine (set_txn ?d w)) with (engine w).
    destruct (driver_refuses (engine w) [np]) eqn:Hd;
      (split; intros Hx; [try discriminate Hx | try discriminate Hx]);
      [eexists; reflexivity|].
    eexists. split; [reflexivity|]. simpl.
    set (row := {| setting_id := _; key := "password"; value := Some DEFAULT_PASSWORD |}).
    assert (E : stored_password
                  (with_settings
                     (set_first_password np (settings (txn w) ++ [row])) (txn w))
                = Some np).
    { change (with_settings (set_first_password np (settings (txn w) ++ [row])) (txn w))
        with (with_settings
                (set_first_password np
                   (settings (with_settings (settings (txn w) ++ [row]) (txn w))))
                (with_settings (settings (txn w) ++ [row]) (txn w))).
      apply stored_password_set. rewrite (password_row_added _ row Hrow); eauto. }
    split; [exact E|]. do 4 (split; [reflexivity|]).
    intros req' Hm'. rewrite (login_succeeds_iff _ _ Hm').
    match goal with
    | |- _ = ?x <-> _ => assert (Ex : x = Some np) by exact E; rewrite Ex
    end.
    reflexivity.
Qed.

(** X6.  [settings] changes the password in no other case: a GET, a POST
    with no or an empty new password, or one whose confirmation differs,
    leaves the database and the session as they were. *)
Theorem password_kept (req : request) (w : world) :
  ~ (method req = POST
     /\ sent (form_get (form req) "new_password") = true
     /\ form_get (form req) "new_password" = form_get (form req) "confirm_password") ->
  committed (fst (settings_view req w)) = committed w
  /\ txn (fst (settings_view req w)) = txn w
  /\ session (fst (settings_view req w)) = session w
  /\ (method req = POST ->
      snd (settings_view req w) = inr (Redirect "settings" []))
  /\ (method req = GET ->
      settings_view req w = (w, inr (Render "settings.html" [("form", CForm "SettingsForm")]))).
Proof.
  intros Hn. unfold App.settings_view. destruct (method req) eqn:Hm.
  - repeat split; try reflexivity. discriminate.
  - destruct (form_get (form req) "new_password") as [np|] eqn:Hnew;
      [|repeat split; try reflexivity; discriminate].
    destruct (sent (Some np)) eqn:Hs; [|repeat split; try reflexivity; discriminate].
    destruct (bool_decide (Some np <> form_get (form req) "confirm_password")) eqn:Hb.
    + repeat split; try reflexivity. discriminate.
    + apply bool_decide_eq_false in Hb. exfalso. apply Hn.
      repeat split. destruct (decide (Some np = form_get (form req) "confirm_password"));
        [assumption | contradiction].
Qed.

End Settings.

(** X7.  The block run at start-up creates the ['password'] row only when
    there is none, with the value [login] falls back on: the stored
    password is the same before and after, the row exists afterwards, a
    second run changes nothing, and guests and custom fields are kept. *)
Theorem default_password_once (w : world) :
  let w1 := fst (create_default_password w) in
  stored_password (txn w1) = stored_password (txn w)
  /\ is_Some (password_row (txn w1))
  /\ create_default_password w1 = (w1, inr tt)
  /\ guests (txn w1) = guests (txn w)
  /\ custom_fields (txn w1) = custom_fields (txn w)
  /\ (is_Some (password_row (txn w)) -> w1 = w).
Proof.
  unfold create_default_password, bind, gets.
  destruct (password_row (txn w)) as [st|] eqn:Hrow; simpl.
  - rewrite Hrow. repeat split; eauto.
  - unfold db_add_default_password, db_commit, modify. simpl.
    set (row := {| setting_id := _; key := "password"; value := Some DEFAULT_PASSWORD |}).
    pose proof (password_row_added _ row Hrow eq_refl) as Ha.
    unfold stored_password. rewrite Ha, Hrow. simpl.
    repeat split; eauto. intros [? ?]. discriminate.
Qed.

(** *** What [new_guest] saves *)

#[local] Hint Resolve reads_only_ret reads_only_lift reads_only_gets
  reads_only_form_item reads_only_form_date_or_none
  reads_only_form_date_if_sent : reads.

Lemma reads_only_world {A} (m : M A) w w' r : reads_only m -> m w = (w', r) -> w' = w.
Proof. intros R E. specialize (R w). rewrite E in R. exact R. Qed.

(** One step of a read-only block: the world stays the same. *)
Ltac ro_bind H :=
  let w1 := fresh "w" in
  let a := fresh "a" in
  let E := fresh "E" in
  apply bind_inr in H as (w1 & a & E & H); cbv beta in H;
  match type of E with
  | ?m ?w = _ =>
      let R := fresh "R" in
      assert (R : w1 = w) by (apply (reads_only_world m w w1 (inr a));
                              [reads_only_tac | exact E]);
      subst w1
  end.

Lemma form_item_same req k w v : form_item req k w = (w, inr v) <-> form_get (form req) k = Some v.
Proof.
  unfold form_item, ret, raise. destruct (form_get _ _).
  - split; [intros [= ->] | intros [= ->]]; reflexivity.
  - split; discriminate.
Qed.

Lemma lift_inr {A} (r : exn + A) w w' a : lift r w = (w', inr a) -> r = inr a.
Proof. unfold lift. intros [= _ ->]. reflexivity. Qed.

Lemma form_date_or_none_spec req k w o :
  form_date_or_none req k w = (w, inr o) ->
  exists c, form_get (form req) k = Some c /\ parsed_or_none c o.
Proof.
  unfold form_date_or_none, parsed_or_none. intros H. ro_bind H.
  apply form_item_same in E. exists a. split; [exact E|].
  destruct (nonempty a).
  - ro_bind H. ro_bind H. apply form_item_same in E0. apply lift_inr in E1.
    injection H as <-. rewrite E in E0. injection E0 as <-. eauto.
  - injection H as <-. reflexivity.
Qed.

Lemma form_date_if_sent_spec req k w o :
  form_date_if_sent req k w = (w, inr o) ->
  match form_get (form req) k with
  | Some c => parsed_or_none c o
  | None => o = None
  end.
Proof.
  unfold form_date_if_sent, parsed_or_none.
  destruct (form_get (form req) k) as [c|] eqn:Hc; [|intros [= <-]; reflexivity].
  destruct (nonempty c).
  - intros H. ro_bind H. ro_bind H. apply form_item_same in E. apply lift_inr in E0.
    injection H as <-. rewrite Hc in E. injection E as <-. eauto.
  - intros [= <-]. reflexivity.
Qed.

Lemma permit_expiry_spec req w o :
  (c <- form_item req "permit_date" ;;
   if nonempty c then
     v <- form_item req "permit_date" ;;
     d <- lift (strptime_str v) ;;
     e <- lift (add_days d PERMIT_DAYS) ;;
     ret (Some e)
   else ret None)%view w = (w, inr o) ->
  exists c, form_get (form req) "permit_date" = Some c
    /\ if nonempty c
       then exists d e, strptime_str c = inr d /\ add_days d PERMIT_DAYS = inr e
                        /\ o = Some e
       else o = None.
Proof.
  intros H. ro_bind H. apply form_item_same in E. exists a. split; [exact E|].
  destruct (nonempty a).
  - ro_bind H. ro_bind H. ro_bind H.
    apply form_item_same in E0. apply lift_inr in E1. apply lift_inr in E2.
    injection H as <-. rewrite E in E0. injection E0 as <-. eauto.
  - injection H as <-. reflexivity.
Qed.

Lemma entry_date_spec req w o :
  (c <- form_item req "entry_date" ;;
   if nonempty c then
     v <- form_item req "entry_date" ;; d <- lift (strptime_str v) ;; ret d
   else gets now)%view w = (w, inr o) ->
  exists c, form_get (form req) "entry_date" = Some c
    /\ if nonempty c then strptime_str c = inr o else o = now w.
Proof.
  intros H. ro_bind H. apply form_item_same in E. exists a. split; [exact E|].
  destruct (nonempty a).
  - ro_bind H. ro_bind H. apply form_item_same in E0. apply lift_inr in E1.
    injection H as <-. rewrite E in E0. injection E0 as <-. exact E1.
  - injection H as <-. reflexivity.
Qed.

Ltac form_facts :=
  repeat match goal with
         | E : form_item _ _ _ = _ |- _ => apply form_item_same in E
         | E : lift _ _ = _ |- _ => apply lift_inr in E
         | E : form_date_or_none _ _ _ = _ |- _ => apply form_date_or_none_spec in E
         | E : form_date_if_sent _ _ _ = _ |- _ => apply form_date_if_sent_spec in E
         | E : bind (form_item _ "permit_date") _ _ = _ |- _ =>
             apply permit_expiry_spec in E
         | E : bind (form_item _ "entry_date") _ _ = _ |- _ =>
             apply entry_date_spec in E
         end.

Lemma guest_of_form_spec req w g :
  guest_of_form req w = (w, inr g) ->
  text_as_sent req g
  /\ id g = 0
  /\ (exists s, form_get (form req) "birth_date" = Some s
                /\ strptime_str s = inr (birth_date g))
  /\ (exists c, form_get (form req) "permit_date" = Some c
                /\ parsed_or_none c (permit_date g))
  /\ permit_dates_agree g
  /\ (exists c, form_get (form req) "health_card_expiry" = Some c
                /\ parsed_or_none c (health_card_expiry g))
  /\ (exists c, form_get (form req) "entry_date" = Some c
                /\ if nonempty c
                   then exists d, strptime_str c = inr d /\ entry_date g = Some d
                   else entry_date g = Some (now w))
  /\ exit_date g = None
  /\ match form_get (form req) "check_in_date" with
     | Some c => parsed_or_none c (check_in_date g)
     | None => check_in_date g = None
     end
  /\ match form_get (form req) "check_out_date" with
     | Some c => parsed_or_none c (check_out_date g)
     | None => check_out_date g = None
     end.
Proof.
  unfold guest_of_form. intros H. repeat ro_bind H. injection H as <-.
  form_facts. unfold text_as_sent, permit_dates_agree. simpl.
  destruct E7 as (c1 & Hc1 & P). destruct E8 as (c2 & Hc2 & Q).
  destruct E11 as (c3 & Hc3 & N).
  rewrite Hc1 in Hc2. injection Hc2 as <-.
  split; [repeat split; assumption|].
  split; [reflexivity|].
  split; [eauto|].
  split; [eauto|].
  split.
  { unfold parsed_or_none in P. destruct (nonempty c1).
    - destruct P as (d & Hd & ->). destruct Q as (d' & e & Hd' & He & ->).
      rewrite Hd in Hd'. injection Hd' as <-. exact He.
    - rewrite P, Q. exact I. }
  split; [assumption|].
  split.
  { exists c3. split; [exact Hc3|]. destruct (nonempty c3); [eauto | congruence]. }
  split; [reflexivity|]. split; assumption.
Qed.

Lemma guest_of_form_keys req w g k :
  guest_of_form req w = (w, inr g) -> k ∈ required_form_keys ->
  is_Some (form_get (form req) k).
Proof.
  unfold guest_of_form. intros H Hk. repeat ro_bind H. form_facts.
  repeat match goal with
         | P : exists c, _ /\ _ |- _ => destruct P as (? & ? & _)
         end.
  unfold required_form_keys in Hk.
  repeat (apply elem_of_cons in Hk as [-> | Hk]; [eauto|]).
  inversion Hk.
Qed.

(** A refused insert changes at most the sequences. *)
Lemma db_add_guest_inl g w w' e :
  db_add_guest g w = (w', inl e) -> exists gs fs, w' = set_seqs gs fs w.
Proof.
  unfold db_add_guest. destruct (driver_refuses _ _).
  - intros [= <- _]. exists (guest_seq w), (field_seq w). destruct w; reflexivity.
  - cbv zeta. destruct (flush_guest_check _ _); [intros [= <- _]; eauto|].
    destruct (bool_decide _); [intros [= <- _]; eauto | discriminate].
Qed.

Lemma db_add_field_inr gid fname v w w' u :
  db_add_field gid fname v w = (w', inr u) ->
  exists c, custom_fields (txn w') = (custom_fields (txn w) ++ [c])%list
    /\ field_content c = (gid, kept (engine w) 100 fname, Some v)
    /\ guests (txn w') = guests (txn w) /\ settings (txn w') = settings (txn w)
    /\ committed w' = committed w /\ session w' = session w
    /\ flashes w' = flashes w /\ engine w' = engine w.
Proof.
  unfold db_add_field. destruct (driver_refuses _ _); [discriminate|].
  cbv zeta. destruct (flush_field_check _ _); [discriminate|].
  destruct (bool_decide _); [discriminate|].
  intros [= <-]. eexists. split; [reflexivity|]. repeat split.
Qed.

Lemma add_custom_fields_spec req gid items w w' u :
  add_custom_fields req gid items w = (w', inr u) ->
  exists new,
    custom_fields (txn w') = (custom_fields (txn w) ++ new)%list
    /\ map field_content new
       = map (kept_entry (engine w) gid) (omap (custom_entry req) items)
    /\ guests (txn w') = guests (txn w) /\ settings (txn w') = settings (txn w)
    /\ committed w' = committed w /\ session w' = session w
    /\ flashes w' = flashes w /\ engine w' = engine w.
Proof.
  revert w. induction items as [|[k v] items IH]; intros w.
  - intros [= <-]. exists []. rewrite app_nil_r. repeat split.
  - simpl add_custom_fields. intros H. step_bind H as w1 u1 E.
    apply IH in H as (new & Hcf & Hmap & Hg & Hs & Hc & Hse & Hf & He).
    simpl omap. unfold custom_entry at 1.
    destruct (String.prefix "custom_field_" k);
      [|injection E as <-; exists new; repeat split; assumption].
    destruct (form_get (form req) ("custom_field_name_" ++ last_segment k)) as [fname|];
      [|injection E as <-; exists new; repeat split; assumption].
    destruct (nonempty fname && nonempty v);
      [|injection E as <-; exists new; repeat split; assumption].
    apply db_add_field_inr in E as (c & Ecf & Ec & Eg & Es & Eco & Ese & Ef & Ee).
    exists (c :: new). rewrite Hcf, Ecf, <- app_assoc. split; [reflexivity|].
    split; [simpl; rewrite Ec, Hmap, Ee; reflexivity|].
    repeat split; congruence.
Qed.

Lemma db_add_guest_spec g w w' i :
  db_add_guest g w = (w', inr i) ->
  i = next_guest_id w
  /\ guests (txn w') = (guests (txn w) ++ [with_id i (stored_guest (engine w) g)])%list
  /\ custom_fields (txn w') = custom_fields (txn w)
  /\ settings (txn w') = settings (txn w)
  /\ committed w' = committed w /\ session w' = session w
  /\ flashes w' = flashes w /\ engine w' = engine w.
Proof.
  unfold db_add_guest. destruct (driver_refuses _ _); [discriminate|].
  cbv zeta. destruct (flush_guest_check _ _); [discriminate|].
  destruct (bool_decide _); [discriminate|].
  intros [= <- <-]. repeat split.
Qed.

Lemma kept_SQLite_fmap (n : nat) (o : option string) : kept SQLite n <$> o = o.
Proof. destruct o; reflexivity. Qed.

Lemma text_as_kept_stored (b : backend) (req : request) (g : Guest) (i : Z) :
  text_as_sent req g -> text_as_kept b req (with_id i (stored_guest b g)).
Proof.
  unfold text_as_sent, text_as_kept.
  intros (H1 & H2 & H3 & H4 & H5 & H6 & H7 & H8 & H9 & H10 & H11 & H12).
  rewrite H1, H2, H3, H4, H5, H6, H7, H8, H9, H10, H11, H12. repeat split.
Qed.

Lemma text_as_kept_updated (b : backend) (req : request) (g : Guest) :
  text_as_sent req g -> text_as_kept b req (stored_guest b g).
Proof.
  unfold text_as_sent, text_as_kept.
  intros (H1 & H2 & H3 & H4 & H5 & H6 & H7 & H8 & H9 & H10 & H11 & H12).
  rewrite H1, H2, H3, H4, H5, H6, H7, H8, H9, H10, H11, H12. repeat split.
Qed.

Lemma text_as_kept_SQLite (req : request) (g : Guest) :
  text_as_kept SQLite req g -> text_as_sent req g.
Proof.
  unfold text_as_sent, text_as_kept. rewrite !kept_SQLite_fmap. tauto.
Qed.

Lemma last_segment_from_free acc l :
  "_"%char ∉ l -> last_segment_from acc l = (acc ++ l)%list.
Proof.
  revert acc. induction l as [|c l IH]; intros acc Hn; simpl.
  - rewrite app_nil_r. reflexivity.
  - apply not_elem_of_cons in Hn as [Hc Hn].
    destruct (Ascii.eqb c "_") eqn:E.
    + apply Ascii.eqb_eq in E. congruence.
    + rewrite IH by exact Hn. rewrite <- app_assoc. reflexivity.
Qed.

Lemma last_segment_name_key sfx :
  underscore_free sfx -> last_segment ("custom_field_name_" ++ sfx) = sfx.
Proof.
  intros Hf. unfold last_segment. simpl.
  rewrite last_segment_from_free by exact Hf. simpl.
  apply string_of_list_ascii_of_string.
Qed.

Lemma items_from_elem seen f k v :
  form_get f k = Some v -> k ∉ seen -> (k, v) ∈ items_from seen f.
Proof.
  revert seen. induction f as [|[k' v'] f IH]; intros seen; simpl; [discriminate|].
  destruct (String.eqb k' k) eqn:E.
  - apply String.eqb_eq in E as ->. intros [= ->] Hn.
    rewrite bool_decide_eq_false_2 by exact Hn. left.
  - apply String.eqb_neq in E. intros Hg Hn.
    destruct (bool_decide (k' ∈ seen)); [apply IH; assumption|].
    right. apply IH; [assumption|]. intros Hc.
    apply elem_of_cons in Hc as [-> | Hc]; contradiction.
Qed.

Lemma form_items_elem req k v :
  form_get (form req) k = Some v -> (k, v) ∈ form_items req.
Proof. intros H. apply items_from_elem; [exact H | apply not_elem_of_nil]. Qed.

Lemma stored_entry b gid (new : list CustomField) entries e :
  map field_content new = map (kept_entry b gid) entries -> e ∈ entries ->
  exists c, c ∈ new /\ guest_id c = gid /\ field_name c = kept b 100 (fst e)
            /\ field_value c = Some (snd e).
Proof.
  intros Hm He.
  assert (Hin : kept_entry b gid e ∈ map field_content new).
  { rewrite Hm. apply list_elem_of_fmap. eauto. }
  apply list_elem_of_fmap in Hin as (c & Hc & Hin).
  exists c. split; [exact Hin|]. unfold kept_entry, field_content in Hc.
  injection Hc as -> -> ->. auto.
Qed.

Section NewGuest.

Variable str : exn -> string.

Local Abbreviation new_guest_view := (new_guest_view str).
Local Abbreviation edit_guest_view := (edit_guest_view str).

(** The POST branch of [new_guest], step by step. *)
Lemma new_guest_view_post (req : request) (w : world) :
  method req = POST ->
  new_guest_view req w =
    match snd (guest_of_form req w) with
    | inl e => (save_failed str e w, inr (new_guest_page (guests (txn w))))
    | inr g =>
        match db_add_guest g w with
        | (w1, inl e) => (save_failed str e w1, inr (new_guest_page (guests (txn w))))
        | (w1, inr i) =>
            match add_custom_fields req i (form_items req) (set_committed (txn w1) w1) with
            | (w2, inl e) => (save_failed str e w2, inr (new_guest_page (guests (txn w))))
            | (w2, inr _) => (save_succeeded w2, inr (Redirect "archive" []))
            end
        end
    end.
Proof.
  intros Hm. unfold App.new_guest_view. rewrite Hm.
  unfold bind at 1. unfold query_guests, gets. unfold bind at 1. unfold try_except.
  unfold bind at 1.
  destruct (guest_of_form req w) as [w0 [e|g]] eqn:Hg;
    pose proof (reads_only_world _ _ _ _ (reads_only_guest_of_form req) Hg) as ->.
  - reflexivity.
  - simpl snd. unfold bind at 1.
    destruct (db_add_guest g w) as [w1 [e|i]] eqn:Ha.
    + reflexivity.
    + unfold bind at 1. unfold db_commit at 1. unfold modify at 1. unfold bind at 1.
      destruct (add_custom_fields req i (form_items req) (set_committed (txn w1) w1))
        as [w2 [e|[]]] eqn:Hc; reflexivity.
Qed.

Lemma new_guest_view_get (req : request) (w : world) :
  method req = GET ->
  new_guest_view req w = (w, inr (new_guest_page (guests (txn w)))).
Proof. intros Hm. unfold App.new_guest_view. rewrite Hm. reflexivity. Qed.

Lemma new_guest_view_success (req : request) (w w' : world) :
  new_guest_view req w = (w', inr (Redirect "archive" [])) ->
  exists g i w1 w2,
    guest_of_form req w = (w, inr g)
    /\ db_add_guest g w = (w1, inr i)
    /\ add_custom_fields req i (form_items req) (set_committed (txn w1) w1) = (w2, inr tt)
    /\ w' = save_succeeded w2.
Proof.
  destruct (method req) eqn:Hm.
  - rewrite (new_guest_view_get _ _ Hm). discriminate.
  - rewrite (new_guest_view_post _ _ Hm).
    destruct (guest_of_form req w) as [w0 [e|g]] eqn:Hg; simpl snd; [discriminate|].
    pose proof (reads_only_world _ _ _ _ (reads_only_guest_of_form req) Hg) as ->.
    destruct (db_add_guest g w) as [w1 [e|i]] eqn:Ha; [discriminate|].
    destruct (add_custom_fields _ _ _ _) as [w2 [e|[]]] eqn:Hc; [discriminate|].
    intros [= <-]. exists g, i, w1, w2. auto.
Qed.

(** X8.  A POST to [new_guest] whose form lacks one of the sixteen keys
    read with [request.form[...]] stores nothing: the session is rolled
    back, the committed tables are as before, an error is flashed and the
    form is shown again. *)
Theorem new_guest_needs_every_field (req : request) (w : world) (k : string) :
  method req = POST ->
  k ∈ required_form_keys ->
  form_get (form req) k = None ->
  exists e,
    new_guest_view req w = (save_failed str e w, inr (new_guest_page (guests (txn w))))
    /\ committed (save_failed str e w) = committed w
    /\ txn (save_failed str e w) = committed w.
Proof.
  intros Hm Hk Hn. rewrite (new_guest_view_post _ _ Hm).
  destruct (guest_of_form req w) as [w0 [e|g]] eqn:Hg; simpl snd.
  - exists e. repeat split.
  - pose proof (reads_only_world _ _ _ _ (reads_only_guest_of_form req) Hg) as ->.
    destruct (guest_of_form_keys _ _ _ _ Hg Hk) as [v Hv]. congruence.
Qed.

(** X9.  When [new_guest] redirects to the archive, the table has one more
    row, committed, with the next primary key: its text columns hold the
    form's values as the engine keeps them (as sent on SQLite; on
    PostgreSQL a [String(n)] column holds the first [n] characters), its
    birth date is the parsed ['birth_date'], its entry date is the parsed
    ['entry_date'] or today when that is empty, and it has no exit date.
    The session is as before. *)
Theorem new_guest_saves_form (req : request) (w w' : world) :
  new_guest_view req w = (w', inr (Redirect "archive" [])) ->
  exists g,
    guests (committed w') = (guests (txn w) ++ [g])%list
    /\ txn w' = committed w'
    /\ session w' = session w
    /\ id g = next_guest_id w
    /\ text_as_kept (engine w) req g
    /\ (engine w = SQLite -> text_as_sent req g)
    /\ (exists s, form_get (form req) "birth_date" = Some s
                  /\ strptime_str s = inr (birth_date g))
    /\ (exists c, form_get (form req) "entry_date" = Some c
                  /\ if nonempty c
                     then exists d, strptime_str c = inr d /\ entry_date g = Some d
                     else entry_date g = Some (now w))
    /\ exit_date g = None.
Proof.
  intros H. apply new_guest_view_success in H as (g & i & w1 & w2 & Hg & Ha & Hc & ->).
  apply guest_of_form_spec in Hg as (Ht & _ & Hb & _ & _ & _ & He & Hx & _).
  apply db_add_guest_spec in Ha as (-> & Hgs & _ & _ & _ & Hse & _).
  apply add_custom_fields_spec in Hc as (new & _ & _ & Hg2 & _ & _ & Hse2 & _).
  pose proof (text_as_kept_stored (engine w) req g (next_guest_id w) Ht) as Hk.
  exists (with_id (next_guest_id w) (stored_guest (engine w) g)). simpl in *.
  split; [congruence|]. split; [reflexivity|]. split; [congruence|].
  split; [reflexivity|]. split; [exact Hk|].
  split; [intros Hq; rewrite Hq in Hk |- *; apply text_as_kept_SQLite, Hk|].
  auto.
Qed.

(** X10.  When [new_guest] redirects to the archive, the custom fields
    committed are the earlier ones followed by one field per form entry
    whose key starts with 'custom_field_', whose value is not empty and for
    which the form holds a non-empty name under 'custom_field_name_' and
    the key's last segment; they come in form order, all belong to the
    new guest, and hold the entry's value and its name as the engine keeps
    it (as sent on SQLite, the first 100 characters on PostgreSQL). *)
Theorem new_guest_saves_custom_fields (req : request) (w w' : world) :
  new_guest_view req w = (w', inr (Redirect "archive" [])) ->
  exists new,
    custom_fields (committed w') = (custom_fields (txn w) ++ new)%list
    /\ map field_content new
       = map (kept_entry (engine w) (next_guest_id w)) (custom_entries req)
    /\ (engine w = SQLite ->
        map field_content new = map (owned_entry (next_guest_id w)) (custom_entries req)).
Proof.
  intros H. apply new_guest_view_success in H as (g & i & w1 & w2 & Hg & Ha & Hc & ->).
  apply db_add_guest_spec in Ha as (-> & _ & Hcf & _ & _ & _ & _ & He).
  apply add_custom_fields_spec in Hc as (new & Hcf2 & Hmap & _).
  simpl in Hmap. rewrite He in Hmap.
  exists new. simpl in *. split; [congruence|]. split; [exact Hmap|].
  intros Hq. rewrite Hq in Hmap. exact Hmap.
Qed.

(** X11.  A form entry 'custom_field_name_<s>' is itself taken for a custom
    field, since its key starts with 'custom_field_': when [new_guest]
    succeeds, a non-empty name [n] sent under such a key (with no
    underscore in [s]) is stored as a field of the new guest whose value
    is [n] and whose name is [n] as the engine keeps it: [n] itself on
    SQLite and, on PostgreSQL, when it has at most 100 characters. *)
Theorem name_key_saved_as_field (req : request) (w w' : world) (sfx n : string) :
  new_guest_view req w = (w', inr (Redirect "archive" [])) ->
  underscore_free sfx ->
  form_get (form req) ("custom_field_name_" ++ sfx) = Some n ->
  n <> "" ->
  exists c, c ∈ custom_fields (committed w')
    /\ guest_id c = next_guest_id w
    /\ field_name c = kept (engine w) 100 n /\ field_value c = Some n
    /\ (engine w = SQLite \/ (String.length n <= 100)%nat -> field_name c = n).
Proof.
  intros H Hf Hn Hne.
  apply new_guest_view_success in H as (g & i & w1 & w2 & Hg & Ha & Hc & ->).
  apply db_add_guest_spec in Ha as (-> & _ & Hcf & _ & _ & _ & _ & Hen).
  apply add_custom_fields_spec in Hc as (new & Hcf2 & Hmap & _).
  simpl in Hmap. rewrite Hen in Hmap.
  assert (He : (n, n) ∈ custom_entries req).
  { unfold custom_entries. apply list_elem_of_omap.
    exists ("custom_field_name_" ++ sfx, n). split; [apply form_items_elem, Hn|].
    unfold custom_entry. rewrite (last_segment_name_key _ Hf), Hn.
    assert (Hne' : nonempty n = true)
      by (unfold nonempty; apply negb_true_iff, String.eqb_neq, Hne).
    rewrite Hne'. reflexivity. }
  destruct (stored_entry _ _ _ _ _ Hmap He) as (c & Hin & Hgid & Hname & Hval).
  exists c. simpl in *. rewrite Hcf2. split; [apply elem_of_app; right; exact Hin|].
  split; [exact Hgid|]. split; [exact Hname|]. split; [exact Hval|].
  intros Hs. rewrite Hname. apply kept_as_sent, Hs.
Qed.

(** *** What [edit_guest] saves *)

Lemma kept_date_spec (m : M (option date)) (old : option date) req k w o :
  (forall w o', m w = (w, inr o') ->
     exists c, form_get (form req) k = Some c /\ parsed_or_none c o') ->
  reads_only m ->
  (o' <- m ;; ret (match o' with Some d => Some d | None => old end))%view w
    = (w, inr o) ->
  exists c, form_get (form req) k = Some c /\ parsed_or_kept c old o.
Proof.
  intros Hspec R H. apply bind_inr in H as (w1 & o' & E & H).
  pose proof (reads_only_world _ _ _ _ R E) as ->.
  apply Hspec in E as (c & Hc & P). exists c. split; [exact Hc|].
  injection H as <-. unfold parsed_or_none, parsed_or_kept in *.
  destruct (nonempty c); [destruct P as (d & Hd & ->); eauto | rewrite P; reflexivity].
Qed.

Lemma guest_edited_spec req g0 w g :
  guest_edited req g0 w = (w, inr g) ->
  text_as_sent req g
  /\ id g = id g0
  /\ (exists s, form_get (form req) "birth_date" = Some s
                /\ strptime_str s = inr (birth_date g))
  /\ (exists c, form_get (form req) "permit_date" = Some c
                /\ if nonempty c
                   then exists d e, strptime_str c = inr d
                          /\ add_days d PERMIT_DAYS = inr e
                          /\ permit_date g = Some d /\ permit_expiry g = Some e
                   else permit_date g = permit_date g0
                        /\ permit_expiry g = permit_expiry g0)
  /\ (exists c, form_get (form req) "health_card_expiry" = Some c
                /\ parsed_or_kept c (health_card_expiry g0) (health_card_expiry g))
  /\ (exists c, form_get (form req) "entry_date" = Some c
                /\ parsed_or_kept c (entry_date g0) (entry_date g))
  /\ exit_date g = exit_date g0.
Proof.
  unfold guest_edited. intros H. repeat ro_bind H. injection H as <-.
  form_facts. unfold text_as_sent. simpl.
  apply (kept_date_spec _ _ req "health_card_expiry") in E10;
    [| intros ? ?; apply form_date_or_none_spec | apply reads_only_form_date_or_none].
  apply (kept_date_spec _ _ req "entry_date") in E11;
    [| intros ? ?; apply form_date_or_none_spec | apply reads_only_form_date_or_none].
  split; [repeat split; assumption|].
  split; [reflexivity|]. split; [eauto|].
  split.
  { exists a7. split; [exact E7|]. destruct (nonempty a7).
    - ro_bind E8. ro_bind E8. ro_bind E8. form_facts.
      injection E8 as <-.
      match goal with
      | F : form_get _ "permit_date" = Some ?x, S : strptime_str ?x = inr _ |- _ =>
          assert (Hx : x = a7) by congruence; subst x
      end.
      simpl. eauto 10.
    - injection E8 as <-. simpl. auto. }
  auto.
Qed.

Lemma permit_dates_agree_edited req g0 w g :
  guest_edited req g0 w = (w, inr g) ->
  permit_dates_agree g0 -> permit_dates_agree g.
Proof.
  intros H Hok. apply guest_edited_spec in H as (_ & _ & _ & (c & _ & P) & _).
  unfold permit_dates_agree in *. destruct (nonempty c).
  - destruct P as (d & e & _ & He & -> & ->). exact He.
  - destruct P as [-> ->]. exact Hok.
Qed.

Lemma add_custom_fields_keeps req gid items w w' r :
  add_custom_fields req gid items w = (w', r) ->
  committed w' = committed w /\ session w' = session w.
Proof.
  revert w. induction items as [|[k v] items IH]; intros w;
    [intros [= <- _]; split; reflexivity|].
  simpl. unfold bind at 1.
  set (step := if String.prefix "custom_field_" k then _ else _).
  assert (Hs : committed (fst (step w)) = committed w /\ session (fst (step w)) = session w).
  { subst step. destruct (String.prefix _ _); [|split; reflexivity].
    destruct (form_get _ _); [|split; reflexivity].
    destruct (_ && _); [|split; reflexivity].
    unfold db_add_field. destruct (driver_refuses _ _); [split; reflexivity|].
    cbv zeta. destruct (flush_field_check _ _); [split; reflexivity|].
    destruct (bool_decide _); split; reflexivity. }
  destruct (step w) as [w1 [e|[]]]; simpl in Hs.
  - intros [= <- _]. exact Hs.
  - intros H. apply IH in H as [H1 H2]. destruct Hs as [H3 H4]. split; congruence.
Qed.

Lemma db_update_guest_spec g w w' u :
  db_update_guest g w = (w', inr u) ->
  guests (txn w')
  = map (fun g' => if id g' =? id g then stored_guest (engine w) g else g')
      (guests (txn w))
  /\ custom_fields (txn w') = custom_fields (txn w)
  /\ settings (txn w') = settings (txn w)
  /\ committed w' = committed w /\ session w' = session w
  /\ flashes w' = flashes w /\ engine w' = engine w.
Proof.
  unfold db_update_guest. destruct (driver_refuses _ _); [discriminate|].
  destruct (flush_guest_check _ _); [discriminate|].
  intros [= <-]. repeat split.
Qed.

Lemma db_update_guest_inl g w w' e : db_update_guest g w = (w', inl e) -> w' = w.
Proof.
  unfold db_update_guest. destruct (driver_refuses _ _); [intros [= <-]; reflexivity|].
  destruct (flush_guest_check _ _); intros [= <-]; reflexivity.
Qed.

Lemma get_or_404_found gid w guest :
  guest_by_id gid (txn w) = Some guest -> get_or_404 gid w = (w, inr guest).
Proof.
  unfold guest_by_id, get_or_404, bind, query_guests, gets. intros ->. reflexivity.
Qed.

Lemma get_or_404_missing gid w :
  guest_by_id gid (txn w) = None -> get_or_404 gid w = (w, inl NotFound).
Proof.
  unfold guest_by_id, get_or_404, bind, query_guests, gets. intros ->. reflexivity.
Qed.

(** The POST branch of [edit_guest], step by step. *)
Lemma edit_guest_view_post (req : request) (gid : Z) (w : world) (guest : Guest) :
  method req = POST ->
  guest_by_id gid (txn w) = Some guest ->
  let page := edit_page guest (fields_by_guest gid (txn w)) (guests (txn w)) in
  edit_guest_view (req, gid) w =
    match snd (guest_edited req guest w) with
    | inl e => (edit_failed str e w, inr page)
    | inr g =>
        match db_update_guest g w with
        | (_, inl e) => (edit_failed str e w, inr page)
        | (w1, inr _) =>
            match add_custom_fields req (id g) (form_items req)
                    (fst (delete_fields_of gid w1)) with
            | (w2, inl e) => (edit_failed str e w2, inr page)
            | (w2, inr _) =>
                (edit_succeeded w2, inr (Redirect "guest_detail" [("guest_id", gid)]))
            end
        end
    end.
Proof.
  intros Hm Hf page. unfold App.edit_guest_view.
  unfold bind at 1. rewrite (get_or_404_found _ _ _ Hf).
  unfold bind at 1. unfold fields_of at 1. unfold gets at 1.
  unfold bind at 1. unfold query_guests, gets. rewrite Hm.
  unfold bind at 1. unfold try_except. unfold bind at 1.
  destruct (guest_edited req guest w) as [w0 [e|g]] eqn:Hg;
    pose proof (reads_only_world _ _ _ _ (reads_only_guest_edited req guest) Hg) as ->.
  - reflexivity.
  - simpl snd. unfold bind at 1.
    destruct (db_update_guest g w) as [w1 [e|u]] eqn:Hu.
    + apply db_update_guest_inl in Hu as ->. reflexivity.
    + unfold bind at 1. unfold delete_fields_of at 1. unfold modify at 1.
      unfold bind at 1.
      change (fst (delete_fields_of gid w1))
        with (set_txn {| guests := guests (txn w1);
                         custom_fields :=
                           filter (fun c => guest_id c <> gid) (custom_fields (txn w1));
                         settings := settings (txn w1) |} w1).
      destruct (add_custom_fields req (id g) (form_items req) _)
        as [w2 [e|[]]] eqn:Hc; reflexivity.
Qed.

Lemma edit_guest_view_get (req : request) (gid : Z) (w : world) (guest : Guest) :
  method req = GET ->
  guest_by_id gid (txn w) = Some guest ->
  edit_guest_view (req, gid) w
  = (w, inr (edit_page guest (fields_by_guest gid (txn w)) (guests (txn w)))).
Proof.
  intros Hm Hf. unfold App.edit_guest_view.
  unfold bind at 1. rewrite (get_or_404_found _ _ _ Hf).
  unfold bind at 1. unfold fields_of at 1. unfold gets at 1.
  unfold bind at 1. unfold query_guests, gets. rewrite Hm. reflexivity.
Qed.

Lemma edit_guest_view_missing (req : request) (gid : Z) (w : world) :
  guest_by_id gid (txn w) = None -> edit_guest_view (req, gid) w = (w, inl NotFound).
Proof.
  intros Hf. unfold App.edit_guest_view. unfold bind at 1.
  rewrite (get_or_404_missing _ _ Hf). reflexivity.
Qed.

Lemma edit_guest_view_success (req : request) (gid : Z) (w w' : world) :
  edit_guest_view (req, gid) w
    = (w', inr (Redirect "guest_detail" [("guest_id", gid)])) ->
  exists guest g new,
    guest_by_id gid (txn w) = Some guest
    /\ guest_edited req guest w = (w, inr g)
    /\ guests (committed w')
       = map (fun g' => if id g' =? gid then stored_guest (engine w) g else g')
           (guests (txn w))
    /\ custom_fields (committed w') = (fields_of_others gid (txn w) ++ new)%list
    /\ map field_content new = map (kept_entry (engine w) gid) (custom_entries req)
    /\ txn w' = committed w' /\ session w' = session w.
Proof.
  destruct (guest_by_id gid (txn w)) as [guest|] eqn:Hf;
    [|rewrite (edit_guest_view_missing _ _ _ Hf); discriminate].
  destruct (method req) eqn:Hm;
    [rewrite (edit_guest_view_get _ _ _ _ Hm Hf); discriminate|].
  rewrite (edit_guest_view_post _ _ _ _ Hm Hf). cbv zeta.
  destruct (guest_edited req guest w) as [w0 [e|g]] eqn:Hg; simpl snd; [discriminate|].
  pose proof (reads_only_world _ _ _ _ (reads_only_guest_edited req guest) Hg) as ->.
  destruct (db_update_guest g w) as [w1 [e|u]] eqn:Hu; [discriminate|].
  destruct (add_custom_fields _ _ _ _) as [w2 [e|[]]] eqn:Hc; [discriminate|].
  intros [= <-].
  assert (Hid : id g = gid).
  { apply guest_edited_spec in Hg as (_ & -> & _).
    unfold guest_by_id in Hf. apply find_some in Hf as [_ Hq]. lia. }
  apply db_update_guest_spec in Hu as (Hgs & Hcf & _ & _ & Hse & _ & Hen).
  apply add_custom_fields_spec in Hc as (new & Hcf2 & Hmap & Hg2 & _ & _ & Hse2 & _).
  exists guest, g, new. simpl in *. rewrite Hid, Hen in *.
  split; [reflexivity|]. split; [exact Hg|]. split; [congruence|].
  split; [unfold fields_of_others; congruence|]. split; [exact Hmap|].
  split; [reflexivity | congruence].
Qed.

Lemma replaced_row (gid : Z) (g g1 : Guest) (l : list Guest) :
  id g = gid ->
  g1 ∈ map (fun g' => if id g' =? gid then g else g') l ->
  (id g1 = gid -> g1 = g) /\ (id g1 <> gid -> g1 ∈ l).
Proof.
  intros Hid Hin. apply list_elem_of_fmap in Hin as (g0 & -> & Hg0).
  destruct (id g0 =? gid) eqn:Hq.
  - split; [reflexivity | intros; congruence].
  - apply Z.eqb_neq in Hq. split; [intros; congruence | intros; exact Hg0].
Qed.

Lemma replaced_row_ids (gid : Z) (g : Guest) (l : list Guest) :
  id g = gid ->
  map id (map (fun g' => if id g' =? gid then g else g') l) = map id l.
Proof.
  intros Hgid. induction l as [|g0 l IH]; [reflexivity|]. simpl.
  rewrite IH. destruct (id g0 =? gid) eqn:Hq; [|reflexivity].
  apply Z.eqb_eq in Hq. congruence.
Qed.

Lemma replaced_row_others (gid : Z) (g : Guest) (l : list Guest) :
  id g = gid ->
  filter (fun g' => id g' <> gid) (map (fun g' => if id g' =? gid then g else g') l)
  = filter (fun g' => id g' <> gid) l.
Proof.
  intros Hgid. induction l as [|g0 l IH]; [reflexivity|]. simpl.
  destruct (id g0 =? gid) eqn:Hq.
  - apply Z.eqb_eq in Hq.
    rewrite !filter_cons_False by (intros Hn; apply Hn; congruence). exact IH.
  - apply Z.eqb_neq in Hq. rewrite !filter_cons_True by exact Hq. rewrite IH.
    reflexivity.
Qed.

Lemma owned_fields b gid (new : list CustomField) entries :
  map field_content new = map (kept_entry b gid) entries ->
  Forall (fun c => guest_id c = gid) new.
Proof.
  revert entries. induction new as [|c new IH]; intros [|e entries] H;
    try discriminate; constructor.
  - simpl in H. unfold field_content, kept_entry in H. congruence.
  - simpl in H. apply (IH entries). congruence.
Qed.

Lemma filter_all {A} (P : A -> Prop) `{forall x, Decision (P x)} (l : list A) :
  Forall P l -> filter P l = l.
Proof.
  induction 1 as [|x l Hx _ IH]; [reflexivity|].
  rewrite filter_cons_True by exact Hx. rewrite IH. reflexivity.
Qed.

Lemma filter_none {A} (P : A -> Prop) `{forall x, Decision (P x)} (l : list A) :
  Forall (fun x => ~ P x) l -> filter P l = [].
Proof.
  induction 1 as [|x l Hx _ IH]; [reflexivity|].
  rewrite filter_cons_False by exact Hx. exact IH.
Qed.

(** X12.  When [edit_guest] redirects to the guest's page, the row with
    that key holds the form's text values as the engine keeps them (as
    sent on SQLite; on PostgreSQL a [String(n)] column holds the first [n]
    characters) and the parsed birth date; a permit date, health-card
    expiry or entry date left empty in the form keeps what the row had,
    and so does the exit date, which the form cannot change. *)
Theorem edit_guest_saves_form (req : request) (gid : Z) (w w' : world) :
  edit_guest_view (req, gid) w
    = (w', inr (Redirect "guest_detail" [("guest_id", gid)])) ->
  exists old,
    guest_by_id gid (txn w) = Some old
    /\ (exists g, g ∈ guests (committed w') /\ id g = gid)
    /\ forall g, g ∈ guests (committed w') -> id g = gid ->
         text_as_kept (engine w) req g
         /\ (engine w = SQLite -> text_as_sent req g)
         /\ (exists s, form_get (form req) "birth_date" = Some s
                       /\ strptime_str s = inr (birth_date g))
         /\ (exists c, form_get (form req) "permit_date" = Some c
                       /\ (nonempty c = false ->
                           permit_date g = permit_date old
                           /\ permit_expiry g = permit_expiry old))
         /\ (exists c, form_get (form req) "health_card_expiry" = Some c
                       /\ parsed_or_kept c (health_card_expiry old) (health_card_expiry g))
         /\ (exists c, form_get (form req) "entry_date" = Some c
                       /\ parsed_or_kept c (entry_date old) (entry_date g))
         /\ exit_date g = exit_date old.
Proof.
  intros H.
  apply edit_guest_view_success in H as (old & g & new & Hf & Hg & Hgs & _).
  apply guest_edited_spec in Hg as (Ht & Hid & Hb & (c & Hc & Hp) & Hh & He & Hx).
  assert (Hgid : id (stored_guest (engine w) g) = gid).
  { simpl. rewrite Hid. unfold guest_by_id in Hf. apply find_some in Hf as [_ Hq]. lia. }
  pose proof (text_as_kept_updated (engine w) req g Ht) as Hk.
  exists old. split; [exact Hf|]. split.
  - exists (stored_guest (engine w) g). split; [|exact Hgid]. rewrite Hgs.
    apply list_elem_of_fmap.
    exists old. unfold guest_by_id in Hf. apply find_some in Hf as [Hin Hq].
    rewrite Hq. split; [reflexivity | apply list_elem_of_In, Hin].
  - intros g1 Hin Hg1. rewrite Hgs in Hin.
    destruct (replaced_row _ _ _ _ Hgid Hin) as [Heq _]. rewrite (Heq Hg1).
    split; [exact Hk|].
    split; [intros Hq; rewrite Hq in Hk |- *; apply text_as_kept_SQLite, Hk|].
    split; [exact Hb|]. split.
    { exists c. split; [exact Hc|]. intros Hn. rewrite Hn in Hp. exact Hp. }
    auto.
Qed.

(** X13.  A successful [edit_guest] neither adds nor removes a row: the
    keys of [guests] are the same in the same order, rows with another key
    are untouched, and so are the custom fields of other guests; the
    guest's own custom fields are replaced by those of the form, each with
    the entry's value and its name as the engine keeps it (as sent on
    SQLite, the first 100 characters on PostgreSQL). *)
Theorem edit_guest_keeps_others (req : request) (gid : Z) (w w' : world) :
  edit_guest_view (req, gid) w
    = (w', inr (Redirect "guest_detail" [("guest_id", gid)])) ->
  map id (guests (committed w')) = map id (guests (txn w))
  /\ filter (fun g => id g <> gid) (guests (committed w'))
     = filter (fun g => id g <> gid) (guests (txn w))
  /\ fields_of_others gid (committed w') = fields_of_others gid (txn w)
  /\ map field_content (fields_by_guest gid (committed w'))
     = map (kept_entry (engine w) gid) (custom_entries req)
  /\ (engine w = SQLite ->
      map field_content (fields_by_guest gid (committed w'))
      = map (owned_entry gid) (custom_entries req)).
Proof.
  intros H.
  apply edit_guest_view_success in H as (old & g & new & Hf & Hg & Hgs & Hcf & Hmap & _).
  apply guest_edited_spec in Hg as (_ & Hid & _).
  assert (Hgid : id (stored_guest (engine w) g) = gid).
  { simpl. rewrite Hid. unfold guest_by_id in Hf. apply find_some in Hf as [_ Hq]. lia. }
  pose proof (owned_fields _ _ _ _ Hmap) as Hown.
  assert (Hmine : map field_content (fields_by_guest gid (committed w'))
                  = map (kept_entry (engine w) gid) (custom_entries req)).
  { unfold fields_by_guest. rewrite Hcf. unfold fields_of_others. rewrite filter_app.
    rewrite (filter_all _ new) by exact Hown.
    rewrite (filter_none _ (filter _ _)); [exact Hmap|].
    apply Forall_forall. intros c Hc Hn. apply list_elem_of_filter in Hc as [Hc _].
    contradiction. }
  split; [|split; [|split; [|split]]].
  - rewrite Hgs. apply replaced_row_ids, Hgid.
  - rewrite Hgs. apply replaced_row_others, Hgid.
  - unfold fields_of_others. rewrite Hcf. unfold fields_of_others. rewrite filter_app.
    rewrite (filter_none _ new), app_nil_r.
    + apply list_filter_filter_l. auto.
    + eapply Forall_impl; [exact Hown|]. intros c Hc Hn. contradiction.
  - exact Hmine.
  - intros Hq. rewrite Hq in Hmine. exact Hmine.
Qed.

(** X14.  Whenever [edit_guest] does not end in the redirect to the
    guest's page (no such guest, a GET, or an exception caught on the way)
    the committed tables and the session are as before, and the SQLAlchemy
    session holds no pending change. *)
Theorem edit_guest_failure_changes_nothing (req : request) (gid : Z) (w w' : world)
    (r : exn + response) :
  edit_guest_view (req, gid) w = (w', r) ->
  r <> inr (Redirect "guest_detail" [("guest_id", gid)]) ->
  committed w' = committed w
  /\ session w' = session w
  /\ (txn w' = txn w \/ txn w' = committed w).
Proof.
  destruct (guest_by_id gid (txn w)) as [guest|] eqn:Hf;
    [|rewrite (edit_guest_view_missing _ _ _ Hf); intros [= <- <-] _; auto].
  destruct (method req) eqn:Hm;
    [rewrite (edit_guest_view_get _ _ _ _ Hm Hf); intros [= <- <-] _; auto|].
  rewrite (edit_guest_view_post _ _ _ _ Hm Hf). cbv zeta.
  destruct (guest_edited req guest w) as [w0 [e|g]] eqn:Hg; simpl snd; cbv beta iota;
    [intros [= <- <-] _; auto|].
  destruct (db_update_guest g w) as [w1 [e|u]] eqn:Hu; [intros [= <- <-] _; auto|].
  apply db_update_guest_spec in Hu as (_ & _ & _ & Hco & Hse & _).
  destruct (add_custom_fields _ _ _ _) as [w2 [e|[]]] eqn:Hc;
    [|intros [= <- <-] Hn; contradiction].
  apply add_custom_fields_keeps in Hc as [Hc1 Hc2]. simpl in Hc1, Hc2.
  intros [= <- <-] _. simpl. split; [congruence|]. split; [congruence|].
  right. congruence.
Qed.

(** X15.  The rows of [guests] keep the rule that a permit expires 180
    days after its date, or has neither date: if every row obeys it, so
    does every row after a successful [new_guest] or [edit_guest]. *)
Theorem permit_expiry_follows_date (req : request) (gid : Z) (w w' : world) :
  Forall permit_dates_agree (guests (txn w)) ->
  (new_guest_view req w = (w', inr (Redirect "archive" []))
   \/ edit_guest_view (req, gid) w
      = (w', inr (Redirect "guest_detail" [("guest_id", gid)]))) ->
  Forall permit_dates_agree (guests (committed w')).
Proof.
  intros Hall [H | H].
  - apply new_guest_view_success in H as (g & i & w1 & w2 & Hg & Ha & Hc & ->).
    apply guest_of_form_spec in Hg as (_ & _ & _ & _ & Hp & _).
    apply db_add_guest_spec in Ha as (_ & Hgs & _).
    apply add_custom_fields_spec in Hc as (new & _ & _ & Hg2 & _).
    simpl in *. rewrite Hg2, Hgs. apply Forall_app_2; [exact Hall|].
    constructor; [exact Hp | constructor].
  - apply edit_guest_view_success in H as (old & g & new & Hf & Hg & Hgs & _).
    assert (Hold : permit_dates_agree old).
    { unfold guest_by_id in Hf. apply find_some in Hf as [Hin _].
      rewrite Forall_forall in Hall. apply Hall, list_elem_of_In, Hin. }
    pose proof (permit_dates_agree_edited _ _ _ _ Hg Hold) as Hnew.
    rewrite Hgs. apply Forall_fmap. eapply Forall_impl; [exact Hall|].
    intros g0 Hg0. simpl. destruct (id g0 =? gid); assumption.
Qed.

(** X16.  [new_guest] commits the guest before it stores the custom
    fields: when it shows the form again after a POST, either nothing was
    stored, or the guest was, without any custom field, its text columns
    holding the form's values as the engine keeps them. *)
Theorem new_guest_failure_may_keep_guest (req : request) (w w' : world)
    (page : response) :
  method req = POST ->
  new_guest_view req w = (w', inr page) ->
  page <> Redirect "archive" [] ->
  txn w' = committed w'
  /\ session w' = session w
  /\ (committed w' = committed w
      \/ exists g,
           guests (committed w') = (guests (txn w) ++ [g])%list
           /\ custom_fields (committed w') = custom_fields (txn w)
           /\ text_as_kept (engine w) req g).
Proof.
  intros Hm. rewrite (new_guest_view_post _ _ Hm).
  destruct (guest_of_form req w) as [w0 [e|g]] eqn:Hg; simpl snd;
    [intros [= <- <-] _; auto|].
  pose proof (reads_only_world _ _ _ _ (reads_only_guest_of_form req) Hg) as ->.
  destruct (db_add_guest g w) as [w1 [e|i]] eqn:Ha.
  { apply db_add_guest_inl in Ha as (gs & fs & ->). intros [= <- <-] _. auto. }
  apply db_add_guest_spec in Ha as (_ & Hgs & Hcf & _ & _ & Hse & _).
  destruct (add_custom_fields _ _ _ _) as [w2 [e|[]]] eqn:Hc;
    [|intros [= <- <-] Hn; contradiction].
  apply add_custom_fields_keeps in Hc as [Hc1 Hc2]. simpl in Hc1, Hc2.
  intros [= <- <-] _. simpl. split; [reflexivity|]. split; [congruence|].
  right. exists (with_id i (stored_guest (engine w) g)). rewrite Hc1, Hgs, Hcf.
  split; [reflexivity|]. split; [reflexivity|].
  apply guest_of_form_spec in Hg as (Ht & _). apply text_as_kept_stored, Ht.
Qed.

End NewGuest.

(** *** Showing and deleting a guest *)

Section Guests.

Variable calculate_fiscal_code : json -> json -> json -> date -> json -> exn + json.
Variable check_expiring_permits : database -> date -> list Guest.
Variable str : exn -> string.

Local Abbreviation new_guest_view := (new_guest_view str).
Local Abbreviation edit_guest_view := (edit_guest_view str).
Local Abbreviation delete_guest_view := (delete_guest_view str).
Local Abbreviation dashboard_view := (dashboard_view check_expiring_permits).

Lemma guest_detail_view_found (req : request) (gid : Z) (w : world) (guest : Guest) :
  guest_by_id gid (txn w) = Some guest ->
  guest_detail_view (req, gid) w
  = (w, inr (detail_page guest (fields_by_guest gid (txn w)))).
Proof.
  intros Hf. unfold guest_detail_view. unfold bind at 1.
  rewrite (get_or_404_found _ _ _ Hf). reflexivity.
Qed.

Lemma guest_detail_view_missing (req : request) (gid : Z) (w : world) :
  guest_by_id gid (txn w) = None -> guest_detail_view (req, gid) w = (w, inl NotFound).
Proof.
  intros Hf. unfold guest_detail_view. unfold bind at 1.
  rewrite (get_or_404_missing _ _ Hf). reflexivity.
Qed.

Lemma delete_guest_view_missing (req : request) (gid : Z) (w : world) :
  guest_by_id gid (txn w) = None -> delete_guest_view (req, gid) w = (w, inl NotFound).
Proof.
  intros Hf. unfold App.delete_guest_view. unfold bind at 1.
  rewrite (get_or_404_missing _ _ Hf). reflexivity.
Qed.

Lemma guest_by_id_key (gid : Z) (d : database) (g : Guest) :
  guest_by_id gid d = Some g -> id g = gid /\ g ∈ guests d.
Proof.
  unfold guest_by_id. intros H. apply find_some in H as [Hin Hq].
  split; [lia | apply list_elem_of_In, Hin].
Qed.

Lemma guest_by_id_none (gid : Z) (d : database) :
  guest_by_id gid d = None <-> gid ∉ map id (guests d).
Proof.
  unfold guest_by_id. induction (guests d) as [|g l IH]; simpl.
  - split; [intros _; apply not_elem_of_nil | reflexivity].
  - rewrite not_elem_of_cons. destruct (id g =? gid) eqn:Hq.
    + apply Z.eqb_eq in Hq. split; [discriminate | intros [Hn _]; congruence].
    + apply Z.eqb_neq in Hq. rewrite IH. split; [intros; split; auto | intros [_ ?]; auto].
Qed.

Lemma delete_guest_view_found (req : request) (gid : Z) (w : world) (guest : Guest) :
  guest_by_id gid (txn w) = Some guest ->
  exists w',
    delete_guest_view (req, gid) w = (w', inr (Redirect "archive" []))
    /\ guests (committed w') = filter (fun g => id g <> gid) (guests (txn w))
    /\ custom_fields (committed w') = fields_of_others gid (txn w)
    /\ settings (committed w') = settings (txn w)
    /\ txn w' = committed w'
    /\ session w' = session w /\ engine w' = engine w /\ guest_seq w' = guest_seq w.
Proof.
  intros Hf. destruct (guest_by_id_key _ _ _ Hf) as [Hid _].
  unfold App.delete_guest_view. unfold bind at 1.
  rewrite (get_or_404_found _ _ _ Hf).
  eexists. split; [reflexivity|]. simpl. rewrite Hid.
  split; [reflexivity|]. split; [|repeat split].
  unfold fields_of_others. rewrite list_filter_filter.
  apply list_filter_iff. intros c. tauto.
Qed.

(** X17.  [delete_guest] on a guest of the table commits the table without
    the rows of that key and without the custom fields of that guest; the
    other guests, the other custom fields, the settings and the session
    are kept.  Afterwards the guest is gone: [guest_detail], [edit_guest]
    and a second [delete_guest] answer 404 and change nothing. *)
Theorem delete_guest_removes (req : request) (gid : Z) (w : world) (guest : Guest) :
  guest_by_id gid (txn w) = Some guest ->
  exists w',
    delete_guest_view (req, gid) w = (w', inr (Redirect "archive" []))
    /\ guests (committed w') = filter (fun g => id g <> gid) (guests (txn w))
    /\ custom_fields (committed w') = fields_of_others gid (txn w)
    /\ settings (committed w') = settings (txn w)
    /\ txn w' = committed w'
    /\ session w' = session w
    /\ fields_by_guest gid (committed w') = []
    /\ forall req',
         guest_detail_view (req', gid) w' = (w', inl NotFound)
         /\ edit_guest_view (req', gid) w' = (w', inl NotFound)
         /\ delete_guest_view (req', gid) w' = (w', inl NotFound).
Proof.
  intros Hf.
  destruct (delete_guest_view_found req _ _ _ Hf)
    as (w' & Hv & Hgs & Hcf & Hst & Htx & Hse & _).
  exists w'. do 6 (split; [assumption|]).
  assert (Hgone : guest_by_id gid (txn w') = None).
  { apply guest_by_id_none. rewrite Htx, Hgs. intros Hin.
    apply list_elem_of_fmap in Hin as (g & Hg & Hin).
    apply list_elem_of_filter in Hin as [Hn _]. congruence. }
  split.
  - unfold fields_by_guest. rewrite Hcf. unfold fields_of_others.
    apply filter_none, Forall_forall. intros c Hc.
    apply list_elem_of_filter in Hc as [Hn _]. exact Hn.
  - intros req'. split; [apply guest_detail_view_missing, Hgone|].
    split; [apply edit_guest_view_missing, Hgone|].
    apply delete_guest_view_missing, Hgone.
Qed.

Lemma guest_by_id_replaced (gid : Z) (g old : Guest) (l : list Guest) :
  id g = gid ->
  find (fun x => id x =? gid) l = Some old ->
  find (fun x => id x =? gid) (map (fun g' => if id g' =? gid then g else g') l)
  = Some g.
Proof.
  intros Hid. induction l as [|x l IH]; [discriminate|]. simpl.
  destruct (id x =? gid) eqn:Hq.
  - intros _. rewrite Hid, Z.eqb_refl. reflexivity.
  - rewrite Hq. exact IH.
Qed.

(** X18.  What [edit_guest] saved is what [guest_detail] shows next: after
    the redirect, the page of that guest holds a row with the form's text
    values and the custom fields of the form, in form order; the values of
    [String(n)] columns and the field names are as the engine keeps them
    (as sent on SQLite, the first [n] characters on PostgreSQL). *)
Theorem edit_guest_then_detail (req req' : request) (gid : Z) (w w' : world) :
  edit_guest_view (req, gid) w
    = (w', inr (Redirect "guest_detail" [("guest_id", gid)])) ->
  exists g fields,
    guest_detail_view (req', gid) w' = (w', inr (detail_page g fields))
    /\ id g = gid
    /\ text_as_kept (engine w) req g
    /\ map field_content fields = map (kept_entry (engine w) gid) (custom_entries req)
    /\ (engine w = SQLite ->
        text_as_sent req g
        /\ map field_content fields = map (owned_entry gid) (custom_entries req)).
Proof.
  intros H.
  apply edit_guest_view_success in H
    as (old & g & new & Hf & Hg & Hgs & Hcf & Hmap & Htx & _).
  apply guest_edited_spec in Hg as (Ht & Hid & _).
  assert (Hgid : id (stored_guest (engine w) g) = gid).
  { simpl. rewrite Hid. apply (guest_by_id_key _ _ _ Hf). }
  pose proof (text_as_kept_updated (engine w) req g Ht) as Hk.
  assert (Hfields : map field_content (fields_by_guest gid (txn w'))
                    = map (kept_entry (engine w) gid) (custom_entries req)).
  { pose proof (owned_fields _ _ _ _ Hmap) as Hown.
    unfold fields_by_guest. rewrite Htx, Hcf. unfold fields_of_others.
    rewrite filter_app, (filter_all _ new) by exact Hown.
    rewrite (filter_none _ (filter _ _)); [exact Hmap|].
    apply Forall_forall. intros c Hc Hn. apply list_elem_of_filter in Hc as [Hc _].
    contradiction. }
  exists (stored_guest (engine w) g), (fields_by_guest gid (txn w')). split.
  - apply guest_detail_view_found. unfold guest_by_id. rewrite Htx, Hgs.
    apply (guest_by_id_replaced _ _ old); [exact Hgid | exact Hf].
  - split; [exact Hgid|]. split; [exact Hk|]. split; [exact Hfields|].
    intros Hq. rewrite Hq in Hk, Hfields |- *.
    split; [apply text_as_kept_SQLite, Hk | exact Hfields].
Qed.

(** *** The constraints of the tables *)

Lemma max_id_upper (ids : list Z) (x : Z) : x ∈ ids -> x <= max_id ids.
Proof.
  induction 1 as [x l | x y l _ IH]; unfold max_id in *; simpl; lia.
Qed.

Lemma next_guest_id_fresh (w : world) :
  keys_unique w (txn w) -> next_guest_id w ∉ map id (guests (txn w)).
Proof.
  intros [_ Hseq] Hin. unfold next_guest_id in Hin. destruct (engine w) eqn:He.
  - specialize (Hseq eq_refl). rewrite Forall_forall in Hseq.
    apply list_elem_of_fmap in Hin as (g & Hg & Hin). specialize (Hseq g Hin). lia.
  - apply max_id_upper in Hin. lia.
Qed.

Lemma keys_unique_ids (w w' : world) (d d' : database) :
  map id (guests d') = map id (guests d) ->
  engine w' = engine w -> guest_seq w <= guest_seq w' ->
  keys_unique w d -> keys_unique w' d'.
Proof.
  intros Hids He Hs [Hn Hq]. split; [rewrite Hids; exact Hn|].
  rewrite He. intros Hpg. specialize (Hq Hpg).
  assert (H : Forall (fun i => i <= guest_seq w') (map id (guests d'))).
  { rewrite Hids. apply Forall_forall. intros i Hi.
    apply list_elem_of_fmap in Hi as (g & -> & Hg).
    rewrite Forall_forall in Hq. specialize (Hq g Hg). lia. }
  apply Forall_forall. intros g Hg. rewrite Forall_forall in H.
  apply H, list_elem_of_fmap. exists g. auto.
Qed.

Lemma keys_unique_sub (w : world) (d d' : database) :
  guests d' `sublist_of` guests d -> keys_unique w d -> keys_unique w d'.
Proof.
  intros Hsub [Hn Hq]. split.
  - eapply sublist_NoDup; [exact Hn|]. apply fmap_sublist, Hsub.
  - intros Hpg. specialize (Hq Hpg). rewrite Forall_forall in *.
    intros g Hg. apply Hq. eapply elem_of_sublist; eassumption.
Qed.

Lemma fields_owned_sub (d d' : database) :
  custom_fields d' ⊆ custom_fields d ->
  map id (guests d) ⊆ map id (guests d') ->
  fields_owned d -> fields_owned d'.
Proof.
  unfold fields_owned. rewrite !Forall_forall. intros Hc Hg H c Hin.
  apply Hg, H, Hc, Hin.
Qed.

Lemma consistent_commit (w : world) :
  consistent w -> consistent (set_committed (txn w) w).
Proof. intros (H1 & H2 & _). repeat split; assumption || apply H1. Qed.

Lemma consistent_rollback (w : world) :
  consistent w -> consistent (set_txn (committed w) w).
Proof. intros (_ & _ & H1 & H2). repeat split; assumption || apply H1. Qed.

Lemma consistent_seqs (gs fs : Z) (w : world) :
  consistent w -> guest_seq w <= gs -> consistent (set_seqs gs fs w).
Proof.
  intros (Hk & Hf & Hkc & Hfc) Hs. split; [|split; [|split]]; try assumption.
  - apply keys_unique_ids with (w := w) (d := txn w);
      [reflexivity | reflexivity | exact Hs | exact Hk].
  - apply keys_unique_ids with (w := w) (d := committed w);
      [reflexivity | reflexivity | exact Hs | exact Hkc].
Qed.

Lemma consistent_add_guest (g : Guest) (w w' : world) (r : exn + Z) :
  consistent w -> db_add_guest g w = (w', r) ->
  consistent w' /\ (forall i, r = inr i -> i ∈ map id (guests (txn w'))).
Proof.
  intros Hc. pose proof Hc as (Hk & Hf & Hkc & Hfc).
  pose proof (next_guest_id_fresh _ Hk) as Hfresh.
  assert (Hseq : guest_seq w <= match engine w with
                                | PostgreSQL => next_guest_id w
                                | SQLite => guest_seq w
                                end).
  { unfold next_guest_id. destruct (engine w); lia. }
  unfold db_add_guest. destruct (driver_refuses _ _);
    [intros [= <- <-]; split; [exact Hc | discriminate]|].
  cbv zeta. destruct (flush_guest_check _ _);
    [intros [= <- <-]; split; [apply consistent_seqs; assumption | discriminate]|].
  destruct (bool_decide _);
    [intros [= <- <-]; split; [apply consistent_seqs; assumption | discriminate]|].
  intros [= <- <-]. split.
  - split; [|split; [|split]].
    + split; simpl.
      * rewrite map_app. apply NoDup_app. split; [apply Hk|]. split.
        { intros x Hx Hx'. simpl in Hx'. apply list_elem_of_singleton in Hx'.
          subst x. contradiction. }
        { apply NoDup_singleton. }
      * intros Hpg. apply Forall_app. split.
        { destruct Hk as [_ Hq]. specialize (Hq Hpg).
          eapply Forall_impl; [exact Hq|]. simpl. intros. lia. }
        { constructor; [|constructor]. simpl. rewrite Hpg. lia. }
    + eapply fields_owned_sub; [| |exact Hf]; simpl; [reflexivity|].
      rewrite map_app. intros x Hx. apply elem_of_app. left. exact Hx.
    + apply keys_unique_ids with (w := w) (d := committed w);
        [reflexivity | reflexivity | exact Hseq | exact Hkc].
    + exact Hfc.
  - intros i [= <-]. simpl. rewrite map_app. apply elem_of_app. right.
    simpl. apply list_elem_of_singleton. reflexivity.
Qed.

Lemma consistent_add_field (gid : Z) (fname v : string) (w w' : world) (r : exn + unit) :
  consistent w -> gid ∈ map id (guests (txn w)) ->
  db_add_field gid fname v w = (w', r) ->
  consistent w' /\ guests (txn w') = guests (txn w).
Proof.
  intros Hc Hin. pose proof Hc as (Hk & Hf & Hkc & Hfc).
  unfold db_add_field. destruct (driver_refuses _ _);
    [intros [= <- <-]; split; [exact Hc | reflexivity]|].
  cbv zeta. destruct (flush_field_check _ _);
    [intros [= <- <-]; split; [apply consistent_seqs; [exact Hc | apply Z.le_refl]
                              | reflexivity]|].
  destruct (bool_decide _);
    [intros [= <- <-]; split; [apply consistent_seqs; [exact Hc | apply Z.le_refl]
                              | reflexivity]|].
  intros [= <- <-].
  split; [|reflexivity]. split; [exact Hk|]. split; [|split; assumption].
  unfold fields_owned. simpl. apply Forall_app. split; [exact Hf|].
  constructor; [exact Hin | constructor].
Qed.

Lemma consistent_add_custom_fields req gid items (w w' : world) (r : exn + unit) :
  consistent w -> gid ∈ map id (guests (txn w)) ->
  add_custom_fields req gid items w = (w', r) -> consistent w'.
Proof.
  revert w. induction items as [|[k v] items IH]; intros w Hc Hin;
    [intros [= <- _]; exact Hc|].
  simpl. unfold bind at 1.
  set (step := if String.prefix "custom_field_" k then _ else _).
  assert (Hs : consistent (fst (step w)) /\ guests (txn (fst (step w))) = guests (txn w)).
  { subst step. destruct (String.prefix _ _); [|split; [exact Hc | reflexivity]].
    destruct (form_get _ _) as [fname|]; [|split; [exact Hc | reflexivity]].
    destruct (_ && _); [|split; [exact Hc | reflexivity]].
    destruct (db_add_field gid fname v w) as [w1 r1] eqn:E.
    exact (consistent_add_field _ _ _ _ _ _ Hc Hin E). }
  destruct (step w) as [w1 [e|[]]]; simpl in Hs; destruct Hs as [Hc1 Hg1].
  - intros [= <- _]. exact Hc1.
  - apply IH; [exact Hc1 | rewrite Hg1; exact Hin].
Qed.

Lemma consistent_update_guest (g : Guest) (w w' : world) (r : exn + unit) :
  consistent w -> db_update_guest g w = (w', r) ->
  consistent w' /\ map id (guests (txn w')) = map id (guests (txn w)).
Proof.
  intros Hc. pose proof Hc as (Hk & Hf & Hkc & Hfc).
  unfold db_update_guest. destruct (driver_refuses _ _);
    [intros [= <- <-]; split; [exact Hc | reflexivity]|].
  destruct (flush_guest_check _ _);
    intros [= <- <-]; [split; [exact Hc | reflexivity]|].
  assert (Hids : map id (map (fun g' => if id g' =? id g
                                        then stored_guest (engine w) g else g')
                           (guests (txn w)))
                 = map id (guests (txn w))) by (apply replaced_row_ids; reflexivity).
  split; [|exact Hids]. split; [|split; [|split; assumption]].
  - apply keys_unique_ids with (w := w) (d := txn w);
      [exact Hids | reflexivity | apply Z.le_refl | exact Hk].
  - eapply fields_owned_sub; [| |exact Hf]; simpl; [reflexivity|].
    rewrite Hids. reflexivity.
Qed.

Lemma consistent_delete_fields (gid : Z) (w : world) :
  consistent w ->
  consistent (fst (delete_fields_of gid w))
  /\ guests (txn (fst (delete_fields_of gid w))) = guests (txn w).
Proof.
  intros (Hk & Hf & Hkc & Hfc). split; [|reflexivity].
  split; [exact Hk|]. split; [|split; assumption].
  eapply fields_owned_sub; [| |exact Hf]; simpl; [|reflexivity].
  intros c Hc. apply list_elem_of_filter in Hc as [_ Hc]. exact Hc.
Qed.

Lemma consistent_delete_guest (g : Guest) (w : world) :
  consistent w -> consistent (fst (db_delete_guest g w)).
Proof.
  intros (Hk & Hf & Hkc & Hfc).
  split; [|split; [|split; assumption]].
  - eapply keys_unique_sub; [|exact Hk]. simpl. apply sublist_filter.
  - unfold fields_owned in *. simpl. rewrite Forall_forall in *.
    intros c Hc. apply list_elem_of_filter in Hc as [Hn Hc].
    specialize (Hf c Hc). apply list_elem_of_fmap in Hf as (g0 & Hg0 & Hin).
    apply list_elem_of_fmap. exists g0. split; [exact Hg0|].
    apply list_elem_of_filter. split; [congruence | exact Hin].
Qed.

Lemma consistent_guarded {A} (f : A -> M response) (a : A) (w : world) :
  consistent w -> consistent (fst (f a w)) -> consistent (fst (login_required f a w)).
Proof.
  intros Hc Hf. unfold login_required, bind, gets.
  destruct (bool_decide _); [exact Hc | exact Hf].
Qed.

Lemma new_guest_view_consistent (req : request) (w : world) :
  consistent w -> consistent (fst (new_guest_view req w)).
Proof.
  intros Hc. destruct (method req) eqn:Hm;
    [rewrite (new_guest_view_get _ _ _ Hm); exact Hc|].
  rewrite (new_guest_view_post _ _ _ Hm).
  destruct (snd (guest_of_form req w)) as [e|g]; [exact (consistent_rollback _ Hc)|].
  destruct (db_add_guest g w) as [w1 [e|i]] eqn:Ha;
    destruct (consistent_add_guest _ _ _ _ Hc Ha) as [Hc1 Hin];
    [exact (consistent_rollback _ Hc1)|].
  specialize (Hin i eq_refl).
  apply consistent_commit in Hc1.
  destruct (add_custom_fields _ _ _ _) as [w2 [e|u]] eqn:Hf;
    pose proof (consistent_add_custom_fields _ _ _ _ _ _ Hc1 Hin Hf) as Hc2.
  - exact (consistent_rollback _ Hc2).
  - exact (consistent_commit _ Hc2).
Qed.

Lemma edit_guest_view_consistent (req : request) (gid : Z) (w : world) :
  consistent w -> consistent (fst (edit_guest_view (req, gid) w)).
Proof.
  intros Hc. destruct (guest_by_id gid (txn w)) as [guest|] eqn:Hf;
    [|rewrite (edit_guest_view_missing _ _ _ _ Hf); exact Hc].
  destruct (method req) eqn:Hm;
    [rewrite (edit_guest_view_get _ _ _ _ _ Hm Hf); exact Hc|].
  rewrite (edit_guest_view_post _ _ _ _ _ Hm Hf). cbv zeta.
  destruct (guest_edited req guest w) as [w0 [e|g]] eqn:Hg; simpl snd; cbv beta iota;
    [exact (consistent_rollback _ Hc)|].
  pose proof (reads_only_world _ _ _ _ (reads_only_guest_edited req guest) Hg) as ->.
  apply guest_edited_spec in Hg as (_ & Hid & _).
  destruct (guest_by_id_key _ _ _ Hf) as [Hgid Hin].
  destruct (db_update_guest g w) as [w1 [e|u]] eqn:Hu; [exact (consistent_rollback _ Hc)|].
  destruct (consistent_update_guest _ _ _ _ Hc Hu) as [Hc1 Hids].
  destruct (consistent_delete_fields gid _ Hc1) as [Hc2 Hgs].
  assert (Hown : id g ∈ map id (guests (txn (fst (delete_fields_of gid w1))))).
  { rewrite Hgs, Hids, Hid. apply list_elem_of_fmap. exists guest. auto. }
  destruct (add_custom_fields _ _ _ _) as [w2 [e|v]] eqn:Ha;
    pose proof (consistent_add_custom_fields _ _ _ _ _ _ Hc2 Hown Ha) as Hc3.
  - exact (consistent_rollback _ Hc3).
  - exact (consistent_commit _ Hc3).
Qed.

Lemma delete_guest_view_consistent (req : request) (gid : Z) (w : world) :
  consistent w -> consistent (fst (delete_guest_view (req, gid) w)).
Proof.
  intros Hc. destruct (guest_by_id gid (txn w)) as [guest|] eqn:Hf;
    [|rewrite (delete_guest_view_missing _ _ _ Hf); exact Hc].
  unfold App.delete_guest_view. unfold bind at 1. rewrite (get_or_404_found _ _ _ Hf).
  apply (consistent_commit (fst (db_delete_guest guest (fst (delete_fields_of gid w))))).
  apply consistent_delete_guest, consistent_delete_fields, Hc.
Qed.

Lemma settings_view_consistent (req : request) (w : world) :
  consistent w -> consistent (fst (settings_view str req w)).
Proof.
  intros Hc. pose proof Hc as (Hk & Hf & _).
  assert (Hnew : forall l f,
            consistent (set_flashes f (set_committed (with_settings l (txn w))
                                         (set_txn (with_settings l (txn w)) w))))
    by (intros; repeat split; assumption || apply Hk).
  unfold settings_view. destruct (method req); [exact Hc|].
  destruct (form_get (form req) "new_password") as [np|]; [|exact Hc].
  destruct (sent (Some np)); [|exact Hc].
  destruct (bool_decide _); [exact Hc|].
  assert (Hold : forall f, consistent (set_flashes f (set_txn (committed w) w)))
    by (intros; apply (consistent_rollback _ Hc)).
  unfold bind, try_except, gets, db_set_password, db_commit, db_rollback, flash,
    modify, ret.
  destruct (password_row (txn w)).
  - destruct (driver_refuses _ _); [apply Hold | apply Hnew].
  - unfold db_add_default_password, modify. cbv beta iota zeta.
    change (engine (set_txn ?d w)) with (engine w).
    destruct (driver_refuses _ _); [apply Hold | apply Hnew].
Qed.

(** X19.  The views keep the constraints of the tables: if the primary
    keys of [guests] are distinct (and, on PostgreSQL, not ahead of their
    sequence) and every custom field belongs to a guest of the table, in
    the SQLAlchemy session and in what is committed, then the same holds
    after [new_guest], [edit_guest], [delete_guest], [settings], [login]
    and [logout], whatever the request and whether or not the view
    succeeds. *)
Theorem views_keep_tables_consistent (req : request) (gid : Z) (w : world) :
  consistent w ->
  consistent (fst (new_guest str req w))
  /\ consistent (fst (edit_guest str (req, gid) w))
  /\ consistent (fst (delete_guest str (req, gid) w))
  /\ consistent (fst (settings_route str req w))
  /\ consistent (fst (login req w))
  /\ consistent (fst (logout req w)).
Proof.
  intros Hc.
  split; [apply consistent_guarded, new_guest_view_consistent; exact Hc|].
  split; [apply consistent_guarded, edit_guest_view_consistent; exact Hc|].
  split; [apply consistent_guarded, delete_guest_view_consistent; exact Hc|].
  split; [apply consistent_guarded, settings_view_consistent; exact Hc|].
  split; [|exact Hc].
  destruct (method req) eqn:Hm; [rewrite (login_get _ _ Hm); exact Hc|].
  rewrite (login_post _ _ Hm). destruct (bool_decide _); exact Hc.
Qed.

Lemma find_after {A} (f : A -> bool) (l l' : list A) :
  find f l = None -> find f (l ++ l') = find f l'.
Proof.
  induction l as [|x l IH]; [reflexivity|]. simpl.
  destruct (f x); [discriminate | exact IH].
Qed.

(** X20.  What [new_guest] saved is what [guest_detail] shows next: in
    consistent tables, after the redirect to the archive, the page of the
    key the guest received holds the row with the form's text values and
    the custom fields of the form, in form order; the values of
    [String(n)] columns and the field names are as the engine keeps them
    (as sent on SQLite, the first [n] characters on PostgreSQL). *)
Theorem new_guest_then_detail (req req' : request) (w w' : world) :
  consistent w ->
  new_guest_view req w = (w', inr (Redirect "archive" [])) ->
  exists g fields,
    guest_detail_view (req', next_guest_id w) w' = (w', inr (detail_page g fields))
    /\ id g = next_guest_id w
    /\ text_as_kept (engine w) req g
    /\ map field_content fields
       = map (kept_entry (engine w) (next_guest_id w)) (custom_entries req)
    /\ (engine w = SQLite ->
        text_as_sent req g
        /\ map field_content fields
           = map (owned_entry (next_guest_id w)) (custom_entries req)).
Proof.
  intros Hc H. pose proof Hc as (Hk & Hf & _).
  pose proof (next_guest_id_fresh _ Hk) as Hfresh.
  apply new_guest_view_success in H as (g & i & w1 & w2 & Hg & Ha & Hcf & ->).
  apply guest_of_form_spec in Hg as (Ht & _).
  apply db_add_guest_spec in Ha as (-> & Hgs & Hcf1 & _ & _ & _ & _ & Hen).
  apply add_custom_fields_spec in Hcf as (new & Hcf2 & Hmap & Hg2 & _).
  simpl in Hcf2, Hg2, Hmap. rewrite Hen in Hmap.
  pose proof (text_as_kept_stored (engine w) req g (next_guest_id w) Ht) as Hkept.
  assert (Hfound : guest_by_id (next_guest_id w) (txn (save_succeeded w2))
                   = Some (with_id (next_guest_id w) (stored_guest (engine w) g))).
  { unfold guest_by_id. simpl. rewrite Hg2, Hgs.
    apply guest_by_id_none in Hfresh. unfold guest_by_id in Hfresh.
    rewrite (find_after _ _ _ Hfresh). simpl. rewrite Z.eqb_refl. reflexivity. }
  assert (Hfields : map field_content
                      (fields_by_guest (next_guest_id w) (txn (save_succeeded w2)))
                    = map (kept_entry (engine w) (next_guest_id w)) (custom_entries req)).
  { pose proof (owned_fields _ _ _ _ Hmap) as Hown.
    unfold fields_by_guest. simpl. rewrite Hcf2, Hcf1, filter_app.
    rewrite (filter_all _ new) by exact Hown.
    rewrite filter_none; [exact Hmap|].
    unfold fields_owned in Hf. eapply Forall_impl; [exact Hf|].
    simpl. intros c Hc' Hn. rewrite Hn in Hc'. contradiction. }
  exists (with_id (next_guest_id w) (stored_guest (engine w) g)),
    (fields_by_guest (next_guest_id w) (txn (save_succeeded w2))).
  split; [apply guest_detail_view_found, Hfound|].
  split; [reflexivity|]. split; [exact Hkept|]. split; [exact Hfields|].
  intros Hq. rewrite Hq in Hkept, Hfields |- *.
  split; [apply text_as_kept_SQLite, Hkept | exact Hfields].
Qed.


(** *** The dashboard *)

Ltac order_facts :=
  unfold not_after, entered_before, date_ltb in *;
  repeat match goal with
         | |- context [entry_date ?x] => destruct (entry_date x) as [[? ? ?]|]
         | H : context [entry_date ?x] |- _ => destruct (entry_date x) as [[? ? ?]|]
         | |- context [match ?b with PostgreSQL => _ | SQLite => _ end] => destruct b
         | H : context [match ?b with PostgreSQL => _ | SQLite => _ end] |- _ => destruct b
         end;
  simpl in *; try discriminate; try reflexivity;
  rewrite ?orb_true_iff, ?orb_false_iff, ?andb_true_iff, ?andb_false_iff,
    ?Z.ltb_lt, ?Z.ltb_ge, ?Z.eqb_eq, ?Z.eqb_neq in *.

Lemma entered_before_asym (b : backend) (x y : Guest) :
  entered_before b x y = true -> not_after b y x.
Proof. intros H. order_facts. lia. Qed.

Lemma not_after_trans (b : backend) (x y z : Guest) :
  not_after b x y -> not_after b y z -> not_after b x z.
Proof. intros H1 H2. order_facts. lia. Qed.

Lemma insert_desc_perm (b : backend) (g : Guest) (l : list Guest) :
  insert_desc b g l ≡ₚ g :: l.
Proof.
  induction l as [|h t IH]; [reflexivity|]. simpl.
  destruct (entered_before b g h); [|reflexivity].
  rewrite IH. apply Permutation_swap.
Qed.

Lemma order_by_entry_desc_perm (b : backend) (l : list Guest) :
  order_by_entry_desc b l ≡ₚ l.
Proof.
  induction l as [|g l IH]; [reflexivity|]. simpl.
  rewrite insert_desc_perm, IH. reflexivity.
Qed.

Lemma insert_desc_sorted (b : backend) (g : Guest) (l : list Guest) :
  StronglySorted (not_after b) l -> StronglySorted (not_after b) (insert_desc b g l).
Proof.
  induction 1 as [|h t Hs IH Hh]; simpl; [repeat constructor|].
  destruct (entered_before b g h) eqn:E.
  - constructor; [exact IH|]. rewrite insert_desc_perm.
    constructor; [apply entered_before_asym, E | exact Hh].
  - constructor; [constructor; assumption|].
    constructor; [exact E|]. eapply Forall_impl; [exact Hh|].
    intros x Hx. eapply not_after_trans; [exact E | exact Hx].
Qed.

Lemma order_by_entry_desc_sorted (b : backend) (l : list Guest) :
  StronglySorted (not_after b) (order_by_entry_desc b l).
Proof.
  induction l as [|g l IH]; [constructor|]. simpl. apply insert_desc_sorted, IH.
Qed.

Lemma sorted_take_drop {A} (R : A -> A -> Prop) (l : list A) (n : nat) (x y : A) :
  StronglySorted R l -> x ∈ take n l -> y ∈ drop n l -> R x y.
Proof.
  intros Hs. revert n. induction Hs as [|h t Hs IH Hh]; intros n Hx Hy.
  - rewrite take_nil in Hx. inversion Hx.
  - destruct n as [|n]; [inversion Hx|]. simpl in Hx, Hy.
    apply elem_of_cons in Hx as [-> | Hx]; [|exact (IH n Hx Hy)].
    rewrite Forall_forall in Hh. apply Hh. eapply elem_of_sublist; [exact Hy|].
    apply sublist_drop.
Qed.

(** X21.  The dashboard changes nothing, counts every row of [guests] and
    shows five of them as the latest, or all when there are fewer: rows of
    the table, each as often as it occurs there at most, in descending
    order of entry date, and no row left out comes before one that is
    shown. *)
Theorem dashboard_latest_guests (req : request) (w : world) :
  exists latest,
    dashboard_view req w
    = (w, inr (Render "dashboard.html"
                 [("total_guests", CInt (Z.of_nat (length (guests (txn w)))));
                  ("expiring_permits",
                   CInt (Z.of_nat (length (check_expiring_permits (txn w) (now w)))));
                  ("latest_guests", CGuests latest);
                  ("expiring_list", CGuests (check_expiring_permits (txn w) (now w)))]))
    /\ length latest = Nat.min 5 (length (guests (txn w)))
    /\ latest ⊆+ guests (txn w)
    /\ StronglySorted (not_after (engine w)) latest
    /\ forall x g, x ∈ latest -> g ∈ guests (txn w) -> g ∉ latest ->
         not_after (engine w) x g.
Proof.
  exists (take 5 (order_by_entry_desc (engine w) (guests (txn w)))).
  pose proof (order_by_entry_desc_perm (engine w) (guests (txn w))) as Hp.
  pose proof (order_by_entry_desc_sorted (engine w) (guests (txn w))) as Hs.
  split; [reflexivity|]. split; [|split; [|split]].
  - rewrite length_take, (Permutation_length Hp). reflexivity.
  - rewrite <- Hp at 2. apply submseteq_take.
  - revert Hs. generalize (order_by_entry_desc (engine w) (guests (txn w))).
    intros l Hs. generalize 5%nat. induction Hs as [|h t Hs IH Hh]; intros [|n];
      simpl; try constructor; [apply IH|].
    rewrite Forall_forall in *. intros x Hx. apply Hh.
    eapply elem_of_sublist; [exact Hx | apply sublist_take].
  - intros x g Hx Hg Hn. eapply sorted_take_drop; [exact Hs | exact Hx |].
    rewrite <- Hp, <- (take_drop 5) in Hg. apply elem_of_app in Hg as [Hg | Hg];
      [contradiction | exact Hg].
Qed.

(** *** The age shown by the templates *)

(** X22.  [calculate_age] answers [None] for no date and otherwise the
    number of birthdays that have passed: the only [a] such that the
    birthday in the year of birth plus [a] is today or earlier and the next
    one is still to come.  It is not negative for a birth date that is not
    in the future, and the world is left as it was. *)
Theorem calculate_age_counts_birthdays (b : date) (w : world) :
  calculate_age None w = (w, inr None)
  /\ exists age,
       calculate_age (Some b) w = (w, inr (Some age))
       /\ (forall a,
             date_le (birthday b (year b + a)) (now w)
             /\ date_ltb (now w) (birthday b (year b + a + 1)) = true
             <-> a = age)
       /\ (date_le b (now w) -> 0 <= age).
Proof.
  split; [reflexivity|]. eexists. split; [reflexivity|].
  unfold date_le, date_ltb, birthday, month_day_lt. simpl.
  destruct b as [yb mb db]. destruct (now w) as [yt mt dt]. simpl.
  split.
  - intros a. destruct ((mt <? mb) || (mt =? mb) && (dt <? db)) eqn:E;
      rewrite ?orb_true_iff, ?orb_false_iff, ?andb_true_iff, ?andb_false_iff,
        ?Z.ltb_lt, ?Z.ltb_ge, ?Z.eqb_eq, ?Z.eqb_neq in *; lia.
  - destruct ((mt <? mb) || (mt =? mb) && (dt <? db)) eqn:E;
      rewrite ?orb_true_iff, ?orb_false_iff, ?andb_true_iff, ?andb_false_iff,
        ?Z.ltb_lt, ?Z.ltb_ge, ?Z.eqb_eq, ?Z.eqb_neq in *; lia.
Qed.

(** *** The view of [/calculate_fiscal_code] and the state *)

(** X23.  [calc_fiscal_code] never touches the database, the session or
    the flashed messages, and calls [calculate_fiscal_code] once at most.
    A JSON body that is not an object is not answered with an error
    object: [data.get] stands before the [try], so the [AttributeError]
    leaves the view. *)
Theorem calc_fiscal_code_touches_nothing (req : request) (w : world) :
  let w' := fst (calc_fiscal_code calculate_fiscal_code str req w) in
  committed w' = committed w /\ txn w' = txn w
  /\ session w' = session w /\ flashes w' = flashes w
  /\ (core_calls w' = core_calls w \/ exists c, core_calls w' = (core_calls w ++ [c])%list)
  /\ ((forall m, get_json req <> JDict m) ->
      calc_fiscal_code calculate_fiscal_code str req w = (w, inl (AttributeError "get"))).
Proof.
  cbv zeta. destruct (get_json req) as [| | | | | |m] eqn:E;
    try (rewrite calc_fiscal_code_not_dict by (intros ?; rewrite E; discriminate);
         repeat split; auto).
  rewrite (calc_fiscal_code_dict _ _ _ _ _ E).
  repeat match goal with
         | |- context [match ?x with _ => _ end] => destruct x
         end;
    simpl; (do 4 (split; [reflexivity|])); (split; [eauto|]);
    intros H; exfalso; eapply H; reflexivity.
Qed.

End Guests.

(** *** Importing a file *)

Section ImportData.

Variable DataFrame : Type.
Variable read_excel : FileStorage -> exn + DataFrame.
Variable read_csv : FileStorage -> exn + DataFrame.
Variable columns : DataFrame -> list string.
Variable import_rows : DataFrame -> M Z.
Variable flush_imported : DataFrame -> M unit.
Variable str : exn -> string.

Local Abbreviation import_try :=
  (import_try DataFrame read_excel read_csv columns import_rows flush_imported).
Local Abbreviation import_data_view :=
  (import_data_view DataFrame read_excel read_csv columns import_rows flush_imported str).
Local Abbreviation read_upload := (read_upload DataFrame read_excel read_csv).

Lemma redirect_for_export (w : world) :
  redirect_for "export" [] w = (w, inl (BuildError "export")).
Proof. reflexivity. Qed.

(** The [try] of [import_data], case by case. *)
Lemma import_try_cases (file : FileStorage) (w : world) :
  import_try file w =
    match read_upload file with
    | None =>
        (set_flashes
           (flashes w ++ [("Formato file non supportato. Usa Excel (.xlsx) o CSV (.csv)",
                          "danger")]) w,
         inl (BuildError "export"))
    | Some (inl e) => (w, inl e)
    | Some (inr df) =>
        let missing :=
          List.filter (fun col : string => negb (bool_decide (col ∈ columns df)))
            required_columns in
        match missing with
        | _ :: _ =>
            (set_flashes
               (flashes w ++ [("File non valido. Mancano le colonne: "
                               ++ String.concat ", " missing, "danger")]) w,
             inl (BuildError "export"))
        | [] =>
            match import_rows df w with
            | (w1, inl e) => (w1, inl e)
            | (w1, inr n) =>
                match flush_imported df w1 with
                | (w2, inl e) => (w2, inl e)
                | (w2, inr _) => (import_succeeded n w2, inr None)
                end
            end
        end
    end.
Proof.
  unfold App.import_try, App.read_upload.
  destruct (endswith (filename file) ".xlsx");
    [|destruct (endswith (filename file) ".csv"); [|reflexivity]].
  - unfold bind at 1. unfold bind at 1. unfold lift.
    destruct (read_excel file) as [e|df]; [reflexivity|].
    unfold ret at 1. cbv beta iota zeta.
    destruct (List.filter _ required_columns); [|reflexivity].
    unfold bind at 1. destruct (import_rows df w) as [w1 [e|n]]; [reflexivity|].
    unfold bind at 1. destruct (flush_imported df w1) as [w2 [e|u]]; reflexivity.
  - unfold bind at 1. unfold bind at 1. unfold lift.
    destruct (read_csv file) as [e|df]; [reflexivity|].
    unfold ret at 1. cbv beta iota zeta.
    destruct (List.filter _ required_columns); [|reflexivity].
    unfold bind at 1. destruct (import_rows df w) as [w1 [e|n]]; [reflexivity|].
    unfold bind at 1. destruct (flush_imported df w1) as [w2 [e|u]]; reflexivity.
Qed.

Lemma import_try_falls_through (file : FileStorage) (w w' : world) (r : option response) :
  import_try file w = (w', inr r) -> r = None.
Proof.
  rewrite import_try_cases. destruct (read_upload file) as [[e|df]|]; try discriminate.
  cbv zeta. destruct (List.filter _ required_columns); [|discriminate].
  destruct (import_rows df w) as [w1 [e|n]]; [discriminate|].
  destruct (flush_imported df w1) as [w2 [e|u]]; [discriminate|].
  intros [= _ <-]. reflexivity.
Qed.

Lemma import_data_view_confirmed files req file v (w : world) :
  files_get files "import_file" = Some file ->
  filename file <> "" ->
  form_get (form req) "confirm_import" = Some v ->
  import_data_view (files, req) w =
    match import_try file w with
    | (w1, inl e) =>
        (set_flashes
           (flashes w1 ++ [("Errore durante l'importazione: " ++ str e, "danger")])
           (set_txn (committed w1) w1),
         inl (BuildError "export"))
    | (w1, inr _) => (w1, inl (BuildError "export"))
    end.
Proof.
  intros Hf Hn Hc. unfold App.import_data_view. rewrite Hf, Hc.
  apply String.eqb_neq in Hn. rewrite Hn.
  unfold bind at 1. unfold try_except.
  destruct (import_try file w) as [w1 [e|r]] eqn:E; [reflexivity|].
  apply import_try_falls_through in E as ->. reflexivity.
Qed.

(** X24.  [import_data] never answers.  Every path through it ends in
    [url_for('export')], and no view function is called [export] (the
    view of [/export] is [export_data]), so the view ends in a
    [BuildError] whatever the upload and whatever pandas and the engine do
    with it.  The endpoints the other views redirect to can be built:
    [login], [dashboard], [archive], [settings] and also [export_data]
    without values, [guest_detail] with its [guest_id] and not without. *)
Theorem import_data_never_answers (files : list (string * FileStorage)) (req : request)
    (w : world) :
  snd (import_data_view (files, req) w) = inl (BuildError "export")
  /\ rule_of endpoints "export" = None
  /\ (forall e, e ∈ ["login"; "dashboard"; "archive"; "settings"; "export_data"] ->
      redirect_for e [] w = (w, inr (Redirect e [])))
  /\ (forall gid,
        redirect_for "guest_detail" [("guest_id", gid)] w
        = (w, inr (Redirect "guest_detail" [("guest_id", gid)])))
  /\ redirect_for "guest_detail" [] w = (w, inl (BuildError "guest_detail")).
Proof.
  split; [|split; [reflexivity|split; [|split; [intros gid; reflexivity | reflexivity]]]].
  2: { intros e He.
       repeat (apply elem_of_cons in He as [-> | He]; [reflexivity|]).
       inversion He. }
  destruct (files_get files "import_file") as [file|] eqn:Hf;
    [|unfold App.import_data_view; rewrite Hf; reflexivity].
  destruct (String.eqb (filename file) "") eqn:Hn;
    [unfold App.import_data_view; rewrite Hf, Hn; reflexivity|].
  destruct (form_get (form req) "confirm_import") as [v|] eqn:Hc;
    [|unfold App.import_data_view; rewrite Hf, Hn, Hc; reflexivity].
  apply String.eqb_neq in Hn. rewrite (import_data_view_confirmed _ _ _ _ _ Hf Hn Hc).
  destruct (import_try file w) as [w1 [e|r]]; reflexivity.
Qed.

(** X25.  Without a file under ['import_file'], with a file without a
    name, or without ['confirm_import'] in the form, [import_data] flashes
    one message and reads nothing: the database and the session are as
    before. *)
Theorem import_data_turns_away (files : list (string * FileStorage)) (req : request)
    (w : world) :
  turned_away files req ->
  exists msg,
    import_data_view (files, req) w
    = (set_flashes (flashes w ++ [(msg, "danger")]) w, inl (BuildError "export"))
    /\ (msg = "Nessun file selezionato" \/ msg = CONFIRM_NEEDED).
Proof.
  unfold turned_away, App.import_data_view.
  destruct (files_get files "import_file") as [file|]; [|intros _; eauto].
  destruct (String.eqb (filename file) "") eqn:Hn; [intros _; eauto|].
  apply String.eqb_neq in Hn. intros [H | H]; [contradiction|]. rewrite H. eauto.
Qed.


End ImportData.

(** *** Dates *)

Lemma all_from_spec f n o x :
  all_from f n o = true -> o <= x < o + Z.of_nat n -> f x = true.
Proof.
  revert o. induction n as [|n IH]; intros o H Hx; [lia|].
  simpl in H. apply andb_true_iff in H as [H1 H2].
  destruct (Z.eq_dec x o) as [->|Hne]; [exact H1|].
  apply (IH (o + 1)); [exact H2 | lia].
Qed.

Lemma month_day_checked (leapyear : bool) (n : Z) :
  0 <= n < 365 -> month_day_ok leapyear n = true.
Proof.
  intros Hn. apply (all_from_spec _ 365 0); [|lia].
  destruct leapyear; vm_compute; reflexivity.
Qed.

Lemma ord2ymd_cases (n : Z) :
  let r3 := (((n - 1) mod 146097) mod 36524) mod 1461 in
  let a := ((n - 1) mod 146097) / 36524 in
  let b := (((n - 1) mod 146097) mod 36524) / 1461 in
  let c := r3 / 365 in
  let y := (n - 1) / 146097 * 400 + 1 + a * 100 + b * 4 + c in
  ord2ymd n =
    if (c =? 4) || (a =? 4) then Date (y - 1) 12 31
    else
      let '(m, dd) := month_day (r3 mod 365) ((c =? 3) && (negb (b =? 24) || (a =? 3))) in
      Date y m dd.
Proof.
  cbv zeta. unfold ord2ymd, month_day. cbv zeta.
  destruct (_ || _); [reflexivity|].
  destruct (_ <? _); reflexivity.
Qed.

Lemma days_in_month_table (y m : Z) :
  1 <= m <= 12 ->
  days_in_month y m = table_at DAYS_IN_MONTH m + (if (m =? 2) && is_leap y then 1 else 0).
Proof.
  intros Hm. assert (H : m = 1 \/ m = 2 \/ m = 3 \/ m = 4 \/ m = 5 \/ m = 6 \/ m = 7
                         \/ m = 8 \/ m = 9 \/ m = 10 \/ m = 11 \/ m = 12) by lia.
  unfold days_in_month.
  repeat (destruct H as [-> | H]; [simpl; destruct (is_leap y); reflexivity|]).
  subst m. reflexivity.
Qed.

Ltac leap_arith :=
  unfold is_leap in *;
  rewrite ?andb_true_iff, ?andb_false_iff, ?orb_true_iff, ?orb_false_iff,
    ?negb_true_iff, ?negb_false_iff, ?Z.eqb_eq, ?Z.eqb_neq in *;
  Z.div_mod_to_equations; lia.

Lemma days_before_year_cycle (q a b c : Z) :
  0 <= a <= 3 -> 0 <= b <= 24 -> 0 <= c <= 3 ->
  days_before_year (q * 400 + 1 + a * 100 + b * 4 + c)
  = 146097 * q + 36524 * a + 1461 * b + 365 * c.
Proof. intros. unfold days_before_year. cbv zeta. Z.div_mod_to_equations. lia. Qed.

Lemma is_leap_cycle (q a b c : Z) :
  0 <= a <= 3 -> 0 <= b <= 24 -> 0 <= c <= 3 ->
  is_leap (q * 400 + 1 + a * 100 + b * 4 + c)
  = (c =? 3) && (negb (b =? 24) || (a =? 3)).
Proof.
  intros. destruct (is_leap _) eqn:E; symmetry; leap_arith.
Qed.

Lemma ord2ymd_spec (n : Z) :
  1 <= n -> ymd2ord (ord2ymd n) = n /\ valid_gregorian (ord2ymd n) = true.
Proof.
  intros Hn. rewrite ord2ymd_cases. cbv zeta.
  set (q := (n - 1) / 146097). set (r1 := (n - 1) mod 146097).
  set (a := r1 / 36524). set (r2 := r1 mod 36524).
  set (b := r2 / 1461). set (r3 := r2 mod 1461).
  set (c := r3 / 365). set (r4 := r3 mod 365).
  assert (Hq : n - 1 = 146097 * q + r1 /\ 0 <= r1 < 146097 /\ 0 <= q)
    by (subst q r1; Z.div_mod_to_equations; lia).
  assert (Ha : r1 = 36524 * a + r2 /\ 0 <= r2 < 36524 /\ 0 <= a <= 4)
    by (subst a r2; Z.div_mod_to_equations; lia).
  assert (Hb : r2 = 1461 * b + r3 /\ 0 <= r3 < 1461 /\ 0 <= b <= 24)
    by (subst b r3; Z.div_mod_to_equations; lia).
  assert (Hc : r3 = 365 * c + r4 /\ 0 <= r4 < 365 /\ 0 <= c <= 4)
    by (subst c r4; Z.div_mod_to_equations; lia).
  clearbody q r1 a r2 b r3 c r4.
  destruct ((c =? 4) || (a =? 4)) eqn:Hsp.
  - apply orb_true_iff in Hsp. rewrite !Z.eqb_eq in Hsp.
    set (Y := q * 400 + 1 + a * 100 + b * 4 + c - 1).
    assert (Hleap : is_leap Y = true) by (subst Y; leap_arith).
    assert (Hdby : days_before_year Y = n - 366).
    { subst Y. unfold days_before_year. cbv zeta. Z.div_mod_to_equations. lia. }
    split.
    + unfold ymd2ord, days_before_month. simpl year. simpl month. simpl day.
      rewrite Hleap, Hdby.
      change (table_at DAYS_BEFORE_MONTH 12) with 334.
      change ((2 <? 12) && true) with true. cbv iota. lia.
    + unfold valid_gregorian. simpl year. simpl month. simpl day.
      unfold days_in_month. rewrite Hleap.
      change (if 12 =? 2 then 29 else _) with 31.
      rewrite !andb_true_iff, !Z.leb_le. subst Y. lia.
  - apply orb_false_iff in Hsp. rewrite !Z.eqb_neq in Hsp.
    set (leap := (c =? 3) && (negb (b =? 24) || (a =? 3))).
    set (y := q * 400 + 1 + a * 100 + b * 4 + c).
    assert (Hleap : is_leap y = leap) by (apply is_leap_cycle; lia).
    assert (Hdby : days_before_year y = n - 1 - r4)
      by (subst y; rewrite days_before_year_cycle; lia).
    pose proof (month_day_checked leap r4 (proj1 (proj2 Hc))) as Hok.
    unfold month_day_ok in Hok. destruct (month_day r4 leap) as [m dd].
    rewrite !andb_true_iff, !Z.leb_le, Z.eqb_eq in Hok.
    destruct Hok as ((((Hm1 & Hm2) & Hd1) & Hd2) & Hsum).
    split.
    + unfold ymd2ord, days_before_month. simpl year. simpl month. simpl day.
      rewrite Hleap, Hdby. lia.
    + unfold valid_gregorian. simpl year. simpl month. simpl day.
      rewrite days_in_month_table, Hleap by lia.
      rewrite !andb_true_iff, !Z.leb_le. subst y. lia.
Qed.

Lemma year_in_range (d : date) :
  1 <= day d -> 1 <= month d <= 12 -> ymd2ord d <= MAXORDINAL -> year d <= MAXYEAR.
Proof.
  intros Hd Hm Ho. unfold ymd2ord, days_before_year, days_before_month, MAXORDINAL in Ho.
  cbv zeta in Ho.
  assert (Ht : 0 <= table_at DAYS_BEFORE_MONTH (month d)).
  { assert (H : month d = 1 \/ month d = 2 \/ month d = 3 \/ month d = 4 \/ month d = 5
                \/ month d = 6 \/ month d = 7 \/ month d = 8 \/ month d = 9
                \/ month d = 10 \/ month d = 11 \/ month d = 12) by lia.
    repeat (destruct H as [-> | H]; [vm_compute; discriminate|]).
    rewrite H. vm_compute. discriminate. }
  assert (Hl : 0 <= (if (2 <? month d) && is_leap (year d) then 1 else 0))
    by (destruct (_ && _); lia).
  unfold MAXYEAR. Z.div_mod_to_equations. lia.
Qed.

Lemma add_days_spec (d e : date) (k : Z) :
  add_days d k = inr e ->
  ymd2ord e = ymd2ord d + k /\ valid_datetime e = true.
Proof.
  unfold add_days. cbv zeta.
  destruct ((1 <=? ymd2ord d + k) && (ymd2ord d + k <=? MAXORDINAL)) eqn:Hr;
    [|discriminate].
  apply andb_true_iff in Hr as [H1 H2]. apply Z.leb_le in H1, H2.
  intros [= <-]. destruct (ord2ymd_spec _ H1) as [Ho Hv].
  split; [exact Ho|]. unfold valid_datetime. rewrite Hv. simpl.
  apply Z.leb_le. unfold valid_gregorian in Hv.
  rewrite !andb_true_iff, !Z.leb_le in Hv.
  apply year_in_range; [lia | lia | rewrite Ho; exact H2].
Qed.

Lemma strptime_str_valid (s : string) (d : date) :
  strptime_str s = inr d -> valid_datetime d = true.
Proof.
  unfold strptime_str. destruct (match_ymd _) as [[[[y mo] dd] rest]|]; [|discriminate].
  destruct rest; [|discriminate].
  destruct (valid_datetime _) eqn:Hv; [|discriminate]. intros [= <-]. exact Hv.
Qed.

Lemma parsed_or_none_valid (c : string) (o : option date) :
  parsed_or_none c o -> date_or_null o.
Proof.
  unfold parsed_or_none. destruct (nonempty c).
  - intros (d & Hd & ->). exact (strptime_str_valid _ _ Hd).
  - intros ->. exact I.
Qed.

Lemma parsed_or_kept_valid (c : string) (old o : option date) :
  date_or_null old -> parsed_or_kept c old o -> date_or_null o.
Proof.
  unfold parsed_or_kept. intros Hold. destruct (nonempty c).
  - intros (d & Hd & ->). exact (strptime_str_valid _ _ Hd).
  - intros ->. exact Hold.
Qed.

Lemma guest_edited_stay req g0 w g :
  guest_edited req g0 w = (w, inr g) ->
  match form_get (form req) "check_in_date" with
  | Some c => parsed_or_kept c (check_in_date g0) (check_in_date g)
  | None => check_in_date g = check_in_date g0
  end
  /\ match form_get (form req) "check_out_date" with
     | Some c => parsed_or_kept c (check_out_date g0) (check_out_date g)
     | None => check_out_date g = check_out_date g0
     end.
Proof.
  unfold guest_edited. intros H. repeat ro_bind H. injection H as <-.
  ro_bind E12. ro_bind E13. injection E12 as <-. injection E13 as <-.
  apply form_date_if_sent_spec in E19, E20. simpl.
  unfold parsed_or_none, parsed_or_kept in *.
  split.
  - destruct (form_get (form req) "check_in_date") as [c|]; [|rewrite E19; reflexivity].
    destruct (nonempty c); [destruct E19 as (d & Hd & ->); eauto | rewrite E19; reflexivity].
  - destruct (form_get (form req) "check_out_date") as [c|]; [|rewrite E20; reflexivity].
    destruct (nonempty c); [destruct E20 as (d & Hd & ->); eauto | rewrite E20; reflexivity].
Qed.

Lemma guest_of_form_dates req w g :
  valid_datetime (now w) = true -> guest_of_form req w = (w, inr g) -> dates_valid g.
Proof.
  intros Hnow H.
  apply guest_of_form_spec in H
    as (_ & _ & (s & _ & Hb) & (c1 & _ & Hp) & Hag & (c2 & _ & Hh) & (c3 & _ & He)
        & Hx & Hci & Hco).
  split; [exact (strptime_str_valid _ _ Hb)|].
  pose proof (parsed_or_none_valid _ _ Hp) as Hpd.
  split; [exact Hpd|]. split.
  { unfold permit_dates_agree in Hag. destruct (permit_date g) as [d|];
      destruct (permit_expiry g) as [e|]; try contradiction; [|exact I].
    exact (proj2 (add_days_spec _ _ _ Hag)). }
  split; [exact (parsed_or_none_valid _ _ Hh)|]. split.
  { destruct (nonempty c3).
    - destruct He as (d & Hd & ->). exact (strptime_str_valid _ _ Hd).
    - rewrite He. exact Hnow. }
  split; [rewrite Hx; exact I|]. split.
  - destruct (form_get (form req) "check_in_date");
      [exact (parsed_or_none_valid _ _ Hci) | rewrite Hci; exact I].
  - destruct (form_get (form req) "check_out_date");
      [exact (parsed_or_none_valid _ _ Hco) | rewrite Hco; exact I].
Qed.

Lemma guest_edited_dates req g0 w g :
  dates_valid g0 -> guest_edited req g0 w = (w, inr g) -> dates_valid g.
Proof.
  intros (_ & V2 & V3 & V4 & V5 & V6 & V7 & V8) H.
  pose proof (guest_edited_stay _ _ _ _ H) as [Hci Hco].
  apply guest_edited_spec in H
    as (_ & _ & (s & _ & Hb) & (c1 & _ & Hp) & (c2 & _ & Hh) & (c3 & _ & He) & Hx).
  split; [exact (strptime_str_valid _ _ Hb)|].
  assert (Hperm : date_or_null (permit_date g) /\ date_or_null (permit_expiry g)).
  { destruct (nonempty c1).
    - destruct Hp as (d & e & Hd & Hadd & -> & ->).
      split; [exact (strptime_str_valid _ _ Hd) | exact (proj2 (add_days_spec _ _ _ Hadd))].
    - destruct Hp as [-> ->]. split; assumption. }
  destruct Hperm as [H2 H3]. split; [exact H2|]. split; [exact H3|].
  split; [exact (parsed_or_kept_valid _ _ _ V4 Hh)|].
  split; [exact (parsed_or_kept_valid _ _ _ V5 He)|].
  split; [rewrite Hx; exact V6|]. split.
  - destruct (form_get (form req) "check_in_date");
      [exact (parsed_or_kept_valid _ _ _ V7 Hci) | rewrite Hci; exact V7].
  - destruct (form_get (form req) "check_out_date");
      [exact (parsed_or_kept_valid _ _ _ V8 Hco) | rewrite Hco; exact V8].
Qed.

Lemma with_id_dates (i : Z) (g : Guest) : dates_valid g -> dates_valid (with_id i g).
Proof. intros H. exact H. Qed.

Section Dates.

Variable str : exn -> string.

Local Abbreviation new_guest_view := (new_guest_view str).
Local Abbreviation edit_guest_view := (edit_guest_view str).

(** X29.  A permit expires 180 days after its date, on the calendar: when
    [new_guest] or [edit_guest] saves a form whose ['permit_date'] is not
    empty, the saved row holds the parsed date and an expiry that is a
    date of the calendar (none is skipped, leap years counted) whose
    ordinal is that of the permit date plus 180. *)
Theorem permit_expires_180_days_later (req : request) (gid : Z) (w w' : world)
    (c : string) :
  (new_guest_view req w = (w', inr (Redirect "archive" []))
   \/ edit_guest_view (req, gid) w
      = (w', inr (Redirect "guest_detail" [("guest_id", gid)]))) ->
  form_get (form req) "permit_date" = Some c ->
  nonempty c = true ->
  exists g d e,
    g ∈ guests (committed w')
    /\ strptime_str c = inr d
    /\ permit_date g = Some d /\ permit_expiry g = Some e
    /\ valid_datetime d = true /\ valid_datetime e = true
    /\ ymd2ord e = ymd2ord d + 180.
Proof.
  intros [H | H] Hc Hn.
  - apply new_guest_view_success in H as (g & i & w1 & w2 & Hg & Ha & Hcf & ->).
    apply guest_of_form_spec in Hg as (Ht & _ & _ & (c1 & Hc1 & Hp) & Hag & _).
    apply db_add_guest_spec in Ha as (_ & Hgs & _).
    apply add_custom_fields_spec in Hcf as (new & _ & _ & Hg2 & _).
    rewrite Hc in Hc1. injection Hc1 as <-.
    unfold parsed_or_none in Hp. rewrite Hn in Hp. destruct Hp as (d & Hd & Hpd).
    unfold permit_dates_agree in Hag. rewrite Hpd in Hag.
    destruct (permit_expiry g) as [e|] eqn:Hpe; [|contradiction].
    destruct (add_days_spec _ _ _ Hag) as [Ho Hv].
    exists (with_id i (stored_guest (engine w) g)), d, e. simpl in *.
    split; [rewrite Hg2, Hgs; apply elem_of_app; right; apply list_elem_of_singleton;
            reflexivity|].
    split; [exact Hd|]. split; [exact Hpd|]. split; [exact Hpe|].
    split; [exact (strptime_str_valid _ _ Hd)|]. split; [exact Hv | exact Ho].
  - apply edit_guest_view_success in H as (old & g & new & Hf & Hg & Hgs & _).
    apply guest_edited_spec in Hg as (Ht & Hid & _ & (c1 & Hc1 & Hp) & _).
    rewrite Hc in Hc1. injection Hc1 as <-. rewrite Hn in Hp.
    destruct Hp as (d & e & Hd & Hadd & Hpd & Hpe).
    destruct (add_days_spec _ _ _ Hadd) as [Ho Hv].
    destruct (guest_by_id_key _ _ _ Hf) as [Hkey Hin].
    exists (stored_guest (engine w) g), d, e. split.
    { rewrite Hgs. apply list_elem_of_fmap. exists old. split; [|exact Hin].
      rewrite Hkey, Z.eqb_refl. reflexivity. }
    split; [exact Hd|]. split; [exact Hpd|]. split; [exact Hpe|].
    split; [exact (strptime_str_valid _ _ Hd)|]. split; [exact Hv | exact Ho].
Qed.

(** X30.  The rows hold dates of the calendar only: if today is one and
    every date of every row of [guests] is a valid [datetime] date (year
    1 to 9999, a month, a day of that month), so is every date of every
    committed row after a successful [new_guest] or [edit_guest]; a form
    date such as 30 February is never stored. *)
Theorem saved_dates_are_calendar_dates (req : request) (gid : Z) (w w' : world) :
  valid_datetime (now w) = true ->
  Forall dates_valid (guests (txn w)) ->
  (new_guest_view req w = (w', inr (Redirect "archive" []))
   \/ edit_guest_view (req, gid) w
      = (w', inr (Redirect "guest_detail" [("guest_id", gid)]))) ->
  Forall dates_valid (guests (committed w')).
Proof.
  intros Hnow Hall [H | H].
  - apply new_guest_view_success in H as (g & i & w1 & w2 & Hg & Ha & Hc & ->).
    pose proof (guest_of_form_dates _ _ _ Hnow Hg) as Hv.
    apply db_add_guest_spec in Ha as (_ & Hgs & _).
    apply add_custom_fields_spec in Hc as (new & _ & _ & Hg2 & _).
    simpl in *. rewrite Hg2, Hgs. apply Forall_app_2; [exact Hall|].
    constructor; [exact Hv | constructor].
  - apply edit_guest_view_success in H as (old & g & new & Hf & Hg & Hgs & _).
    assert (Hold : dates_valid old).
    { destruct (guest_by_id_key _ _ _ Hf) as [_ Hin].
      rewrite Forall_forall in Hall. apply Hall, Hin. }
    pose proof (guest_edited_dates _ _ _ _ Hold Hg) as Hnew.
    rewrite Hgs. apply Forall_fmap. eapply Forall_impl; [exact Hall|].
    intros g0 Hg0. simpl. destruct (id g0 =? gid); assumption.
Qed.

End Dates.

(** *** When [new_guest] saves *)

Ltac known_key := apply (bool_decide_unpack _); reflexivity.

Lemma form_date_or_none_total req k c w :
  form_get (form req) k = Some c -> date_or_empty c ->
  exists o, form_date_or_none req k w = (w, inr o).
Proof.
  intros Hc Hd. unfold form_date_or_none, form_item, bind. rewrite Hc. simpl.
  destruct (nonempty c) eqn:Hn; [|eauto].
  destruct (Hd Hn) as [d ->]. simpl. eauto.
Qed.

Lemma form_date_if_sent_total req k w :
  (forall c, form_get (form req) k = Some c -> date_or_empty c) ->
  exists o, form_date_if_sent req k w = (w, inr o).
Proof.
  intros Hd. unfold form_date_if_sent, form_item, bind.
  destruct (form_get (form req) k) as [c|] eqn:Hc; [|eexists; reflexivity].
  destruct (nonempty c) eqn:Hn; [|eexists; reflexivity].
  simpl. destruct (Hd c eq_refl Hn) as [d ->]. simpl. eauto.
Qed.

Lemma permit_expiry_total req c w :
  form_get (form req) "permit_date" = Some c ->
  (nonempty c = true ->
   exists d e, strptime_str c = inr d /\ add_days d PERMIT_DAYS = inr e) ->
  exists o,
    (c <- form_item req "permit_date" ;;
     if nonempty c then
       v <- form_item req "permit_date" ;;
       d <- lift (strptime_str v) ;;
       e <- lift (add_days d PERMIT_DAYS) ;;
       ret (Some e)
     else ret None)%view w = (w, inr o).
Proof.
  intros Hc Hp. unfold form_item, bind. rewrite Hc. simpl.
  destruct (nonempty c) eqn:Hn; [|eauto].
  destruct (Hp eq_refl) as (d & e & -> & He). simpl. rewrite He. simpl. eauto.
Qed.

Lemma entry_date_total req c w :
  form_get (form req) "entry_date" = Some c -> date_or_empty c ->
  exists o,
    (c <- form_item req "entry_date" ;;
     if nonempty c then
       v <- form_item req "entry_date" ;; d <- lift (strptime_str v) ;; ret d
     else gets now)%view w = (w, inr o).
Proof.
  intros Hc Hd. unfold form_item, bind. rewrite Hc. simpl.
  destruct (nonempty c) eqn:Hn; [|eexists; reflexivity].
  destruct (Hd Hn) as [d ->]. simpl. eauto.
Qed.

Lemma guest_of_form_total req w :
  form_complete req -> exists g, guest_of_form req w = (w, inr g).
Proof.
  intros (Hk & Hb & Hp & Hd).
  destruct (Hk "last_name") as [v1 E1]; [known_key|].
  destruct (Hk "first_name") as [v2 E2]; [known_key|].
  destruct (Hk "gender") as [v3 E3]; [known_key|].
  destruct (Hk "birth_place") as [v4 E4]; [known_key|].
  destruct (Hk "province") as [v5 E5]; [known_key|].
  destruct (Hk "birth_date") as [v6 E6]; [known_key|].
  destruct (Hk "permit_number") as [v7 E7]; [known_key|].
  destruct (Hk "permit_date") as [v8 E8]; [known_key|].
  destruct (Hk "health_card") as [v9 E9]; [known_key|].
  destruct (Hk "health_card_expiry") as [v10 E10]; [known_key|].
  destruct (Hk "entry_date") as [v11 E11]; [known_key|].
  destruct (Hk "room_number") as [v12 E12]; [known_key|].
  destruct (Hk "floor") as [v13 E13]; [known_key|].
  destruct (Hk "family_relations") as [v14 E14]; [known_key|].
  destruct (Hk "fiscal_code") as [v15 E15]; [known_key|].
  destruct (Hk "country_code") as [v16 E16]; [known_key|].
  destruct (Hb _ E6) as [bd Ebd].
  assert (Lbd : lift (strptime_str v6) w = (w, inr bd)) by (unfold lift; rewrite Ebd; reflexivity).
  destruct (form_date_or_none_total req "permit_date" v8 w E8) as [pd Epd].
  { intros Hn. destruct (Hp _ E8 Hn) as (d & _ & Hd' & _). eauto. }
  destruct (permit_expiry_total req v8 w E8 (Hp _ E8)) as [pe Epe].
  destruct (form_date_or_none_total req "health_card_expiry" v10 w E10) as [he Ehe];
    [apply (Hd "health_card_expiry"); [known_key | exact E10]|].
  destruct (entry_date_total req v11 w E11) as [en Een];
    [apply (Hd "entry_date"); [known_key | exact E11]|].
  destruct (form_date_if_sent_total req "check_in_date" w) as [ci Eci];
    [intros c; apply (Hd "check_in_date"); known_key|].
  destruct (form_date_if_sent_total req "check_out_date" w) as [co Eco];
    [intros c; apply (Hd "check_out_date"); known_key|].
  apply (proj2 (form_item_same _ _ w _)) in E1, E2, E3, E4, E5, E6, E7, E9, E12, E13,
    E14, E15, E16.
  unfold guest_of_form.
  repeat (unfold bind at 1;
          rewrite ?E1, ?E2, ?E3, ?E4, ?E5, ?E6, ?E7, ?E9, ?E12, ?E13, ?E14, ?E15, ?E16,
            ?Lbd, ?Epd, ?Epe, ?Ehe, ?Een, ?Eci, ?Eco;
          cbv beta iota).
  eexists. reflexivity.
Qed.

Lemma too_long_fits n v : too_long n (Some v) = false <-> fits n v = true.
Proof. simpl. apply negb_false_iff. Qed.

Lemma too_long_column n o :
  too_long n o = false <-> forall v, o = Some v -> fits n v = true.
Proof.
  destruct o as [v|].
  - rewrite too_long_fits. split; [intros H v' [= <-]; exact H | intros H; apply H; reflexivity].
  - split; [discriminate | reflexivity].
Qed.

Lemma guest_overflow_none (g : Guest) :
  guest_overflow g = None <->
  too_long 100 (Some (last_name g)) = false /\ too_long 100 (Some (first_name g)) = false
  /\ too_long 1 (Some (gender g)) = false /\ too_long 100 (Some (birth_place g)) = false
  /\ too_long 2 (province g) = false /\ too_long 16 (fiscal_code g) = false
  /\ too_long 4 (country_code g) = false /\ too_long 50 (permit_number g) = false
  /\ too_long 50 (health_card g) = false /\ too_long 10 (room_number g) = false
  /\ too_long 10 (floor g) = false.
Proof.
  unfold guest_overflow. split.
  - repeat (match goal with |- context [if ?b then _ else _] => destruct b end;
            [discriminate|]).
    intros _. repeat split.
  - intros (-> & -> & -> & -> & -> & -> & -> & -> & -> & -> & ->). reflexivity.
Qed.

Lemma existsb_somes (f : string -> bool) (l : list (option string)) :
  existsb f (omap (fun o : option string => o) l) = false
  <-> Forall (fun o => forall v, o = Some v -> f v = false) l.
Proof.
  induction l as [|[v|] l IH]; simpl.
  - split; [constructor | reflexivity].
  - rewrite orb_false_iff, Forall_cons, IH. split; intros [H1 H2]; split; auto.
    intros v' [= <-]. exact H1.
  - rewrite Forall_cons, IH. split; [intros H; split; [discriminate | exact H] | tauto].
Qed.

(** The engine takes a row when it takes the value of each text column. *)
Lemma guest_taken (b : backend) (g : Guest) :
  driver_refuses b (guest_texts g) = false /\ flush_guest_check b g = None <->
  takes b (Some 100%nat) (last_name g) /\ takes b (Some 100%nat) (first_name g)
  /\ takes b (Some 1%nat) (gender g) /\ takes b (Some 100%nat) (birth_place g)
  /\ (forall v, province g = Some v -> takes b (Some 2%nat) v)
  /\ (forall v, fiscal_code g = Some v -> takes b (Some 16%nat) v)
  /\ (forall v, country_code g = Some v -> takes b (Some 4%nat) v)
  /\ (forall v, permit_number g = Some v -> takes b (Some 50%nat) v)
  /\ (forall v, health_card g = Some v -> takes b (Some 50%nat) v)
  /\ (forall v, room_number g = Some v -> takes b (Some 10%nat) v)
  /\ (forall v, floor g = Some v -> takes b (Some 10%nat) v)
  /\ (forall v, family_relations g = Some v -> takes b None v).
Proof.
  destruct b; [|simpl; split; intros _; repeat split].
  unfold driver_refuses, flush_guest_check, takes.
  assert (E : DataError <$> guest_overflow g = None <-> guest_overflow g = None)
    by (destruct (guest_overflow g); simpl; split; congruence).
  rewrite E, guest_overflow_none. clear E.
  unfold guest_texts. rewrite existsb_app, orb_false_iff, existsb_somes.
  simpl existsb. rewrite !orb_false_iff, !Forall_cons, Forall_nil.
  rewrite !too_long_fits, !too_long_column.
  split.
  - intros (((N1 & N2 & N3 & N4 & _) & (N5 & N6 & N7 & N8 & N9 & N10 & N11 & N12 & _))
            & F1 & F2 & F3 & F4 & F5 & F6 & F7 & F8 & F9 & F10 & F11).
    repeat split; auto.
  - intros ((N1 & F1) & (N2 & F2) & (N3 & F3) & (N4 & F4) & H5 & H6 & H7 & H8 & H9
            & H10 & H11 & H12).
    repeat split; try assumption; try reflexivity; intros v Hv;
      first [ apply (H5 v Hv) | apply (H6 v Hv) | apply (H7 v Hv) | apply (H8 v Hv)
            | apply (H9 v Hv) | apply (H10 v Hv) | apply (H11 v Hv) | apply (H12 v Hv) ].
Qed.

(** The same on the values of the form the row was built from. *)
Lemma storable_guest (b : backend) (req : request) (g : Guest) :
  text_as_sent req g ->
  (forall k n v, (k, n) ∈ column_limits -> form_get (form req) k = Some v ->
                 takes b (Some n) v)
  /\ (forall v, form_get (form req) "family_relations" = Some v -> takes b None v)
  <-> driver_refuses b (guest_texts g) = false /\ flush_guest_check b g = None.
Proof.
  intros (T1 & T2 & T3 & T4 & T5 & T6 & T7 & T8 & T9 & T10 & T11 & T12).
  rewrite guest_taken. split.
  - intros [H Hfr].
    split; [apply (H "last_name"); [known_key | exact T1]|].
    split; [apply (H "first_name"); [known_key | exact T2]|].
    split; [apply (H "gender"); [known_key | exact T3]|].
    split; [apply (H "birth_place"); [known_key | exact T4]|].
    split; [intros v Hv; apply (H "province"); [known_key | congruence]|].
    split; [intros v Hv; apply (H "fiscal_code"); [known_key | congruence]|].
    split; [intros v Hv; apply (H "country_code"); [known_key | congruence]|].
    split; [intros v Hv; apply (H "permit_number"); [known_key | congruence]|].
    split; [intros v Hv; apply (H "health_card"); [known_key | congruence]|].
    split; [intros v Hv; apply (H "room_number"); [known_key | congruence]|].
    split; [intros v Hv; apply (H "floor"); [known_key | congruence]|].
    intros v Hv. apply Hfr. congruence.
  - intros (H1 & H2 & H3 & H4 & H5 & H6 & H7 & H8 & H9 & H10 & H11 & H12).
    split; [|intros v Hv; apply H12; congruence].
    intros k n v Hin Hv. unfold column_limits in Hin.
    repeat (apply elem_of_cons in Hin as [[= -> ->] | Hin];
            [first [ assert (Hx : Some v = Some (last_name g)) by congruence;
                     injection Hx as ->; assumption
                   | assert (Hx : Some v = Some (first_name g)) by congruence;
                     injection Hx as ->; assumption
                   | assert (Hx : Some v = Some (gender g)) by congruence;
                     injection Hx as ->; assumption
                   | assert (Hx : Some v = Some (birth_place g)) by congruence;
                     injection Hx as ->; assumption
                   | apply H5; congruence | apply H6; congruence | apply H7; congruence
                   | apply H8; congruence | apply H9; congruence | apply H10; congruence
                   | apply H11; congruence ]|]).
    inversion Hin.
Qed.

(** On PostgreSQL the keys of [custom_fields] are behind their sequence. *)
Lemma next_field_id_fresh (w : world) :
  (engine w = PostgreSQL ->
   Forall (fun c => cf_id c <= field_seq w) (custom_fields (txn w))) ->
  next_field_id w ∉ map cf_id (custom_fields (txn w)).
Proof.
  intros Hseq Hin. unfold next_field_id in Hin. destruct (engine w) eqn:He.
  - specialize (Hseq eq_refl). rewrite Forall_forall in Hseq.
    apply list_elem_of_fmap in Hin as (c & Hc & Hin). specialize (Hseq c Hin). lia.
  - apply max_id_upper in Hin. lia.
Qed.

Lemma next_guest_id_free (w : world) :
  (engine w = PostgreSQL -> Forall (fun g => id g <= guest_seq w) (guests (txn w))) ->
  next_guest_id w ∉ map id (guests (txn w)).
Proof.
  intros Hseq Hin. unfold next_guest_id in Hin. destruct (engine w) eqn:He.
  - specialize (Hseq eq_refl). rewrite Forall_forall in Hseq.
    apply list_elem_of_fmap in Hin as (g & Hg & Hin). specialize (Hseq g Hin). lia.
  - apply max_id_upper in Hin. lia.
Qed.

Lemma field_taken (b : backend) (gid i : Z) (fname v : string) :
  driver_refuses b [fname; v] = false
  /\ flush_field_check b {| cf_id := i; guest_id := gid; field_name := fname;
                            field_value := Some v |} = None
  <-> takes b (Some 100%nat) fname /\ takes b None v.
Proof.
  destruct b; [|simpl; tauto].
  unfold driver_refuses, flush_field_check, takes. cbn [field_name existsb].
  rewrite !orb_false_iff.
  destruct (too_long 100 (Some fname)) eqn:Hl.
  - split; [intros [_ ?]; discriminate|].
    intros [[_ Hf] _]. apply too_long_fits in Hf. congruence.
  - apply too_long_fits in Hl. tauto.
Qed.

Lemma db_add_guest_total g w :
  driver_refuses (engine w) (guest_texts g) = false ->
  flush_guest_check (engine w) g = None ->
  (engine w = PostgreSQL -> Forall (fun g => id g <= guest_seq w) (guests (txn w))) ->
  exists w1, db_add_guest g w = (w1, inr (next_guest_id w))
    /\ field_seq w1 = field_seq w.
Proof.
  intros Hd Hf Hk. unfold db_add_guest. rewrite Hd, Hf. cbv zeta.
  rewrite bool_decide_eq_false_2 by (apply next_guest_id_free, Hk).
  eexists. split; reflexivity.
Qed.

Lemma db_add_field_total gid fname v w :
  names_fit (engine w) [(fname, v)] ->
  (engine w = PostgreSQL ->
   Forall (fun c => cf_id c <= field_seq w) (custom_fields (txn w))) ->
  exists w', db_add_field gid fname v w = (w', inr tt) /\ engine w' = engine w
    /\ (engine w' = PostgreSQL ->
        Forall (fun c => cf_id c <= field_seq w') (custom_fields (txn w'))).
Proof.
  intros H Hk. apply Forall_cons in H as [H _]. cbn [fst snd] in H.
  apply (field_taken (engine w) gid (next_field_id w)) in H as [Hd Hf].
  unfold db_add_field. rewrite Hd. cbv zeta. rewrite Hf.
  rewrite bool_decide_eq_false_2 by (apply next_field_id_fresh, Hk).
  eexists. split; [reflexivity|]. split; [reflexivity|].
  simpl. intros Hpg. specialize (Hk Hpg). rewrite Hpg. apply Forall_app. split.
  - eapply Forall_impl; [exact Hk|]. simpl. intros c Hc. unfold next_field_id.
    rewrite Hpg. lia.
  - constructor; [simpl; lia | constructor].
Qed.

Lemma db_add_field_fits gid fname v w w' u :
  db_add_field gid fname v w = (w', inr u) -> names_fit (engine w) [(fname, v)].
Proof.
  unfold db_add_field. destruct (driver_refuses _ _) eqn:Hd; [discriminate|].
  cbv zeta. destruct (flush_field_check _ _) as [e|] eqn:Hc; [discriminate|].
  intros _. constructor; [|constructor]. cbn [fst snd].
  apply (field_taken (engine w) gid (next_field_id w)). split; assumption.
Qed.

Lemma names_fit_cons b e l : names_fit b (e :: l) <-> names_fit b [e] /\ names_fit b l.
Proof. unfold names_fit. rewrite !Forall_cons, Forall_nil. tauto. Qed.

Lemma add_custom_fields_total req gid items w :
  names_fit (engine w) (omap (custom_entry req) items) ->
  (engine w = PostgreSQL ->
   Forall (fun c => cf_id c <= field_seq w) (custom_fields (txn w))) ->
  exists w', add_custom_fields req gid items w = (w', inr tt).
Proof.
  revert w. induction items as [|[k v] items IH]; intros w H Hk; [eexists; reflexivity|].
  simpl add_custom_fields. simpl omap in H. unfold custom_entry at 1 in H.
  unfold bind at 1.
  destruct (String.prefix "custom_field_" k); [|apply IH; assumption].
  destruct (form_get (form req) ("custom_field_name_" ++ last_segment k)) as [fname|];
    [|apply IH; assumption].
  destruct (nonempty fname && nonempty v); [|apply IH; assumption].
  apply names_fit_cons in H as [H1 H2].
  destruct (db_add_field_total gid fname v w H1 Hk) as (w1 & -> & He & Hk1).
  apply IH; [rewrite He; exact H2 | exact Hk1].
Qed.

Lemma add_custom_fields_fits req gid items w w' u :
  add_custom_fields req gid items w = (w', inr u) ->
  names_fit (engine w) (omap (custom_entry req) items).
Proof.
  revert w. induction items as [|[k v] items IH]; intros w; [intros _; constructor|].
  simpl add_custom_fields. intros H. step_bind H as w1 u1 E.
  simpl omap. unfold custom_entry at 1.
  destruct (String.prefix "custom_field_" k);
    [|injection E as <-; apply IH, H].
  destruct (form_get (form req) ("custom_field_name_" ++ last_segment k)) as [fname|];
    [|injection E as <-; apply IH, H].
  destruct (nonempty fname && nonempty v); [|injection E as <-; apply IH, H].
  apply names_fit_cons. split; [eapply db_add_field_fits, E|].
  apply db_add_field_inr in E as (c & _ & _ & _ & _ & _ & _ & _ & Ee).
  rewrite <- Ee. apply IH, H.
Qed.

Lemma guest_edited_total req g0 w :
  form_complete req -> exists g, guest_edited req g0 w = (w, inr g).
Proof.
  intros (Hk & Hb & Hp & Hd).
  destruct (Hk "last_name") as [v1 E1]; [known_key|].
  destruct (Hk "first_name") as [v2 E2]; [known_key|].
  destruct (Hk "gender") as [v3 E3]; [known_key|].
  destruct (Hk "birth_place") as [v4 E4]; [known_key|].
  destruct (Hk "province") as [v5 E5]; [known_key|].
  destruct (Hk "birth_date") as [v6 E6]; [known_key|].
  destruct (Hk "permit_number") as [v7 E7]; [known_key|].
  destruct (Hk "permit_date") as [v8 E8]; [known_key|].
  destruct (Hk "health_card") as [v9 E9]; [known_key|].
  destruct (Hk "health_card_expiry") as [v10 E10]; [known_key|].
  destruct (Hk "entry_date") as [v11 E11]; [known_key|].
  destruct (Hk "room_number") as [v12 E12]; [known_key|].
  destruct (Hk "floor") as [v13 E13]; [known_key|].
  destruct (Hk "family_relations") as [v14 E14]; [known_key|].
  destruct (Hk "fiscal_code") as [v15 E15]; [known_key|].
  destruct (Hk "country_code") as [v16 E16]; [known_key|].
  destruct (Hb _ E6) as [bd Ebd].
  assert (Lbd : lift (strptime_str v6) w = (w, inr bd))
    by (unfold lift; rewrite Ebd; reflexivity).
  destruct (form_date_or_none_total req "health_card_expiry" v10 w E10) as [he Ehe];
    [apply (Hd "health_card_expiry"); [known_key | exact E10]|].
  destruct (form_date_or_none_total req "entry_date" v11 w E11) as [en Een];
    [apply (Hd "entry_date"); [known_key | exact E11]|].
  destruct (form_date_if_sent_total req "check_in_date" w) as [ci Eci];
    [intros c; apply (Hd "check_in_date"); known_key|].
  destruct (form_date_if_sent_total req "check_out_date" w) as [co Eco];
    [intros c; apply (Hd "check_out_date"); known_key|].
  pose proof (Hp _ E8) as Hp'.
  apply (proj2 (form_item_same _ _ w _)) in E1, E2, E3, E4, E5, E6, E7, E8, E9, E12, E13,
    E14, E15, E16.
  unfold guest_edited, bind, ret.
  destruct (nonempty v8) eqn:Hn.
  - destruct (Hp' eq_refl) as (d & e & Hd' & He).
    assert (Ld : lift (strptime_str v8) w = (w, inr d))
      by (unfold lift; rewrite Hd'; reflexivity).
    assert (Le : lift (add_days d PERMIT_DAYS) w = (w, inr e))
      by (unfold lift; rewrite He; reflexivity).
    repeat (cbv beta iota;
            progress rewrite ?E1, ?E2, ?E3, ?E4, ?E5, ?E6, ?E7, ?E8, ?E9, ?E12, ?E13, ?E14,
              ?E15, ?E16, ?Lbd, ?Ehe, ?Een, ?Eci, ?Eco, ?Hn, ?Ld, ?Le).
    eexists. reflexivity.
  - repeat (cbv beta iota;
            progress rewrite ?E1, ?E2, ?E3, ?E4, ?E5, ?E6, ?E7, ?E8, ?E9, ?E12, ?E13, ?E14,
              ?E15, ?E16, ?Lbd, ?Ehe, ?Een, ?Eci, ?Eco, ?Hn).
    eexists. reflexivity.
Qed.

Lemma guest_edited_complete req g0 w g :
  guest_edited req g0 w = (w, inr g) -> form_complete req.
Proof.
  unfold guest_edited. intros H. repeat ro_bind H. clear H.
  ro_bind E10. ro_bind E11. ro_bind E12. ro_bind E13. clear E10 E11 E12 E13.
  assert (Hp : nonempty a7 = true ->
               exists d e, strptime_str a7 = inr d /\ add_days d PERMIT_DAYS = inr e).
  { intros Hn. rewrite Hn in E8. ro_bind E8. ro_bind E8. ro_bind E8. form_facts.
    match goal with
    | F : form_get _ "permit_date" = Some ?x, S : strptime_str ?x = inr _ |- _ =>
        assert (Hx : x = a7) by congruence; subst x
    end.
    eauto. }
  clear E8. form_facts.
  destruct E19 as (c1 & Hc1 & P1). destruct E20 as (c2 & Hc2 & P2).
  unfold parsed_or_none in *.
  split; [|split; [|split]].
  - intros k Hk. unfold required_form_keys in Hk.
    repeat (apply elem_of_cons in Hk as [-> | Hk]; [eauto|]).
    inversion Hk.
  - intros s Hs. rewrite E4 in Hs. injection Hs as <-. eauto.
  - intros c Hc. rewrite E7 in Hc. injection Hc as <-. exact Hp.
  - intros k c Hk Hc Hn.
    repeat (apply elem_of_cons in Hk as [-> | Hk]).
    + rewrite Hc1 in Hc. injection Hc as <-. rewrite Hn in P1.
      destruct P1 as (d & Hd & _). eauto.
    + rewrite Hc2 in Hc. injection Hc as <-. rewrite Hn in P2.
      destruct P2 as (d & Hd & _). eauto.
    + rewrite Hc, Hn in E21. destruct E21 as (d & Hd & _). eauto.
    + rewrite Hc, Hn in E22. destruct E22 as (d & Hd & _). eauto.
    + inversion Hk.
Qed.

Section Saving.
Variable str : exn -> string.
Local Abbreviation new_guest_view := (new_guest_view str).

(** X27.  Where no key is ahead of its sequence, [new_guest] saves the
    guest exactly when the form is complete and the engine takes its
    values.  On SQLite a POST with the sixteen keys and dates that parse
    is always saved.  On PostgreSQL it is saved when, in addition, no text
    value and no name or value of a custom field has a NUL character, and
    the values of the [String(n)] columns and the names of the custom
    fields have at most [n] (100 for a name) characters or spaces alone
    after those. *)
Theorem new_guest_saves_iff (req : request) (w : world) :
  method req = POST ->
  keys_behind w ->
  (exists w', new_guest_view req w = (w', inr (Redirect "archive" [])))
  <-> form_complete req /\ storable (engine w) req.
Proof.
  intros Hm Hkeys. split.
  - intros (w' & H).
    apply new_guest_view_success in H as (g & i & w1 & w2 & Hg & Ha & Hc & _).
    pose proof (guest_of_form_spec _ _ _ Hg)
      as (Ht & _ & (s & Hs & Hbd) & (c & Hc1 & Hpd) & Hag & (c2 & Hc2 & Hhe)
          & (c3 & Hc3 & Hen) & _ & Hci & Hco).
    split.
    + split; [intros k; apply (guest_of_form_keys _ _ _ _ Hg)|].
      split; [intros s' Hs'; rewrite Hs in Hs'; injection Hs' as <-; eauto|].
      split.
      * intros c' Hc' Hn. rewrite Hc1 in Hc'. injection Hc' as <-.
        unfold parsed_or_none in Hpd. rewrite Hn in Hpd. destruct Hpd as (d & Hd & Hp).
        unfold permit_dates_agree in Hag. rewrite Hp in Hag.
        destruct (permit_expiry g) as [e|]; [eauto | contradiction].
      * intros k c' Hk Hk' Hn. unfold parsed_or_none in *.
        repeat (apply elem_of_cons in Hk as [-> | Hk]).
        { rewrite Hc2 in Hk'. injection Hk' as <-. rewrite Hn in Hhe.
          destruct Hhe as (d & Hd & _). eauto. }
        { rewrite Hc3 in Hk'. injection Hk' as <-. rewrite Hn in Hen.
          destruct Hen as (d & Hd & _). eauto. }
        { rewrite Hk' in Hci. rewrite Hn in Hci. destruct Hci as (d & Hd & _). eauto. }
        { rewrite Hk' in Hco. rewrite Hn in Hco. destruct Hco as (d & Hd & _). eauto. }
        { inversion Hk. }
    + pose proof (add_custom_fields_fits _ _ _ _ _ _ Hc) as Hfit.
      pose proof (db_add_guest_checked _ _ _ _ Ha) as Hchk.
      pose proof (db_add_guest_driver _ _ _ _ Ha) as Hdrv.
      apply db_add_guest_spec in Ha as (_ & _ & _ & _ & _ & _ & _ & He).
      simpl in Hfit. rewrite He in Hfit.
      destruct (proj2 (storable_guest (engine w) req g Ht) (conj Hdrv Hchk)) as [H1 H2].
      split; [exact H1|]. split; [exact H2 | exact Hfit].
  - intros [Hf (Hs1 & Hs2 & Hs3)]. destruct (guest_of_form_total req w Hf) as [g Hg].
    pose proof (guest_of_form_spec _ _ _ Hg) as (Ht & _).
    destruct (proj1 (storable_guest (engine w) req g Ht) (conj Hs1 Hs2)) as [Hdrv Hchk].
    destruct (db_add_guest_total g w Hdrv Hchk) as (w1 & Ha & Hfs);
      [intros Hpg; apply (Hkeys Hpg)|].
    rewrite (new_guest_view_post _ _ _ Hm), Hg. simpl snd. cbv beta iota.
    rewrite Ha.
    apply db_add_guest_spec in Ha as (_ & _ & Hcf & _ & _ & _ & _ & He).
    destruct (add_custom_fields_total req (next_guest_id w) (form_items req)
                (set_committed (txn w1) w1)) as [w2 ->].
    + simpl. rewrite He. exact Hs3.
    + simpl. rewrite He, Hcf, Hfs. intros Hpg. apply (Hkeys Hpg).
    + eexists. reflexivity.
Qed.

(** X28.  Where no key is ahead of its sequence, [edit_guest] saves
    exactly when the guest is in the table, the form is complete and the
    engine takes its values: the conditions of [new_guest], and nothing
    else. *)
Theorem edit_guest_saves_iff (req : request) (gid : Z) (w : world) :
  method req = POST ->
  keys_behind w ->
  (exists w', edit_guest_view str (req, gid) w
              = (w', inr (Redirect "guest_detail" [("guest_id", gid)])))
  <-> gid ∈ map id (guests (txn w)) /\ form_complete req /\ storable (engine w) req.
Proof.
  intros Hm Hkeys. split.
  - intros (w' & H).
    destruct (guest_by_id gid (txn w)) as [guest|] eqn:Hf;
      [|rewrite (edit_guest_view_missing _ _ _ _ Hf) in H; discriminate].
    rewrite (edit_guest_view_post _ _ _ _ _ Hm Hf) in H. cbv zeta in H.
    destruct (guest_edited req guest w) as [w0 [e|g]] eqn:Hg; simpl snd in H;
      cbv beta iota in H; [discriminate|].
    pose proof (reads_only_world _ _ _ _ (reads_only_guest_edited req guest) Hg) as ->.
    destruct (db_update_guest g w) as [w1 [e|u]] eqn:Hu; [discriminate|].
    destruct (add_custom_fields _ _ _ _) as [w2 [e|[]]] eqn:Hc; [discriminate|].
    split.
    { destruct (decide (gid ∈ map id (guests (txn w)))) as [?|Hn]; [assumption|].
      apply guest_by_id_none in Hn. congruence. }
    split; [exact (guest_edited_complete _ _ _ _ Hg)|].
    pose proof (guest_edited_spec _ _ _ _ Hg) as (Ht & _).
    pose proof (add_custom_fields_fits _ _ _ _ _ _ Hc) as Hfit.
    pose proof (db_update_guest_checked _ _ _ _ Hu) as Hchk.
    pose proof (db_update_guest_driver _ _ _ _ Hu) as Hdrv.
    apply db_update_guest_spec in Hu as (_ & _ & _ & _ & _ & _ & He).
    simpl in Hfit. rewrite He in Hfit.
    destruct (proj2 (storable_guest (engine w) req g Ht) (conj Hdrv Hchk)) as [H1 H2].
    split; [exact H1|]. split; [exact H2 | exact Hfit].
  - intros (Hin & Hf & Hs1 & Hs2 & Hs3).
    destruct (guest_by_id gid (txn w)) as [guest|] eqn:Hfind;
      [|apply guest_by_id_none in Hfind; contradiction].
    destruct (guest_edited_total req guest w Hf) as [g Hg].
    pose proof (guest_edited_spec _ _ _ _ Hg) as (Ht & _).
    destruct (proj1 (storable_guest (engine w) req g Ht) (conj Hs1 Hs2)) as [Hdrv Hchk].
    rewrite (edit_guest_view_post _ _ _ _ _ Hm Hfind), Hg. cbv zeta. simpl snd.
    cbv beta iota.
    unfold db_update_guest. rewrite Hdrv, Hchk. cbv beta iota zeta.
    match goal with
    | |- context [add_custom_fields req ?i ?items ?w0] =>
        destruct (add_custom_fields_total req i items w0) as [w2 ->]
    end.
    + simpl. exact Hs3.
    + simpl. intros Hpg. destruct (Hkeys Hpg) as [_ Hcf].
      rewrite Forall_forall in *. intros c Hc.
      apply list_elem_of_filter in Hc as [_ Hc]. apply Hcf, Hc.
    + eexists. reflexivity.
Qed.

End Saving.

(** *** The statements above on sample data *)

Lemma login_admits_witness :
  exists w',
    login (login_request (Some DEFAULT_PASSWORD)) (fresh_world SQLite)
    = (w', inr (Redirect "dashboard" []))
    /\ admits w'.
Proof.
  destruct (login_admits (login_request (Some DEFAULT_PASSWORD)) (fresh_world SQLite)
              eq_refl eq_refl) as (w' & H & _ & _ & _ & Ha & _).
  exists w'. split; [exact H | exact Ha].
Defined.

Lemma login_logout_session_witness :
  session (fst (logout get_request
                  (fst (login (login_request (Some DEFAULT_PASSWORD)) (fresh_world SQLite)))))
  = ∅.
Proof.
  apply (login_logout_session (login_request (Some DEFAULT_PASSWORD)) get_request
           (fresh_world SQLite)).
  - unfold logged_in. apply (bool_decide_unpack _). reflexivity.
  - reflexivity.
Defined.

Lemma password_change_takes_effect_witness :
  exists w',
    settings_view sample_str (password_form "segreto" "segreto")
      (logged_in_world PostgreSQL)
    = (w', inr (Redirect "settings" []))
    /\ stored_password (committed w') = Some "segreto".
Proof.
  destruct (password_change_takes_effect sample_str (password_form "segreto" "segreto")
              (logged_in_world PostgreSQL) "segreto" eq_refl eq_refl) as [Hok _];
    [discriminate | reflexivity |].
  destruct (Hok eq_refl) as (w' & H & Hp & _).
  exists w'. split; [exact H | exact Hp].
Defined.

Lemma password_kept_witness :
  committed (fst (settings_view sample_str (password_form "segreto" "segrete")
                    (logged_in_world SQLite)))
  = empty_db.
Proof.
  apply (password_kept sample_str (password_form "segreto" "segrete")
           (logged_in_world SQLite)).
  intros (_ & _ & H). discriminate H.
Defined.

Lemma new_guest_needs_every_field_witness :
  exists e,
    new_guest_view sample_str (login_request None) (logged_in_world SQLite)
    = (save_failed sample_str e (logged_in_world SQLite), inr (new_guest_page [])).
Proof.
  destruct (new_guest_needs_every_field sample_str (login_request None)
              (logged_in_world SQLite) "last_name" eq_refl) as (e & H & _);
    [apply (bool_decide_unpack _); reflexivity | reflexivity |].
  exists e. exact H.
Defined.

Lemma new_guest_saves_form_witness :
  exists g,
    guests (committed (fst (new_guest_view sample_str spaced_post
                              (logged_in_world PostgreSQL)))) = [g]
    /\ id g = 1 /\ province g = Some "RM" /\ entry_date g = Some (Date 2025 1 1).
Proof.
  destruct (new_guest_saves_form sample_str spaced_post (logged_in_world PostgreSQL)
              (fst (new_guest_view sample_str spaced_post (logged_in_world PostgreSQL))))
    as (g & Hgs & _ & _ & Hid & Hk & _ & _ & (c & Hc & He) & _);
    [vm_compute; reflexivity|].
  exists g. split; [exact Hgs|]. split; [exact Hid|].
  split; [symmetry; exact (proj1 (proj2 (proj2 (proj2 (proj2 Hk)))))|].
  injection Hc as <-. exact He.
Defined.

Lemma new_guest_saves_custom_fields_witness :
  exists new,
    custom_fields (committed (fst (new_guest_view sample_str custom_post
                                     (guest_world PostgreSQL))))
    = (sample_field :: new)%list
    /\ map field_content new = [(2, "Allergie", Some "Allergie"); (2, "Allergie", Some "Noci")].
Proof.
  destruct (new_guest_saves_custom_fields sample_str custom_post (guest_world PostgreSQL)
              (fst (new_guest_view sample_str custom_post (guest_world PostgreSQL))))
    as (new & H1 & H2 & _); [vm_compute; reflexivity|].
  exists new. split; [exact H1 | exact H2].
Defined.

Lemma name_key_saved_as_field_witness :
  exists c,
    c ∈ custom_fields (committed (fst (new_guest_view sample_str custom_post
                                         (guest_world PostgreSQL))))
    /\ guest_id c = 2 /\ field_name c = "Allergie" /\ field_value c = Some "Allergie".
Proof.
  destruct (name_key_saved_as_field sample_str custom_post (guest_world PostgreSQL)
              (fst (new_guest_view sample_str custom_post (guest_world PostgreSQL)))
              "1" "Allergie") as (c & H1 & H2 & H3 & H4 & _).
  - vm_compute. reflexivity.
  - unfold underscore_free. apply (bool_decide_unpack _). reflexivity.
  - reflexivity.
  - discriminate.
  - exists c. split; [exact H1|]. split; [exact H2|]. split; [exact H3 | exact H4].
Defined.

Lemma edit_guest_saves_form_witness :
  exists g,
    g ∈ guests (committed (fst (edit_guest_view sample_str (custom_post, 1)
                                  (guest_world SQLite))))
    /\ id g = 1.
Proof.
  destruct (edit_guest_saves_form sample_str custom_post 1 (guest_world SQLite)
              (fst (edit_guest_view sample_str (custom_post, 1) (guest_world SQLite))))
    as (old & _ & H & _); [vm_compute; reflexivity | exact H].
Defined.

Lemma edit_guest_keeps_others_witness :
  map id (guests (committed (fst (edit_guest_view sample_str (custom_post, 1)
                                    (guest_world PostgreSQL)))))
  = [1].
Proof.
  apply (edit_guest_keeps_others sample_str custom_post 1 (guest_world PostgreSQL)).
  vm_compute. reflexivity.
Defined.

Lemma edit_guest_failure_changes_nothing_witness :
  committed (fst (edit_guest_view sample_str (login_request None, 1) (guest_world SQLite)))
  = sample_db.
Proof.
  apply (edit_guest_failure_changes_nothing sample_str (login_request None) 1
           (guest_world SQLite) _
           (snd (edit_guest_view sample_str (login_request None, 1) (guest_world SQLite)))).
  - destruct (edit_guest_view _ _ _). reflexivity.
  - intros H. vm_compute in H. discriminate H.
Defined.

Lemma permit_expiry_follows_date_witness :
  Forall permit_dates_agree
    (guests (committed (fst (new_guest_view sample_str sample_post
                               (guest_world SQLite))))).
Proof.
  apply (permit_expiry_follows_date sample_str sample_post 0 (guest_world SQLite)).
  - constructor; [vm_compute; reflexivity | constructor].
  - left. vm_compute. reflexivity.
Defined.

Lemma new_guest_failure_may_keep_guest_witness :
  txn (fst (new_guest_view sample_str long_name_post (guest_world PostgreSQL)))
  = committed (fst (new_guest_view sample_str long_name_post (guest_world PostgreSQL))).
Proof.
  apply (new_guest_failure_may_keep_guest sample_str long_name_post
           (guest_world PostgreSQL) _
           (new_guest_page [sample_guest]) eq_refl).
  - vm_compute. reflexivity.
  - discriminate.
Defined.

Lemma delete_guest_removes_witness :
  exists w',
    delete_guest_view sample_str (empty_post, 1) (guest_world SQLite)
    = (w', inr (Redirect "archive" []))
    /\ guests (committed w') = [] /\ custom_fields (committed w') = [].
Proof.
  destruct (delete_guest_removes sample_str empty_post 1 (guest_world SQLite)
              sample_guest eq_refl) as (w' & H & Hg & Hc & _).
  exists w'. split; [exact H|]. split; [exact Hg | exact Hc].
Defined.

Lemma edit_guest_then_detail_witness :
  exists g fields,
    guest_detail_view (get_request, 1)
      (fst (edit_guest_view sample_str (custom_post, 1) (guest_world SQLite)))
    = (fst (edit_guest_view sample_str (custom_post, 1) (guest_world SQLite)),
       inr (detail_page g fields))
    /\ id g = 1
    /\ text_as_sent custom_post g
    /\ map field_content fields
       = map (owned_entry 1) (custom_entries custom_post).
Proof.
  destruct (edit_guest_then_detail sample_str custom_post get_request 1
              (guest_world SQLite)
              (fst (edit_guest_view sample_str (custom_post, 1) (guest_world SQLite))))
    as (g & fields & H1 & H2 & _ & _ & H5); [vm_compute; reflexivity|].
  exists g, fields. split; [exact H1|]. split; [exact H2 | exact (H5 eq_refl)].
Defined.

Lemma views_keep_tables_consistent_witness :
  consistent (fst (new_guest sample_str custom_post (guest_world PostgreSQL))).
Proof.
  apply (views_keep_tables_consistent sample_str custom_post 1 (guest_world PostgreSQL)).
  assert (Hk : keys_unique (guest_world PostgreSQL) sample_db).
  { split; [apply NoDup_singleton|]. intros _. constructor; [|constructor].
    simpl. lia. }
  assert (Hf : fields_owned sample_db).
  { constructor; [|constructor]. simpl. apply list_elem_of_singleton. reflexivity. }
  repeat split; assumption || apply Hk.
Defined.

Lemma new_guest_then_detail_witness :
  exists g fields,
    guest_detail_view (get_request, 2)
      (fst (new_guest_view sample_str custom_post (guest_world SQLite)))
    = (fst (new_guest_view sample_str custom_post (guest_world SQLite)),
       inr (detail_page g fields))
    /\ id g = 2
    /\ text_as_sent custom_post g
    /\ map field_content fields
       = map (owned_entry 2) (custom_entries custom_post).
Proof.
  destruct (new_guest_then_detail sample_str custom_post get_request (guest_world SQLite)
              (fst (new_guest_view sample_str custom_post (guest_world SQLite))))
    as (g & fields & H1 & H2 & _ & _ & H5).
  - assert (Hk : keys_unique (guest_world SQLite) sample_db).
    { split; [apply NoDup_singleton|]. intros _. constructor; [|constructor].
      simpl. lia. }
    assert (Hf : fields_owned sample_db).
    { constructor; [|constructor]. simpl. apply list_elem_of_singleton. reflexivity. }
    repeat split; assumption || apply Hk.
  - vm_compute. reflexivity.
  - exists g, fields. split; [exact H1|]. split; [exact H2 | exact (H5 eq_refl)].
Defined.

Lemma import_data_turns_away_witness :
  exists msg,
    import_data_view (list string) sample_reader sample_reader sample_columns
      sample_rows sample_flush sample_str ([("import_file", sample_upload)], empty_post)
      (logged_in_world SQLite)
    = (set_flashes [(msg, "danger")] (logged_in_world SQLite),
       inl (BuildError "export")).
Proof.
  destruct (import_data_turns_away (list string) sample_reader sample_reader
              sample_columns sample_rows sample_flush sample_str
              [("import_file", sample_upload)] empty_post (logged_in_world SQLite))
    as (msg & H & _); [right; reflexivity|].
  exists msg. exact H.
Defined.


Lemma new_guest_saves_iff_witness :
  form_complete custom_post /\ storable PostgreSQL custom_post.
Proof.
  apply (new_guest_saves_iff sample_str custom_post (guest_world PostgreSQL) eq_refl).
  - intros _. split; (constructor; [simpl; lia | constructor]).
  - exists (fst (new_guest_view sample_str custom_post (guest_world PostgreSQL))).
    vm_compute. reflexivity.
Defined.

Lemma edit_guest_saves_iff_witness :
  exists w',
    edit_guest_view sample_str (custom_post, 1) (guest_world SQLite)
    = (w', inr (Redirect "guest_detail" [("guest_id", 1)])).
Proof.
  apply (edit_guest_saves_iff sample_str custom_post 1 (guest_world SQLite) eq_refl).
  { intros Hpg. discriminate Hpg. }
  split; [apply (bool_decide_unpack _); reflexivity|].
  split; [|split; [intros k n v _ _; exact I|split; [intros v _; exact I|]];
           apply Forall_forall; intros e _; split; exact I].
  split; [|split; [|split]].
  - intros k Hk. unfold required_form_keys in Hk.
    repeat (apply elem_of_cons in Hk as [-> | Hk]; [vm_compute; eauto|]).
    inversion Hk.
  - intros s Hs. vm_compute in Hs. injection Hs as <-. eexists. vm_compute. reflexivity.
  - intros c Hc _. vm_compute in Hc. injection Hc as <-.
    exists (Date 2024 12 31), (Date 2025 6 29). split; vm_compute; reflexivity.
  - intros k c Hk Hc Hn.
    repeat (apply elem_of_cons in Hk as [-> | Hk]);
      vm_compute in Hc; try discriminate Hc;
      try (injection Hc as <-; vm_compute in Hn; discriminate Hn).
    inversion Hk.
Defined.

Lemma permit_expires_180_days_later_witness :
  exists g d e,
    g ∈ guests (committed (fst (new_guest_view sample_str sample_post
                                  (guest_world SQLite))))
    /\ permit_date g = Some d /\ permit_expiry g = Some e
    /\ ymd2ord e = ymd2ord d + 180.
Proof.
  destruct (permit_expires_180_days_later sample_str sample_post 0 (guest_world SQLite)
              (fst (new_guest_view sample_str sample_post (guest_world SQLite)))
              "2024-12-31")
    as (g & d & e & Hin & _ & Hd & He & _ & _ & Ho);
    [left; vm_compute; reflexivity | reflexivity | reflexivity |].
  exists g, d, e. auto.
Defined.

Lemma saved_dates_are_calendar_dates_witness :
  Forall dates_valid
    (guests (committed (fst (new_guest_view sample_str sample_post
                               (guest_world SQLite))))).
Proof.
  apply (saved_dates_are_calendar_dates sample_str sample_post 0 (guest_world SQLite)).
  - reflexivity.
  - constructor; [repeat split; reflexivity | constructor].
  - left. vm_compute. reflexivity.
Defined.

End AppMore.
